(** * PUDL tabular outputs and SQLite IO manager: a shallow embedding

    The development follows the two source files:
    - [pudl/outputs.py]: the column organizer, the joins that attach
      plant and utility identifiers, and the temporal aggregation with
      re-derived weighted averages;
    - [src/pudl/io_managers.py]: the storage loader and the deferred
      foreign-key check.

    pandas data frames are lists of rows, each row a finite map from column
    name to cell, together with the column order.  Numeric cells are
    binary64 floats (the kernel's primitive floats), integers are [Z]. *)

From Stdlib Require Import ZArith List String Ascii Bool Lia.
From Stdlib Require Import Sorting.Sorted Sorting.Permutation.
From Stdlib Require Import Floats.
From stdpp Require Import base decidable option list gmap strings.

Local Open Scope string_scope.
Local Open Scope list_scope.

(** ** Exceptions and the error monad *)

(** io_managers.py: [ForeignKeyError], one violated constraint with the
    rows that violate it. *)
Record ForeignKeyError : Type := mkForeignKeyError {
  child_table : string;
  parent_table : string;
  foreign_key : string;
  rowids : list Z
}.

Inductive exn : Type :=
| KeyError (labels : list string)
| ValueError (msg : string)
| TypeError (msg : string)
| MergeError (msg : string)
| IntegrityError (msg : string)
| OperationalError (msg : string)
| ForeignKeyErrors (fk_errors : list ForeignKeyError).

Inductive result (A : Type) : Type :=
| Ok (a : A)
| Raise (e : exn).
Arguments Ok {A} a.
Arguments Raise {A} e.

#[global] Instance result_ret : MRet result := fun A a => Ok a.
#[global] Instance result_bind : MBind result := fun A B f m =>
  match m with
  | Ok a => f a
  | Raise e => Raise e
  end.
#[global] Instance result_fmap : FMap result := fun A B f m =>
  match m with
  | Ok a => Ok (f a)
  | Raise e => Raise e
  end.

Definition is_ok {A} (m : result A) : bool :=
  match m with Ok _ => true | Raise _ => false end.

(** [mapM] over a list, stopping at the first exception. *)
Fixpoint traverse {A B} (f : A -> result B) (l : list A) : result (list B) :=
  match l with
  | [] => Ok []
  | x :: l' => y ← f x; ys ← traverse f l'; Ok (y :: ys)
  end.

(** ** Sorting

    Python's [list.sort] and pandas' sorted group keys are modelled by a
    stable insertion sort over a boolean order. *)

Fixpoint insert_sorted {A} (leb : A -> A -> bool) (x : A) (l : list A) : list A :=
  match l with
  | [] => [x]
  | y :: l' => if leb x y then x :: l else y :: insert_sorted leb x l'
  end.

Definition sort_by {A} (leb : A -> A -> bool) (l : list A) : list A :=
  foldr (insert_sorted leb) [] l.

(** ** Cells

    A cell holds what pandas can hold in the columns these modules touch:
    64-bit integers ([Z]), binary64 floats, strings, dates, and the missing
    object [None]/[NaT].  Float [nan] is pandas' missing marker in numeric
    columns. *)

#[global] Instance float_eq_dec : EqDecision float.
Proof.
  intros x y. destruct (PrimFloat.Leibniz.eqb x y) eqn:E.
  - left. by apply Leibniz.eqb_spec.
  - right. intros H. apply Leibniz.eqb_spec in H. congruence.
Defined.

Record date : Type := mkDate { year : Z; month : Z; day : Z }.

#[global] Instance date_eq_dec : EqDecision date.
Proof. solve_decision. Defined.

Inductive value : Type :=
| VInt (z : Z)
| VFloat (x : float)
| VStr (s : string)
| VDate (d : date)
| VNone.

#[global] Instance value_eq_dec : EqDecision value.
Proof. solve_decision. Defined.

(** [pd.isna] on one cell. *)
Definition isna (v : value) : bool :=
  match v with
  | VFloat x => PrimFloat.is_nan x
  | VNone => true
  | _ => false
  end.

(** ** Data frames *)

Abbreviation row := (gmap string value).

Record DataFrame : Type := mkDF { columns : list string; rows : list row }.

(** A missing key in a row reads as a missing cell. *)
Definition cell (r : row) (c : string) : value := default VNone (r !! c).

(** Labels of [labels] that name no column of [df]. *)
Definition missing_labels (df : DataFrame) (labels : list string) : list string :=
  filter (fun c => c ∉ columns df) labels.

(** [df[labels]] with a list of labels: every column carrying a requested
    label is selected, in the order of the request; a label that names no
    column raises [KeyError]. *)
Definition getitem_list (df : DataFrame) (labels : list string) : result DataFrame :=
  match missing_labels df labels with
  | [] =>
      Ok {| columns := flat_map (fun l => filter (fun c => c = l) (columns df)) labels;
            rows := map (fun r : row => filter (fun kv => kv.1 ∈ labels) r) (rows df) |}
  | missing => Raise (KeyError missing)
  end.

(** ** outputs.py: [organize_cols] *)

Definition organize_cols (df : DataFrame) (cols : list string) : result DataFrame :=
  let data_cols := filter (fun c => c ∉ cols) (columns df) in
  let data_cols := sort_by String.leb data_cols in
  let organized_cols := cols ++ data_cols in
  getitem_list df organized_cols.

(** ** Numbers in cells *)

(** An integer cell promoted to binary64 (exact below [2^53]; the store's
    identifiers and counts are far below that). *)
Definition Z2float (z : Z) : float :=
  if (z <? 0)%Z then PrimFloat.opp (PrimFloat.of_uint63 (Uint63.of_Z (- z)))
  else PrimFloat.of_uint63 (Uint63.of_Z z).

(** The float an arithmetic operation sees in a cell.  [None] in an object
    column is skipped by pandas' masked arithmetic and yields [nan]. *)
Definition as_float (v : value) : result float :=
  match v with
  | VFloat x => Ok x
  | VInt z => Ok (Z2float z)
  | VNone => Ok PrimFloat.nan
  | VStr _ => Raise (TypeError "unsupported operand type: str")
  | VDate _ => Raise (TypeError "unsupported operand type: date")
  end.

(** Truncation toward zero of a finite float, as [astype(int)] does. *)
Definition float_trunc (x : float) : option Z :=
  match Prim2SF x with
  | S754_zero _ => Some 0%Z
  | S754_finite s m e =>
      let a := if (0 <=? e)%Z then (Z.pos m * 2 ^ e)%Z
               else Z.shiftr (Z.pos m) (- e) in
      Some (if s then (- a)%Z else a)
  | S754_infinity _ | S754_nan => None
  end.

Fixpoint parse_digits (s : string) (acc : Z) : option Z :=
  match s with
  | EmptyString => Some acc
  | String c s' =>
      let n := Z.of_nat (nat_of_ascii c) in
      if ((48 <=? n) && (n <=? 57))%Z
      then parse_digits s' (10 * acc + (n - 48))%Z
      else None
  end.

(** [int(s)] for a plain decimal literal with an optional sign. *)
Definition parse_int (s : string) : option Z :=
  match s with
  | EmptyString => None
  | String c s' =>
      if Ascii.eqb c "-"%char then
        (if String.eqb s' "" then None else Z.opp <$> parse_digits s' 0)
      else if Ascii.eqb c "+"%char then
        (if String.eqb s' "" then None else parse_digits s' 0)
      else parse_digits s 0
  end.

(** One cell under [Series.astype(int)]. *)
Definition astype_int_cell (v : value) : result value :=
  match v with
  | VInt z => Ok (VInt z)
  | VFloat x =>
      match float_trunc x with
      | Some z => Ok (VInt z)
      | None => Raise (ValueError "Cannot convert non-finite values (NA or inf) to integer")
      end
  | VStr s =>
      match parse_int s with
      | Some z => Ok (VInt z)
      | None => Raise (ValueError "invalid literal for int()")
      end
  | VDate _ => Raise (TypeError "cannot astype a datetimelike to int")
  | VNone => Raise (TypeError "int() argument must be a string or a number, not NoneType")
  end.

(** [nansum]: pandas' group sum skips [nan] and starts from zero. *)
Definition nansum (xs : list float) : float :=
  fold_left PrimFloat.add (filter (fun x => negb (PrimFloat.is_nan x)) xs) PrimFloat.zero.

(** ** Dates and aggregation frequencies *)

Definition date_leb (a b : date) : bool :=
  match (year a ?= year b)%Z with
  | Lt => true
  | Gt => false
  | Eq => match (month a ?= month b)%Z with
          | Lt => true
          | Gt => false
          | Eq => (day a <=? day b)%Z
          end
  end.

(** The calendar-period offset aliases: the period-start aliases the
    docstrings recommend (month start ['MS'], year start ['YS']) with quarter
    start ['QS'], and the period-end aliases ['M'], ['Q'] and ['A'], written
    [ME], [QE] and [YE] here (month, quarter and year end). *)
Inductive freq : Type := MS | QS | YS | ME | QE | YE.

Definition is_leap_year (y : Z) : bool :=
  ((y mod 4 =? 0)%Z && negb (y mod 100 =? 0)%Z) || (y mod 400 =? 0)%Z.

Definition days_in_month (y m : Z) : Z :=
  if (m =? 2)%Z then (if is_leap_year y then 29 else 28)
  else if (m =? 4)%Z || (m =? 6)%Z || (m =? 9)%Z || (m =? 11)%Z then 30
  else 31.

(** [pd.Grouper(freq=...)] on a [DatetimeIndex]: the label of the bucket
    a date falls in.  The period-start aliases give left-closed bins
    labelled with their first day, the period-end aliases right-closed bins
    labelled with their last day. *)
Definition bucket (f : freq) (d : date) : date :=
  match f with
  | MS => mkDate (year d) (month d) 1
  | QS => mkDate (year d) (3 * ((month d - 1) / 3) + 1) 1
  | YS => mkDate (year d) 1 1
  | ME => mkDate (year d) (month d) (days_in_month (year d) (month d))
  | QE => let m := (3 * ((month d - 1) / 3) + 3)%Z in
          mkDate (year d) m (days_in_month (year d) m)
  | YE => mkDate (year d) 12 31
  end.

(** ** Keys: equality and order of cells used as join or group keys *)

Definition float_key_eqb (x y : float) : bool :=
  PrimFloat.eqb x y || (PrimFloat.is_nan x && PrimFloat.is_nan y).

(** Key cells match across integer and float columns; missing matches
    missing, as in [pd.merge]. *)
Definition key_eqb (a b : value) : bool :=
  match a, b with
  | VInt x, VInt y => (x =? y)%Z
  | VInt x, VFloat y => float_key_eqb (Z2float x) y
  | VFloat x, VInt y => float_key_eqb x (Z2float y)
  | VFloat x, VFloat y => float_key_eqb x y
  | VStr x, VStr y => String.eqb x y
  | VDate x, VDate y => bool_decide (x = y)
  | VNone, VNone => true
  | _, _ => false
  end.

Fixpoint keys_eqb (k1 k2 : list value) : bool :=
  match k1, k2 with
  | [], [] => true
  | a :: k1', b :: k2' => key_eqb a b && keys_eqb k1' k2'
  | _, _ => false
  end.

Definition value_rank (v : value) : Z :=
  match v with
  | VNone => 0
  | VInt _ | VFloat _ => 1
  | VStr _ => 2
  | VDate _ => 3
  end.

(** Order of key cells within one column; cells of different kinds (which
    one pandas column does not mix) are ordered by kind. *)
Definition value_leb (a b : value) : bool :=
  match a, b with
  | VInt x, VInt y => (x <=? y)%Z
  | VInt x, VFloat y => PrimFloat.leb (Z2float x) y
  | VFloat x, VInt y => PrimFloat.leb x (Z2float y)
  | VFloat x, VFloat y => PrimFloat.leb x y
  | VStr x, VStr y => String.leb x y
  | VDate x, VDate y => date_leb x y
  | _, _ => (value_rank a <=? value_rank b)%Z
  end.

Fixpoint keys_leb (k1 k2 : list value) : bool :=
  match k1, k2 with
  | [], _ => true
  | _ :: _, [] => false
  | a :: k1', b :: k2' =>
      if value_leb a b then (if value_leb b a then keys_leb k1' k2' else true)
      else false
  end.

(** Distinct elements in order of first appearance. *)
Fixpoint nub {A} (eqb : A -> A -> bool) (l : list A) : list A :=
  match l with
  | [] => []
  | x :: l' => x :: filter (fun y => negb (eqb x y)) (nub eqb l')
  end.

(** ** Data frame operations *)

Definition require_cols (df : DataFrame) (labels : list string) : result unit :=
  match missing_labels df labels with
  | [] => Ok tt
  | missing => Raise (KeyError missing)
  end.

(** [df.drop(labels, axis=1)]. *)
Definition drop_cols (labels : list string) (df : DataFrame) : result DataFrame :=
  _ ← require_cols df labels;
  Ok {| columns := filter (fun c => c ∉ labels) (columns df);
        rows := map (fun r : row => filter (fun kv => kv.1 ∉ labels) r) (rows df) |}.

(** A row survives [dropna(subset=...)] when none of the subset's cells
    is missing. *)
Definition complete_on (subset : list string) (r : row) : bool :=
  forallb (fun c => negb (isna (cell r c))) subset.

(** [df.dropna(subset=labels)]. *)
Definition dropna (subset : list string) (df : DataFrame) : result DataFrame :=
  _ ← require_cols df subset;
  Ok {| columns := columns df; rows := filter (fun r => complete_on subset r) (rows df) |}.

(** [df.dropna()]: every column counts. *)
Definition dropna_all (df : DataFrame) : result DataFrame :=
  dropna (columns df) df.

(** [df[c] = df[a] op df[b]] on float columns. *)
Definition assign_binop (op : float -> float -> float) (c a b : string)
    (df : DataFrame) : result DataFrame :=
  _ ← require_cols df [a; b];
  rs ← traverse (fun r : row =>
                   x ← as_float (cell r a);
                   y ← as_float (cell r b);
                   Ok (<[c := VFloat (op x y)]> r)) (rows df);
  Ok {| columns := if bool_decide (c ∈ columns df) then columns df else columns df ++ [c];
        rows := rs |}.

(** [df[c] = df.c.astype(int)]. *)
Definition astype_int (c : string) (df : DataFrame) : result DataFrame :=
  _ ← require_cols df [c];
  rs ← traverse (fun r : row =>
                   v ← astype_int_cell (cell r c);
                   Ok (<[c := v]> r)) (rows df);
  Ok {| columns := columns df; rows := rs |}.

(** *** [pd.merge] *)

Inductive how : Type := Inner | Left.

Definition cells (r : row) (labels : list string) : list value :=
  map (cell r) labels.

(** Key columns of the right frame that are shared with the left frame
    (same name on both sides) appear once in the result. *)
Definition shared_keys (left_on right_on : list string) : list string :=
  map fst (filter (fun p => String.eqb p.1 p.2) (zip left_on right_on)).

Definition suffixed (overlap : list string) (suffix c : string) : string :=
  if bool_decide (c ∈ overlap) then c ++ suffix else c.

(** A right-hand cell in a result column that also holds fill values:
    integer columns become float columns. *)
Definition promote (v : value) : value :=
  match v with
  | VInt z => VFloat (Z2float z)
  | _ => v
  end.

Definition pd_merge (left right : DataFrame) (h : how)
    (left_on right_on : list string) : result DataFrame :=
  _ ← require_cols left left_on;
  _ ← require_cols right right_on;
  let shared := shared_keys left_on right_on in
  let right_cols := filter (fun c => c ∉ shared) (columns right) in
  let overlap := filter (fun c => c ∈ right_cols) (columns left) in
  let lname := suffixed overlap "_x" in
  let rname := suffixed overlap "_y" in
  let matches (l : row) : list row :=
    filter (fun r => keys_eqb (cells l left_on) (cells r right_on)) (rows right) in
  let unmatched := existsb (fun l => bool_decide (matches l = [])) (rows left) in
  let widen (v : value) : value :=
    match h with
    | Left => if unmatched then promote v else v
    | Inner => v
    end in
  let left_part (l : row) : list (string * value) :=
    map (fun c => (lname c, cell l c)) (columns left) in
  let joined (l m : row) : row :=
    list_to_map (left_part l ++ map (fun c => (rname c, widen (cell m c))) right_cols) in
  let filled (l : row) : row :=
    list_to_map (left_part l ++ map (fun c => (rname c, VFloat PrimFloat.nan)) right_cols) in
  let out_rows (l : row) : list row :=
    match matches l, h with
    | [], Left => [filled l]
    | [], Inner => []
    | ms, _ => map (joined l) ms
    end in
  Ok {| columns := map lname (columns left) ++ map rname right_cols;
        rows := flat_map out_rows (rows left) |}.

(** *** [groupby(...).agg({...: np.sum})] followed by [reset_index()] *)

(** [pd.DatetimeIndex(df.report_date)] on one cell. *)
Definition datetime_index (v : value) : result (option date) :=
  match v with
  | VDate d => Ok (Some d)
  | VNone => Ok None
  | VFloat x => if PrimFloat.is_nan x then Ok None
                else Raise (TypeError "cannot convert float to datetime")
  | VInt _ => Raise (TypeError "cannot convert int to datetime")
  | VStr _ => Raise (ValueError "unparsed date string")
  end.

(** The group key of a row under [by + [pd.Grouper(freq=f)]]; [None] when
    a key cell is missing, in which case pandas leaves the row out. *)
Definition group_key (by_ : list string) (f : freq) (r : row) : result (option (list value)) :=
  d ← datetime_index (cell r "report_date");
  match d with
  | None => Ok None
  | Some d =>
      let ks := cells r by_ in
      if forallb (fun v => negb (isna v)) ks
      then Ok (Some (ks ++ [VDate (bucket f d)]))
      else Ok None
  end.

Fixpoint keyed_rows (by_ : list string) (f : freq) (rs : list row)
    : result (list (list value * row)) :=
  match rs with
  | [] => Ok []
  | r :: rs' =>
      k ← group_key by_ f r;
      ks ← keyed_rows by_ f rs';
      Ok (match k with
          | Some k => (k, r) :: ks
          | None => ks
          end)
  end.

(** The rows of the group with key [k]. *)
Definition group_of (k : list value) (keyed : list (list value * row)) : list row :=
  map snd (filter (fun kr => keys_eqb k kr.1) keyed).

(** Group keys in sorted order, each with its rows in frame order. *)
Definition groups (keyed : list (list value * row)) : list (list value * list row) :=
  map (fun k => (k, group_of k keyed))
      (sort_by keys_leb (nub keys_eqb (map fst keyed))).

(** The sum of column [c] over a group. *)
Definition group_sum (c : string) (g : list row) : result float :=
  xs ← traverse (fun r => as_float (cell r c)) g;
  Ok (nansum xs).

(** One output row of the aggregation: the key cells, then the sums. *)
Definition agg_row (key_cols sum_cols : list string) (kg : list value * list row)
    : result row :=
  sums ← traverse (fun c => x ← group_sum c kg.2; Ok (c, VFloat x)) sum_cols;
  Ok (list_to_map (zip key_cols kg.1 ++ sums)).

Definition groupby_sum (by_ : list string) (f : freq) (sum_cols : list string)
    (df : DataFrame) : result DataFrame :=
  _ ← require_cols df ("report_date" :: by_ ++ sum_cols);
  keyed ← keyed_rows by_ f (rows df);
  let key_cols := by_ ++ ["report_date"] in
  rs ← traverse (agg_row key_cols sum_cols) (groups keyed);
  Ok {| columns := key_cols ++ sum_cols; rows := rs |}.

(** ** Reading the store

    The PUDL database read through [pudl_engine] is a finite map from
    table name to the table's rows as [pd.read_sql] returns them. *)

Definition read_table (eng : gmap string DataFrame) (name : string) : result DataFrame :=
  match eng !! name with
  | Some df => Ok df
  | None => Raise (KeyError [name])
  end.

(** [sa.sql.select([tbl.c.a, tbl.c.b, ...])] read into a frame. *)
Definition read_cols (eng : gmap string DataFrame) (name : string)
    (cols : list string) : result DataFrame :=
  df ← read_table eng name;
  getitem_list df cols.

(** [report_date >= start_date] and [report_date <= end_date], each only
    when the bound is supplied; a row without a date satisfies no bound. *)
Definition in_range (start_date end_date : option date) (r : row) : bool :=
  match start_date with
  | None => true
  | Some s => match cell r "report_date" with
              | VDate d => date_leb s d
              | _ => false
              end
  end &&
  match end_date with
  | None => true
  | Some e => match cell r "report_date" with
              | VDate d => date_leb d e
              | _ => false
              end
  end.

Definition read_range (eng : gmap string DataFrame) (name : string)
    (start_date end_date : option date) : result DataFrame :=
  df ← read_table eng name;
  _ ← (match start_date, end_date with
       | None, None => Ok tt
       | _, _ => require_cols df ["report_date"]
       end);
  Ok {| columns := columns df; rows := filter (in_range start_date end_date) (rows df) |}.

(** ** outputs.py: cross-datasource outputs *)

Definition plants_utils_eia (pudl_engine : gmap string DataFrame) : result DataFrame :=
  plants_eia860 ← read_cols pudl_engine "plants_eia860"
                    ["report_date"; "plant_id"; "plant_name"; "operator_id"];
  utils_eia860 ← read_cols pudl_engine "utilities_eia860"
                   ["report_date"; "operator_id"; "operator_name"];
  out_df ← pd_merge plants_eia860 utils_eia860 Left
             ["report_date"; "operator_id"] ["report_date"; "operator_id"];
  utils_eia ← read_cols pudl_engine "utilities_eia" ["operator_id"; "util_id_pudl"];
  out_df ← pd_merge out_df utils_eia Left ["operator_id"] ["operator_id"];
  plants_eia ← read_cols pudl_engine "plants_eia" ["plant_id"; "plant_id_pudl"];
  out_df ← pd_merge out_df plants_eia Left ["plant_id"] ["plant_id"];
  out_df ← dropna_all out_df;
  out_df ← astype_int "plant_id_pudl" out_df;
  astype_int "util_id_pudl" out_df.

Definition plants_utils_ferc1 (pudl_engine : gmap string DataFrame) : result DataFrame :=
  utils_ferc ← read_table pudl_engine "utilities_ferc";
  plants_ferc ← read_table pudl_engine "plants_ferc";
  pd_merge plants_ferc utils_ferc Inner ["respondent_id"] ["respondent_id"].

(** ** outputs.py: EIA 860 outputs *)

Definition utilities_eia860 (pudl_engine : gmap string DataFrame) : result DataFrame :=
  utils_eia860_df ← read_table pudl_engine "utilities_eia860";
  utils_eia_df ← read_cols pudl_engine "utilities_eia" ["operator_id"; "util_id_pudl"];
  out_df ← pd_merge utils_eia860_df utils_eia_df Left ["operator_id"] ["operator_id"];
  out_df ← drop_cols ["id"] out_df;
  let first_cols := ["report_year"; "operator_id"; "util_id_pudl"; "operator_name"] in
  organize_cols out_df first_cols.

Definition plants_eia860 (pudl_engine : gmap string DataFrame) : result DataFrame :=
  plants_eia860_df ← read_table pudl_engine "plants_eia860";
  plants_eia_df ← read_cols pudl_engine "plants_eia" ["plant_id"; "plant_id_pudl"];
  out_df ← pd_merge plants_eia860_df plants_eia_df Left ["plant_id"] ["plant_id"];
  utils_eia_df ← read_cols pudl_engine "utilities_eia" ["operator_id"; "util_id_pudl"];
  out_df ← pd_merge out_df utils_eia_df Left ["operator_id"] ["operator_id"];
  out_df ← drop_cols ["id"] out_df;
  let first_cols := ["report_year"; "operator_id"; "util_id_pudl"; "operator_name";
                     "plant_id"; "plant_id_pudl"; "plant_name"] in
  organize_cols out_df first_cols.

(** ** outputs.py: FERC Form 1 outputs *)

Definition plants_steam_ferc1 (pudl_engine : gmap string DataFrame) : result DataFrame :=
  steam_df ← read_table pudl_engine "plants_steam_ferc1";
  pu_ferc ← plants_utils_ferc1 pudl_engine;
  out_df ← pd_merge steam_df pu_ferc Inner
             ["respondent_id"; "plant_name"] ["respondent_id"; "plant_name"];
  let first_cols := ["report_year"; "respondent_id"; "util_id_pudl"; "respondent_name";
                     "plant_id_pudl"; "plant_name"] in
  organize_cols out_df first_cols.

(** ** outputs.py: EIA 923 outputs

    [analysis.merge_on_date_year] belongs to another module of the package;
    the functions below take it as a parameter. *)

Section EIA923.

Variable merge_on_date_year : DataFrame -> DataFrame -> list string -> result DataFrame.

(** The [if freq is not None:] block of [generation_fuel_eia923]. *)
Definition generation_fuel_aggregate (f : freq) (gf_df : DataFrame) : result DataFrame :=
  gf_df ← groupby_sum ["plant_id"; "aer_fuel_category"] f
            ["fuel_consumed_total"; "fuel_consumed_for_electricity";
             "fuel_consumed_total_mmbtu"; "fuel_consumed_for_electricity_mmbtu";
             "net_generation_mwh"] gf_df;
  assign_binop PrimFloat.div "fuel_mmbtu_per_unit"
    "fuel_consumed_total_mmbtu" "fuel_consumed_total" gf_df.

Definition generation_fuel_eia923 (pudl_engine : gmap string DataFrame)
    (freq_ : option freq) (start_date end_date : option date) : result DataFrame :=
  gf_df ← read_range pudl_engine "generation_fuel_eia923" start_date end_date;
  gf_df ← drop_cols ["id"] gf_df;
  gf_df ← (match freq_ with
           | Some f => generation_fuel_aggregate f gf_df
           | None => Ok gf_df
           end);
  pu_eia ← plants_utils_eia pudl_engine;
  out_df ← merge_on_date_year gf_df pu_eia ["plant_id"];
  out_df ← dropna ["plant_id"; "plant_id_pudl"; "plant_name"; "operator_id";
                   "util_id_pudl"; "operator_name"] out_df;
  let first_cols := ["report_date"; "plant_id"; "plant_id_pudl"; "plant_name";
                     "operator_id"; "util_id_pudl"; "operator_name"] in
  out_df ← organize_cols out_df first_cols;
  out_df ← astype_int "plant_id" out_df;
  out_df ← astype_int "plant_id_pudl" out_df;
  out_df ← astype_int "operator_id" out_df;
  astype_int "util_id_pudl" out_df.

(** The totals [fuel_receipts_costs_eia923] computes for every record. *)
Definition frc_totals (frc_df : DataFrame) : result DataFrame :=
  frc_df ← assign_binop PrimFloat.mul "total_heat_content_mmbtu"
             "heat_content_mmbtu_per_unit" "fuel_quantity" frc_df;
  assign_binop PrimFloat.mul "total_fuel_cost"
    "total_heat_content_mmbtu" "fuel_cost_per_mmbtu" frc_df.

(** The [if freq is not None:] block of [fuel_receipts_costs_eia923]. *)
Definition frc_aggregate (f : freq) (frc_df : DataFrame) : result DataFrame :=
  frc_df ← assign_binop PrimFloat.mul "total_ash_content"
             "ash_content_pct" "fuel_quantity" frc_df;
  frc_df ← assign_binop PrimFloat.mul "total_sulfur_content"
             "sulfur_content_pct" "fuel_quantity" frc_df;
  frc_df ← assign_binop PrimFloat.mul "total_mercury_content"
             "mercury_content_ppm" "fuel_quantity" frc_df;
  frc_df ← groupby_sum ["plant_id"; "energy_source_simple"] f
             ["fuel_quantity"; "total_heat_content_mmbtu"; "total_fuel_cost";
              "total_sulfur_content"; "total_ash_content"; "total_mercury_content"]
             frc_df;
  frc_df ← assign_binop PrimFloat.div "fuel_cost_per_mmbtu"
             "total_fuel_cost" "total_heat_content_mmbtu" frc_df;
  frc_df ← assign_binop PrimFloat.div "heat_content_mmbtu_per_unit"
             "total_heat_content_mmbtu" "fuel_quantity" frc_df;
  frc_df ← assign_binop PrimFloat.div "sulfur_content_pct"
             "total_sulfur_content" "fuel_quantity" frc_df;
  frc_df ← assign_binop PrimFloat.div "ash_content_pct"
             "total_ash_content" "fuel_quantity" frc_df;
  frc_df ← assign_binop PrimFloat.div "mercury_content_ppm"
             "total_mercury_content" "fuel_quantity" frc_df;
  drop_cols ["total_ash_content"; "total_sulfur_content"; "total_mercury_content"] frc_df.

Definition fuel_receipts_costs_eia923 (pudl_engine : gmap string DataFrame)
    (freq_ : option freq) (start_date end_date : option date) : result DataFrame :=
  cmi_df ← read_table pudl_engine "coalmine_info_eia923";
  frc_df ← read_range pudl_engine "fuel_receipts_costs_eia923" start_date end_date;
  frc_df ← pd_merge frc_df cmi_df Left ["coalmine_id"] ["id"];
  frc_df ← drop_cols ["fuel_receipt_id"; "coalmine_id"; "id"] frc_df;
  frc_df ← frc_totals frc_df;
  frc_df ← (match freq_ with
            | Some f => frc_aggregate f frc_df
            | None => Ok frc_df
            end);
  pu_eia ← plants_utils_eia pudl_engine;
  out_df ← merge_on_date_year frc_df pu_eia ["plant_id"];
  out_df ← dropna ["operator_id"; "operator_name"] out_df;
  out_df ← (match freq_ with
            | None => dropna ["fuel_group"] out_df
            | Some _ => Ok out_df
            end);
  let first_cols := ["report_date"; "plant_id"; "plant_id_pudl"; "plant_name";
                     "operator_id"; "util_id_pudl"; "operator_name"] in
  out_df ← organize_cols out_df first_cols;
  out_df ← astype_int "plant_id" out_df;
  out_df ← astype_int "plant_id_pudl" out_df;
  out_df ← astype_int "operator_id" out_df;
  astype_int "util_id_pudl" out_df.

(** The total heat content [boiler_fuel_eia923] computes for every record. *)
Definition boiler_fuel_totals (bf_df : DataFrame) : result DataFrame :=
  assign_binop PrimFloat.mul "total_heat_content_mmbtu"
    "fuel_qty_consumed" "fuel_mmbtu_per_unit" bf_df.

(** The [if freq is not None:] block of [boiler_fuel_eia923]. *)
Definition boiler_fuel_aggregate (f : freq) (bf_df : DataFrame) : result DataFrame :=
  bf_df ← assign_binop PrimFloat.mul "total_sulfur_content"
            "fuel_qty_consumed" "sulfur_content_pct" bf_df;
  bf_df ← assign_binop PrimFloat.mul "total_ash_content"
            "fuel_qty_consumed" "ash_content_pct" bf_df;
  bf_df ← groupby_sum ["plant_id"; "boiler_id"; "fuel_type_simple"] f
            ["total_heat_content_mmbtu"; "fuel_qty_consumed";
             "total_sulfur_content"; "total_ash_content"] bf_df;
  bf_df ← assign_binop PrimFloat.div "fuel_mmbtu_per_unit"
            "total_heat_content_mmbtu" "fuel_qty_consumed" bf_df;
  bf_df ← assign_binop PrimFloat.div "sulfur_content_pct"
            "total_sulfur_content" "fuel_qty_consumed" bf_df;
  bf_df ← assign_binop PrimFloat.div "ash_content_pct"
            "total_ash_content" "fuel_qty_consumed" bf_df;
  drop_cols ["total_ash_content"; "total_sulfur_content"] bf_df.

Definition boiler_fuel_eia923 (pudl_engine : gmap string DataFrame)
    (freq_ : option freq) (start_date end_date : option date) : result DataFrame :=
  bf_df ← read_range pudl_engine "boiler_fuel_eia923" start_date end_date;
  bf_df ← boiler_fuel_totals bf_df;
  bf_df ← (match freq_ with
           | Some f => boiler_fuel_aggregate f bf_df
           | None => Ok bf_df
           end);
  pu_eia ← plants_utils_eia pudl_engine;
  out_df ← merge_on_date_year bf_df pu_eia ["plant_id"];
  out_df ← (match freq_ with
            | None => drop_cols ["id"] out_df
            | Some _ => Ok out_df
            end);
  out_df ← dropna ["plant_id"; "plant_id_pudl"; "operator_id"; "util_id_pudl";
                   "boiler_id"] out_df;
  let first_cols := ["report_date"; "plant_id"; "plant_id_pudl"; "plant_name";
                     "operator_id"; "util_id_pudl"; "operator_name"; "boiler_id"] in
  out_df ← organize_cols out_df first_cols;
  out_df ← astype_int "operator_id" out_df;
  out_df ← astype_int "util_id_pudl" out_df;
  astype_int "plant_id_pudl" out_df.

Definition generation_eia923 (pudl_engine : gmap string DataFrame)
    (freq_ : option freq) (start_date end_date : option date) : result DataFrame :=
  g_df ← read_range pudl_engine "generation_eia923" start_date end_date;
  g_df ← (match freq_ with
          | Some f => groupby_sum ["plant_id"; "generator_id"] f ["net_generation_mwh"] g_df
          | None => Ok g_df
          end);
  pu_eia ← plants_utils_eia pudl_engine;
  out_df ← merge_on_date_year g_df pu_eia ["plant_id"];
  out_df ← (match freq_ with
            | None => drop_cols ["id"] out_df
            | Some _ => Ok out_df
            end);
  out_df ← dropna ["plant_id"; "plant_id_pudl"; "operator_id"; "util_id_pudl";
                   "generator_id"] out_df;
  let first_cols := ["report_date"; "plant_id"; "plant_id_pudl"; "plant_name";
                     "operator_id"; "util_id_pudl"; "operator_name"; "generator_id"] in
  out_df ← organize_cols out_df first_cols;
  out_df ← astype_int "operator_id" out_df;
  out_df ← astype_int "util_id_pudl" out_df;
  astype_int "plant_id_pudl" out_df.

End EIA923.

(** The calendar year of a row's [report_date]. *)
Definition report_year_cell (r : row) : value :=
  match cell r "report_date" with
  | VDate d => VInt (year d)
  | _ => VNone
  end.

(** The frame with a [report_year] column derived from [report_date]. *)
Definition with_report_year (df : DataFrame) : DataFrame :=
  {| columns := columns df ++ ["report_year"];
     rows := map (fun r : row => <["report_year" := report_year_cell r]> r) (rows df) |}.

(** Modelled from the spec: [analysis.merge_on_date_year], which is not
    part of the two modules at hand.  It merges on the entity key and the
    calendar year, independent of day and month precision, and keeps every
    row of the fact table (a left join). *)
Definition merge_on_date_year_spec (df_date df_year : DataFrame) (on : list string)
    : result DataFrame :=
  _ ← require_cols df_date ["report_date"];
  _ ← require_cols df_year ["report_date"];
  df_year ← drop_cols ["report_date"] (with_report_year df_year);
  out ← pd_merge (with_report_year df_date) df_year Left
          (on ++ ["report_year"]) (on ++ ["report_year"]);
  drop_cols ["report_year"] out.

(** ** io_managers.py: the store

    The SQLite database is a record of its committed table contents, of
    what its two foreign-key pragmas answer, and of what it answers to an
    insert. *)

(** One row of [PRAGMA foreign_key_list(table)]: one per field of each
    foreign-key constraint of the child table. *)
Record fk_list_row : Type := mkFkListRow {
  fl_id : Z;
  fl_seq : Z;
  fl_table : string;
  fl_from : string;
  fl_to : string
}.

(** One row of [PRAGMA foreign_key_check]: one per violating row and
    violated constraint. *)
Record fk_check_row : Type := mkFkCheckRow {
  fc_table : string;
  fc_rowid : Z;
  fc_parent : string;
  fc_fkid : Z
}.

(** [insert_rows t stored df] is the answer of the engine to the insert
    of the rows of [df] into table [t] holding [stored]: the new contents of
    the table, or the error with which the engine refuses the insert (a
    violated [NOT NULL], key or [CHECK] constraint, a column the table does
    not have, ...). *)
Record Database : Type := mkDatabase {
  db_tables : gmap string (list row);
  foreign_key_list : string -> list fk_list_row;
  foreign_key_check : list fk_check_row;
  insert_rows : string -> list row -> DataFrame -> result (list row)
}.

(** One row of the frame [_get_fk_list] returns. *)
Record table_fk : Type := mkTableFk {
  fkid : Z;
  parent : string;
  fk : string;
  table : string
}.

#[global] Instance table_fk_eq_dec : EqDecision table_fk.
Proof. solve_decision. Defined.

(** The descriptor made of the referenced fields of every pragma row of
    the frame whose parent is [p]. *)
Definition descriptor_of (table_fks : list fk_list_row) (p : string) : string :=
  "(" ++ String.concat ", "
           (map fl_to (filter (fun r' => String.eqb (fl_table r') p) table_fks))
      ++ ")".

(** [groupby("table")["to"].transform(...)]: the descriptor a pragma row
    receives, built from every row of the frame with the same parent. *)
Definition fk_descriptor (table_fks : list fk_list_row) (r : fk_list_row) : string :=
  descriptor_of table_fks (fl_table r).

Definition _get_fk_list (db : Database) (table_ : string) : list table_fk :=
  let table_fks := foreign_key_list db table_ in
  let with_fk := map (fun r => (fl_id r, fl_table r, fk_descriptor table_fks r)) table_fks in
  let deduped := nub (fun a b : Z * string * string => bool_decide (a = b)) with_fk in
  map (fun r : Z * string * string =>
         {| fkid := r.1.1; parent := r.1.2; fk := r.2; table := table_ |}) deduped.

(** A violation with the descriptor the left merge found for it. *)
Definition merge_key_eqb (e : fk_check_row) (k : table_fk) : bool :=
  String.eqb (fc_parent e) (parent k) && (fc_fkid e =? fkid k)%Z
  && String.eqb (fc_table e) (table k).

Definition same_merge_key (a b : table_fk) : bool :=
  String.eqb (parent a) (parent b) && (fkid a =? fkid b)%Z
  && String.eqb (table a) (table b).

(** [validate="m:1"]: the merge keys are unique in the right frame. *)
Fixpoint right_unique (ks : list table_fk) : bool :=
  match ks with
  | [] => true
  | k :: ks' => negb (existsb (same_merge_key k) ks') && right_unique ks'
  end.

Definition merge_left_m1 (fk_errors : list fk_check_row) (table_foreign_keys : list table_fk)
    : result (list (fk_check_row * option string)) :=
  if right_unique table_foreign_keys
  then Ok (map (fun e => (e, fk <$> head (filter (merge_key_eqb e) table_foreign_keys)))
               fk_errors)
  else Raise (MergeError "Merge keys are not unique in right dataset; not a many-to-one merge").

Definition triple_leb (a b : string * string * string) : bool :=
  match String.compare a.1.1 b.1.1 with
  | Lt => true
  | Gt => false
  | Eq => match String.compare a.1.2 b.1.2 with
          | Lt => true
          | Gt => false
          | Eq => String.leb a.2 b.2
          end
  end.

(** The group key of a merged violation; none when the descriptor is
    missing. *)
Definition violation_key (m : fk_check_row * option string) : option (string * string * string) :=
  d ← m.2; Some (fc_table m.1, fc_parent m.1, d).

(** The keys of [groupby(["table", "parent", "fk"])], sorted. *)
Definition violation_keys (merged : list (fk_check_row * option string))
    : list (string * string * string) :=
  sort_by triple_leb (nub (fun a b => bool_decide (a = b)) (omap violation_key merged)).

Definition violation_rowids (merged : list (fk_check_row * option string))
    (k : string * string * string) : list Z :=
  map (fun m => fc_rowid m.1)
      (filter (fun m => bool_decide (violation_key m = Some k)) merged).

Definition check_foreign_keys (db : Database) : result unit :=
  let fk_errors := foreign_key_check db in
  match fk_errors with
  | [] => Ok tt
  | _ :: _ =>
      let tables_with_fk_errors := nub String.eqb (map fc_table fk_errors) in
      let table_foreign_keys := flat_map (_get_fk_list db) tables_with_fk_errors in
      fk_errors_with_keys ← merge_left_m1 fk_errors table_foreign_keys;
      let errors :=
        map (fun k : string * string * string =>
               {| child_table := k.1.1; parent_table := k.1.2; foreign_key := k.2;
                  rowids := violation_rowids fk_errors_with_keys k |})
            (violation_keys fk_errors_with_keys) in
      Raise (ForeignKeyErrors errors)
  end.

(** ** io_managers.py: the loader *)

(** What the loader reads of a [sa.Table] of the metadata: its columns and
    which of them reject [NULL]. *)
Record Column : Type := mkColumn { c_name : string; c_nullable : bool }.

Record Table : Type := mkTable { t_name : string; t_columns : list Column }.

Inductive log_level : Type := WARNING | INFO.

Record log_record : Type := mkLog { levelname : log_level; message : string }.

(** The manager with what its methods change: the database, and the
    records its logger has emitted.  The connections of the source come from
    [engine.connect()] and no transaction is begun on them, so each statement
    is committed when it returns: the [db] field is the committed state. *)
Record SQLiteIOManager : Type := mkManager {
  md_tables : gmap string Table;
  db : Database;
  log : list log_record
}.

Record Context : Type := mkContext {
  has_asset_key : bool;
  asset_key_identifier : string;
  identifier : string
}.

Definition _get_table_name (context : Context) : string :=
  if has_asset_key context then asset_key_identifier context else identifier context.

Definition set_tables (tbls : gmap string (list row)) (self : SQLiteIOManager) : SQLiteIOManager :=
  {| md_tables := md_tables self;
     db := {| db_tables := tbls;
              foreign_key_list := foreign_key_list (db self);
              foreign_key_check := foreign_key_check (db self);
              insert_rows := insert_rows (db self) |};
     log := log self |}.

Definition emit (r : log_record) (self : SQLiteIOManager) : SQLiteIOManager :=
  {| md_tables := md_tables self; db := db self; log := log self ++ [r] |}.

Definition _get_sqlalchemy_table (self : SQLiteIOManager) (table_name : string)
    : option Table * SQLiteIOManager :=
  match md_tables self !! table_name with
  | None =>
      (None,
       emit {| levelname := WARNING;
               message := "None not found in database metadata. Dtypes of returned DataFrame might be incorrect." |}
            self)
  | Some sa_table => (Some sa_table, self)
  end.

(** [con.execute(sa_table.delete())]. *)
Definition execute_delete (table_name : string) (self : SQLiteIOManager)
    : result unit * SQLiteIOManager :=
  match db_tables (db self) !! table_name with
  | None => (Raise (OperationalError "no such table"), self)
  | Some _ => (Ok tt, set_tables (<[table_name := []]> (db_tables (db self))) self)
  end.

(** [df.to_sql(table_name, con, if_exists="append", ...)]: pandas inserts
    the rows in a transaction of its own, all of them or none; whether the
    insert goes through, and what is stored, is the engine's answer.  The
    [dtype] argument built from [sa_table] matters only when [to_sql]
    creates the table. *)
Definition to_sql_append (sa_table : Table) (table_name : string) (df : DataFrame)
    (self : SQLiteIOManager) : result unit * SQLiteIOManager :=
  match insert_rows (db self) table_name
          (default [] (db_tables (db self) !! table_name)) df with
  | Ok stored =>
      (Ok tt, set_tables (<[table_name := stored]> (db_tables (db self))) self)
  | Raise e => (Raise e, self)
  end.

(** [df.to_sql(table_name, con, if_exists="replace", ...)]: the table is
    dropped and created anew from the frame. *)
Definition to_sql_replace (table_name : string) (df : DataFrame)
    (self : SQLiteIOManager) : result unit * SQLiteIOManager :=
  (Ok tt, set_tables (<[table_name := rows df]> (db_tables (db self))) self).

Definition _handle_pandas_output (self : SQLiteIOManager) (context : Context)
    (df : DataFrame) : result unit * SQLiteIOManager :=
  let table_name := _get_table_name context in
  let '(sa_table, self) := _get_sqlalchemy_table self table_name in
  match sa_table with
  | None => to_sql_replace table_name df self
  | Some sa_table =>
      match execute_delete table_name self with
      | (Ok _, self) => to_sql_append sa_table table_name df self
      | (Raise e, self) => (Raise e, self)
      end
  end.

(** What a reader of the database sees in a table. *)
Definition table_contents (self : SQLiteIOManager) (table_name : string) : option (list row) :=
  db_tables (db self) !! table_name.

(** ** Vocabulary of the statements about the foreign-key check *)

(** The violation names a constraint that the child table declares: its
    constraint id and parent occur in the child's [foreign_key_list]. *)
Definition declared (db : Database) (e : fk_check_row) : bool :=
  existsb (fun r => (fl_id r =? fc_fkid e)%Z && String.eqb (fl_table r) (fc_parent e))
          (foreign_key_list db (fc_table e)).

(** The two pragmas agree: every reported violation is of a declared
    constraint (SQLite reports as [fkid] the id [foreign_key_list] shows). *)
Definition pragmas_consistent (db : Database) : bool :=
  forallb (declared db) (foreign_key_check db).

(** The group a violation falls in: child, parent and descriptor. *)
Definition group_of_violation (db : Database) (e : fk_check_row) : string * string * string :=
  (fc_table e, fc_parent e, descriptor_of (foreign_key_list db (fc_table e)) (fc_parent e)).

Definition error_group (err : ForeignKeyError) : string * string * string :=
  (child_table err, parent_table err, foreign_key err).

Definition merge_key (k : table_fk) : string * Z * string :=
  (parent k, fkid k, table k).

(** What the check raises on a store with consistent pragmas. *)
Definition expected_errors (db : Database) : list ForeignKeyError :=
  map (fun k : string * string * string =>
         {| child_table := k.1.1; parent_table := k.1.2; foreign_key := k.2;
            rowids := map fc_rowid
                        (filter (fun e => group_of_violation db e = k)
                                (foreign_key_check db)) |})
      (sort_by triple_leb
         (nub (fun a b => bool_decide (a = b))
              (map (group_of_violation db) (foreign_key_check db)))).

(** ** Vocabulary of the statements about aggregation *)

(** The float read from a cell that takes part in arithmetic. *)
Definition float_of (v : value) : float :=
  match as_float v with
  | Ok x => x
  | Raise _ => PrimFloat.nan
  end.

(** The group key of a row, when it has one. *)
Definition row_key (by_ : list string) (f : freq) (r : row) : option (list value) :=
  match group_key by_ f r with
  | Ok k => k
  | Raise _ => None
  end.

(** The keys of the buckets of a list of rows, in output order. *)
Definition bucket_keys (by_ : list string) (f : freq) (rs : list row) : list (list value) :=
  sort_by keys_leb (nub keys_eqb (omap (row_key by_ f) rs)).

(** Whether a row falls in the bucket with key [k]. *)
Definition in_bucket (by_ : list string) (f : freq) (k : list value) (r : row) : bool :=
  match row_key by_ f r with
  | Some k' => keys_eqb k k'
  | None => false
  end.

(** The rows that fall in the bucket with key [k]. *)
Definition bucket_rows (by_ : list string) (f : freq) (k : list value) (rs : list row)
    : list row :=
  filter (fun r => in_bucket by_ f k r) rs.

(** Sum of a column over the rows of a bucket. *)
Definition col_sum (c : string) (g : list row) : float :=
  nansum (map (fun r => float_of (cell r c)) g).

(** Sum over a bucket of the per-record product of two columns. *)
Definition product_sum (a b : string) (g : list row) : float :=
  nansum (map (fun r => PrimFloat.mul (float_of (cell r a)) (float_of (cell r b))) g).

(** ** Vocabulary of the statements about binary64 values *)

Definition is_zero_float (x : float) : bool :=
  match PrimFloat.classify x with
  | PZero | NZero => true
  | _ => false
  end.

Definition is_nan_float (x : float) : bool :=
  match PrimFloat.classify x with
  | NaN => true
  | _ => false
  end.

Definition is_infinite_float (x : float) : bool :=
  match PrimFloat.classify x with
  | PInf | NInf => true
  | _ => false
  end.


(** A ratio cell with numerator sum [n] and denominator sum [d]: it holds
    the binary64 quotient, which at a zero denominator is missing when the
    numerator is zero or [nan] too, and infinite otherwise. *)
Definition ratio_cell (v : value) (n d : float) : Prop :=
  v = VFloat (PrimFloat.div n d) /\
  (is_zero_float d = true ->
   isna v = (is_nan_float n || is_zero_float n) /\
   is_infinite_float (PrimFloat.div n d) = negb (is_nan_float n || is_zero_float n)).

(** The columns [cs] exist in the frame and hold numbers (or nothing) in
    every row. *)
Definition numeric_on (cs : list string) (df : DataFrame) : Prop :=
  (forall c, c ∈ cs -> c ∈ columns df) /\
  Forall (fun r : row => forall c, c ∈ cs -> exists x, as_float (cell r c) = Ok x) (rows df).

(** The frame has the key columns [by_] and a [report_date] column that
    holds dates (or nothing) in every row. *)
Definition dated (by_ : list string) (df : DataFrame) : Prop :=
  (forall c, c ∈ "report_date" :: by_ -> c ∈ columns df) /\
  Forall (fun r : row => exists d, datetime_index (cell r "report_date") = Ok d) (rows df).

(** Boolean forms of [numeric_on] and [dated], for concrete frames. *)
Definition numericb (cs : list string) (df : DataFrame) : bool :=
  forallb (fun c => bool_decide (c ∈ columns df)) cs
  && forallb (fun r : row => forallb (fun c => is_ok (as_float (cell r c))) cs) (rows df).

Definition datedb (by_ : list string) (df : DataFrame) : bool :=
  forallb (fun c => bool_decide (c ∈ columns df)) ("report_date" :: by_)
  && forallb (fun r : row => is_ok (datetime_index (cell r "report_date"))) (rows df).


(** ** Vocabulary of the statements about identifiers *)

(** The cell of column [c] is not missing. *)
Definition present (c : string) (r : row) : Prop := isna (cell r c) = false.

(** The cell of column [c] is an integer. *)
Definition int_at (c : string) (r : row) : Prop := exists z, cell r c = VInt z.

(** ** Sample frames *)

Definition frc_columns : list string :=
  ["plant_id"; "report_date"; "energy_source_simple"; "fuel_group"; "fuel_quantity";
   "heat_content_mmbtu_per_unit"; "fuel_cost_per_mmbtu"; "sulfur_content_pct";
   "ash_content_pct"; "mercury_content_ppm"].

Definition frc_record (plant : Z) (d : date) (q heat cost sulfur ash mercury : float) : row :=
  list_to_map
    [("plant_id", VInt plant); ("report_date", VDate d);
     ("energy_source_simple", VStr "coal"); ("fuel_group", VStr "Coal");
     ("fuel_quantity", VFloat q); ("heat_content_mmbtu_per_unit", VFloat heat);
     ("fuel_cost_per_mmbtu", VFloat cost); ("sulfur_content_pct", VFloat sulfur);
     ("ash_content_pct", VFloat ash); ("mercury_content_ppm", VFloat mercury)].


(** Two deliveries in one month: quantities 2 and 6, sulfur 1 and 3. *)
Definition frc_two_deliveries : DataFrame :=
  {| columns := frc_columns;
     rows := [frc_record 3 (mkDate 2016 3 1) 2 20 2 1 10 0;
              frc_record 3 (mkDate 2016 3 20) 6 22 4 3 8 0]%float |}.

(** Two deliveries of equal quantity. *)
Definition frc_equal_quantities : DataFrame :=
  {| columns := frc_columns;
     rows := [frc_record 3 (mkDate 2016 3 1) 4 20 2 1 10 0;
              frc_record 3 (mkDate 2016 3 20) 4 22 4 3 8 0]%float |}.

Definition gf_columns : list string :=
  ["plant_id"; "report_date"; "aer_fuel_category"; "fuel_consumed_total";
   "fuel_consumed_for_electricity"; "fuel_consumed_total_mmbtu";
   "fuel_consumed_for_electricity_mmbtu"; "net_generation_mwh"].

Definition gf_record (plant : Z) (d : date) (units units_el mmbtu mmbtu_el mwh : float) : row :=
  list_to_map
    [("plant_id", VInt plant); ("report_date", VDate d);
     ("aer_fuel_category", VStr "coal"); ("fuel_consumed_total", VFloat units);
     ("fuel_consumed_for_electricity", VFloat units_el);
     ("fuel_consumed_total_mmbtu", VFloat mmbtu);
     ("fuel_consumed_for_electricity_mmbtu", VFloat mmbtu_el);
     ("net_generation_mwh", VFloat mwh)].

(** A month that reports heat but no fuel units. *)
Definition gf_heat_without_units : DataFrame :=
  {| columns := gf_columns;
     rows := [gf_record 3 (mkDate 2016 3 1) 0 0 5 5 1]%float |}.

Definition bf_columns : list string :=
  ["plant_id"; "boiler_id"; "fuel_type_simple"; "report_date"; "fuel_qty_consumed";
   "fuel_mmbtu_per_unit"; "sulfur_content_pct"; "ash_content_pct"].

Definition bf_record (plant : Z) (d : date) (q heat sulfur ash : float) : row :=
  list_to_map
    [("plant_id", VInt plant); ("boiler_id", VStr "B1"); ("fuel_type_simple", VStr "coal");
     ("report_date", VDate d); ("fuel_qty_consumed", VFloat q);
     ("fuel_mmbtu_per_unit", VFloat heat); ("sulfur_content_pct", VFloat sulfur);
     ("ash_content_pct", VFloat ash)].

Definition bf_two_months : DataFrame :=
  {| columns := bf_columns;
     rows := [bf_record 3 (mkDate 2016 3 1) 2 20 1 10;
              bf_record 3 (mkDate 2016 4 1) 6 22 3 8]%float |}.

(** The cells of one column, top to bottom. *)
Definition column_cells (c : string) (df : DataFrame) : list value :=
  map (fun r : row => cell r c) (rows df).

(** The frame of the column-ordering example: data columns D and C, lead
    columns A and B. *)
Definition abcd_frame : DataFrame :=
  {| columns := ["D"; "A"; "C"; "B"];
     rows := [list_to_map [("D", VInt 4); ("A", VInt 1); ("C", VStr "c"); ("B", VInt 2)]] |}.

(** A child table with two constraints on the same parent: the owner and
    the operator of a generator both reference [utilities]. *)
Definition ownership_db : Database :=
  {| db_tables := ∅;
     foreign_key_list := fun t =>
       if String.eqb t "ownership"
       then [mkFkListRow 0 0 "utilities" "owner_id" "utility_id";
             mkFkListRow 1 0 "utilities" "operator_id" "utility_id"]
       else [];
     foreign_key_check :=
       [mkFkCheckRow "ownership" 4 "utilities" 0;
        mkFkCheckRow "ownership" 9 "utilities" 1];
     insert_rows := fun _ _ _ => Raise (OperationalError "no such table") |}.

(** A child table with a two-field constraint on [plants] and a one-field
    constraint on [utilities]; rows 3 and 5 violate the first, row 5 the
    second. *)
Definition generators_db : Database :=
  {| db_tables := ∅;
     foreign_key_list := fun t =>
       if String.eqb t "generators"
       then [mkFkListRow 0 0 "plants" "plant_id" "plant_id";
             mkFkListRow 0 1 "plants" "report_year" "report_year";
             mkFkListRow 1 0 "utilities" "utility_id" "utility_id"]
       else [];
     foreign_key_check :=
       [mkFkCheckRow "generators" 3 "plants" 0;
        mkFkCheckRow "generators" 5 "utilities" 1;
        mkFkCheckRow "generators" 5 "plants" 0];
     insert_rows := fun _ _ _ => Raise (OperationalError "no such table") |}.

(** A manager whose metadata registers [plants] with a [NOT NULL] plant id
    and no other constraint, and whose database holds one plant. *)
Definition plants_table : Table :=
  {| t_name := "plants";
     t_columns := [mkColumn "plant_id" false; mkColumn "plant_name" true] |}.

(** The answers of a database whose tables were created from [tables] and
    declare no constraint but [NOT NULL] (no key, no [UNIQUE], no [CHECK]):
    a frame with a column the table does not have is refused with
    [OperationalError], a row without a value in a [NOT NULL] column with
    [IntegrityError], and otherwise the rows are added. *)
Definition insert_not_null (tables : gmap string Table) (table_name : string)
    (stored : list row) (df : DataFrame) : result (list row) :=
  match tables !! table_name with
  | None => Raise (OperationalError "no such table")
  | Some sa_table =>
      if negb (forallb (fun c => bool_decide (c ∈ map c_name (t_columns sa_table)))
                       (columns df))
      then Raise (OperationalError "no such column")
      else if forallb (fun r : row =>
                         forallb (fun c => c_nullable c || negb (isna (cell r (c_name c))))
                                 (t_columns sa_table))
                      (rows df)
      then Ok (stored ++ rows df)
      else Raise (IntegrityError "constraint failed")
  end.

Definition plant_row (id : value) (name : string) : row :=
  list_to_map [("plant_id", id); ("plant_name", VStr name)].

Definition plants_manager : SQLiteIOManager :=
  {| md_tables := {["plants" := plants_table]};
     db := {| db_tables := {["plants" := [plant_row (VInt 1) "Barry"]]};
              foreign_key_list := fun _ => [];
              foreign_key_check := [];
              insert_rows := insert_not_null {["plants" := plants_table]} |};
     log := [] |}.

Definition plants_context : Context :=
  {| has_asset_key := true; asset_key_identifier := "plants"; identifier := "" |}.

Definition analysis_context : Context :=
  {| has_asset_key := true; asset_key_identifier := "analysis"; identifier := "" |}.

(** Two plants, the second without its key. *)
Definition plants_missing_key : DataFrame :=
  {| columns := ["plant_id"; "plant_name"];
     rows := [plant_row (VInt 2) "Gorgas"; plant_row (VFloat PrimFloat.nan) "Gaston"] |}.

Definition plants_complete : DataFrame :=
  {| columns := ["plant_id"; "plant_name"];
     rows := [plant_row (VInt 2) "Gorgas"; plant_row (VInt 3) "Gaston"] |}.

(** A small PUDL database.  Plant 3 (Barry, operated by utility 195) is
    known to the glue tables; plant 7 and utility 999 report to EIA but have
    no PUDL identifier. *)
Definition frame_of (cols : list string) (recs : list (list value)) : DataFrame :=
  {| columns := cols; rows := map (fun vs => list_to_map (zip cols vs)) recs |}.

Definition jan_2016 : date := mkDate 2016 1 1.

Definition sample_engine : gmap string DataFrame :=
  list_to_map
    [("plants_eia860",
      frame_of ["id"; "report_date"; "plant_id"; "plant_name"; "operator_id"]
        [[VInt 1; VDate jan_2016; VInt 3; VStr "Barry"; VInt 195];
         [VInt 2; VDate jan_2016; VInt 7; VStr "Unmatched"; VInt 999]]);
     ("utilities_eia860",
      frame_of ["id"; "report_date"; "report_year"; "operator_id"; "operator_name"]
        [[VInt 1; VDate jan_2016; VInt 2016; VInt 195; VStr "Alabama Power Co"];
         [VInt 2; VDate jan_2016; VInt 2016; VInt 999; VStr "Unmatched Utility"]]);
     ("utilities_eia",
      frame_of ["operator_id"; "util_id_pudl"] [[VInt 195; VInt 18]]);
     ("plants_eia",
      frame_of ["plant_id"; "plant_id_pudl"] [[VInt 3; VInt 32]]);
     ("generation_eia923",
      frame_of ["id"; "plant_id"; "generator_id"; "report_date"; "net_generation_mwh"]
        [[VInt 1; VInt 3; VStr "1"; VDate (mkDate 2016 3 1); VFloat 10];
         [VInt 2; VInt 7; VStr "1"; VDate (mkDate 2016 3 1); VFloat 5];
         [VInt 3; VInt 3; VStr "1"; VDate (mkDate 2016 4 1); VFloat 20]]%float);
     ("generation_fuel_eia923",
      frame_of ("id" :: gf_columns)
        [[VInt 1; VInt 3; VDate (mkDate 2016 3 1); VStr "coal";
          VFloat 2; VFloat 2; VFloat 40; VFloat 40; VFloat 4];
         [VInt 2; VInt 7; VDate (mkDate 2016 3 1); VStr "coal";
          VFloat 1; VFloat 1; VFloat 20; VFloat 20; VFloat 2]]%float)].

(** The frame [fuel_receipts_costs_eia923] aggregates: the two deliveries
    with the totals it computes for every record. *)
Definition frc_two_deliveries_totals : DataFrame :=
  match frc_totals frc_two_deliveries with
  | Ok df => df
  | Raise _ => frc_two_deliveries
  end.

(** ** What the statements say of one output row and its bucket *)

Definition frc_measures : list string :=
  ["fuel_quantity"; "ash_content_pct"; "sulfur_content_pct"; "mercury_content_ppm";
   "total_heat_content_mmbtu"; "total_fuel_cost"].

Definition frc_keys : list string := ["plant_id"; "energy_source_simple"].

Definition bf_measures : list string :=
  ["fuel_qty_consumed"; "sulfur_content_pct"; "ash_content_pct";
   "total_heat_content_mmbtu"].

Definition bf_keys : list string := ["plant_id"; "boiler_id"; "fuel_type_simple"].

Definition gf_measures : list string :=
  ["fuel_consumed_total"; "fuel_consumed_for_electricity"; "fuel_consumed_total_mmbtu";
   "fuel_consumed_for_electricity_mmbtu"; "net_generation_mwh"].

Definition gf_keys : list string := ["plant_id"; "aer_fuel_category"].

(** The measures of the records as the store has them. *)
Definition frc_raw_measures : list string :=
  ["fuel_quantity"; "heat_content_mmbtu_per_unit"; "fuel_cost_per_mmbtu";
   "ash_content_pct"; "sulfur_content_pct"; "mercury_content_ppm"].

Definition bf_raw_measures : list string :=
  ["fuel_qty_consumed"; "fuel_mmbtu_per_unit"; "sulfur_content_pct"; "ash_content_pct"].

(** Sum over a bucket of the per-record product of three columns. *)
Definition triple_product_sum (a b c : string) (g : list row) : float :=
  nansum (map (fun r => PrimFloat.mul (PrimFloat.mul (float_of (cell r a))
                                                     (float_of (cell r b)))
                                      (float_of (cell r c))) g).



(** The cells of an output row of [generation_fuel_eia923]: the sums, and
    the heat content per unit as a ratio cell. *)
Definition gf_ratios (f : freq) (gf_df : DataFrame) (k : list value) (r' : row) : Prop :=
  let g := bucket_rows gf_keys f k (rows gf_df) in
  ratio_cell (cell r' "fuel_mmbtu_per_unit")
             (col_sum "fuel_consumed_total_mmbtu" g) (col_sum "fuel_consumed_total" g) /\
  cell r' "fuel_consumed_total" = VFloat (col_sum "fuel_consumed_total" g) /\
  cell r' "fuel_consumed_total_mmbtu" = VFloat (col_sum "fuel_consumed_total_mmbtu" g) /\
  cell r' "net_generation_mwh" = VFloat (col_sum "net_generation_mwh" g).

(** The cells of an output row of [fuel_receipts_costs_eia923]: the summed
    quantity, and every recomputed field as a ratio cell. *)
Definition frc_ratios (f : freq) (frc_df : DataFrame) (k : list value) (r' : row) : Prop :=
  let g := bucket_rows frc_keys f k (rows frc_df) in
  cell r' "fuel_quantity" = VFloat (col_sum "fuel_quantity" g) /\
  ratio_cell (cell r' "fuel_cost_per_mmbtu")
             (col_sum "total_fuel_cost" g) (col_sum "total_heat_content_mmbtu" g) /\
  ratio_cell (cell r' "heat_content_mmbtu_per_unit")
             (col_sum "total_heat_content_mmbtu" g) (col_sum "fuel_quantity" g) /\
  ratio_cell (cell r' "sulfur_content_pct")
             (product_sum "sulfur_content_pct" "fuel_quantity" g)
             (col_sum "fuel_quantity" g) /\
  ratio_cell (cell r' "ash_content_pct")
             (product_sum "ash_content_pct" "fuel_quantity" g)
             (col_sum "fuel_quantity" g) /\
  ratio_cell (cell r' "mercury_content_ppm")
             (product_sum "mercury_content_ppm" "fuel_quantity" g)
             (col_sum "fuel_quantity" g).

(** ** outputs.py: the remaining output functions *)

Definition generators_eia860 (pudl_engine : gmap string DataFrame) : result DataFrame :=
  gens_eia860 ← read_table pudl_engine "generators_eia860";
  gens_eia860 ← drop_cols ["operator_id"; "operator_name"; "plant_name"] gens_eia860;
  plants_eia860 ← read_cols pudl_engine "plants_eia860"
                    ["report_date"; "plant_id"; "operator_id"; "latitude"; "longitude"];
  out_df ← pd_merge gens_eia860 plants_eia860 Left
             ["report_date"; "plant_id"] ["report_date"; "plant_id"];
  utils_eia ← read_table pudl_engine "utilities_eia";
  out_df ← pd_merge out_df utils_eia Inner ["operator_id"] ["operator_id"];
  plants_eia ← read_table pudl_engine "plants_eia";
  out_df ← pd_merge out_df plants_eia Left ["plant_id"] ["plant_id"];
  let cols_to_drop := ["id"] in
  out_df ← drop_cols cols_to_drop out_df;
  let first_cols := ["report_date"; "plant_id"; "plant_id_pudl"; "plant_name";
                     "operator_id"; "util_id_pudl"; "operator_name"; "generator_id"] in
  organize_cols out_df first_cols.

Definition ownership_eia860 (pudl_engine : gmap string DataFrame) : result DataFrame :=
  o_df ← read_table pudl_engine "ownership_eia860";
  pu_eia ← plants_utils_eia pudl_engine;
  pu_eia ← getitem_list pu_eia ["plant_id"; "plant_id_pudl"; "util_id_pudl"; "report_year"];
  out_df ← pd_merge o_df pu_eia Left ["report_year"; "plant_id"] ["report_year"; "plant_id"];
  out_df ← drop_cols ["id"] out_df;
  out_df ← dropna ["plant_id"; "plant_id_pudl"; "operator_id"; "util_id_pudl";
                   "generator_id"; "ownership_id"] out_df;
  let first_cols := ["report_year"; "plant_id"; "plant_id_pudl"; "plant_name";
                     "operator_id"; "util_id_pudl"; "operator_name"; "generator_id";
                     "ownership_id"; "owner_name"] in
  organize_cols out_df first_cols.

Definition fuel_ferc1 (pudl_engine : gmap string DataFrame) : result DataFrame :=
  fuel_df ← read_table pudl_engine "fuel_ferc1";
  fuel_df ← assign_binop PrimFloat.mul "fuel_consumed_total_mmbtu"
              "fuel_qty_burned" "fuel_avg_mmbtu_per_unit" fuel_df;
  fuel_df ← assign_binop PrimFloat.mul "fuel_consumed_total_cost_mmbtu"
              "fuel_cost_per_mmbtu" "fuel_consumed_total_mmbtu" fuel_df;
  fuel_df ← assign_binop PrimFloat.mul "fuel_consumed_total_cost_unit"
              "fuel_cost_per_unit_burned" "fuel_qty_burned" fuel_df;
  pu_ferc ← plants_utils_ferc1 pudl_engine;
  out_df ← pd_merge fuel_df pu_ferc Inner
             ["respondent_id"; "plant_name"] ["respondent_id"; "plant_name"];
  out_df ← drop_cols ["id"] out_df;
  let first_cols := ["report_year"; "respondent_id"; "util_id_pudl"; "respondent_name";
                     "plant_id_pudl"; "plant_name"] in
  organize_cols out_df first_cols.

(** The columns of the frame [plants_utils_eia] returns. *)
Definition pu_eia_columns : list string :=
  ["report_date"; "plant_id"; "plant_name"; "operator_id"; "operator_name";
   "util_id_pudl"; "plant_id_pudl"].

(** A store with an ownership table beside the tables of [sample_engine]. *)
Definition ownership_engine : gmap string DataFrame :=
  <["ownership_eia860" :=
      frame_of ["id"; "report_year"; "plant_id"; "operator_id"; "generator_id";
                "ownership_id"; "owner_name"]
        [[VInt 1; VInt 2016; VInt 3; VInt 195; VStr "1"; VInt 195; VStr "Alabama Power Co"]]]>
    sample_engine.

(** ** Vocabulary of the statements about aggregated frames *)

(** The key columns of an aggregated frame, [by + [pd.Grouper(freq)]]
    after [reset_index()]. *)
Definition key_columns (by_ : list string) : list string := by_ ++ ["report_date"].

Definition g_keys : list string := ["plant_id"; "generator_id"].



(** Monthly generation of two generators over two months. *)
Definition g_two_months : DataFrame :=
  frame_of ["id"; "plant_id"; "generator_id"; "report_date"; "net_generation_mwh"]
    [[VInt 1; VInt 3; VStr "1"; VDate (mkDate 2016 3 1); VFloat 10];
     [VInt 2; VInt 3; VStr "2"; VDate (mkDate 2016 3 1); VFloat 5];
     [VInt 3; VInt 3; VStr "1"; VDate (mkDate 2016 4 1); VFloat 20]]%float.

(** The summed totals of an output row of [fuel_receipts_costs_eia923]
    over its bucket of records. *)
Definition frc_summed (f : freq) (frc_df : DataFrame) (k : list value) (r' : row) : Prop :=
  let g := bucket_rows frc_keys f k (rows frc_df) in
  cell r' "fuel_quantity" = VFloat (col_sum "fuel_quantity" g) /\
  cell r' "total_heat_content_mmbtu" =
    VFloat (product_sum "heat_content_mmbtu_per_unit" "fuel_quantity" g) /\
  cell r' "total_fuel_cost" =
    VFloat (triple_product_sum "heat_content_mmbtu_per_unit" "fuel_quantity"
                               "fuel_cost_per_mmbtu" g).

(** The same for [boiler_fuel_eia923]. *)
Definition bf_summed (f : freq) (bf_df : DataFrame) (k : list value) (r' : row) : Prop :=
  let g := bucket_rows bf_keys f k (rows bf_df) in
  cell r' "fuel_qty_consumed" = VFloat (col_sum "fuel_qty_consumed" g) /\
  cell r' "total_heat_content_mmbtu" =
    VFloat (product_sum "fuel_qty_consumed" "fuel_mmbtu_per_unit" g).

(** Every cell outside the columns [cs] reads as missing. *)
Definition only_cells (cs : list string) (r : row) : Prop :=
  forall c, c ∉ cs -> cell r c = VNone.

Definition gf_aggregated_columns : list string :=
  ["plant_id"; "aer_fuel_category"; "report_date"; "fuel_consumed_total";
   "fuel_consumed_for_electricity"; "fuel_consumed_total_mmbtu";
   "fuel_consumed_for_electricity_mmbtu"; "net_generation_mwh"; "fuel_mmbtu_per_unit"].

Definition frc_aggregated_columns : list string :=
  ["plant_id"; "energy_source_simple"; "report_date"; "fuel_quantity";
   "total_heat_content_mmbtu"; "total_fuel_cost"; "fuel_cost_per_mmbtu";
   "heat_content_mmbtu_per_unit"; "sulfur_content_pct"; "ash_content_pct";
   "mercury_content_ppm"].

Definition bf_aggregated_columns : list string :=
  ["plant_id"; "boiler_id"; "fuel_type_simple"; "report_date";
   "total_heat_content_mmbtu"; "fuel_qty_consumed"; "fuel_mmbtu_per_unit";
   "sulfur_content_pct"; "ash_content_pct"].

Definition g_aggregated_columns : list string :=
  ["plant_id"; "generator_id"; "report_date"; "net_generation_mwh"].



(** ** Vocabulary of the statements about constraint listings *)

(** Every constraint of the listing references a parent of its own: two
    pragma rows name the same parent exactly when they belong to the same
    constraint. *)
Definition one_constraint_per_parent (table_fks : list fk_list_row) : bool :=
  forallb (fun r1 =>
             forallb (fun r2 => Bool.eqb (String.eqb (fl_table r1) (fl_table r2))
                                         (fl_id r1 =? fl_id r2)%Z) table_fks)
          table_fks.

(** The descriptor of the constraint with id [i]: its referenced fields,
    in the order of the listing. *)
Definition constraint_descriptor (table_fks : list fk_list_row) (i : Z) : string :=
  "(" ++ String.concat ", "
           (map fl_to (filter (fun r => (fl_id r =? i)%Z) table_fks))
      ++ ")".

(** A manager whose metadata registers a table that the database file,
    created before the table was added to the metadata, does not have. *)
Definition generators_table : Table :=
  {| t_name := "generators";
     t_columns := [mkColumn "plant_id" false; mkColumn "generator_id" false] |}.

Definition stale_manager : SQLiteIOManager :=
  {| md_tables := <["generators" := generators_table]> (md_tables plants_manager);
     db := db plants_manager;
     log := [] |}.

Definition generators_context : Context :=
  {| has_asset_key := true; asset_key_identifier := "generators"; identifier := "" |}.

(** ** Vocabulary of the statements about joined records *)

(** Whether [s] ends with [suffix]. *)
Fixpoint ends_with (suffix s : string) : bool :=
  String.eqb s suffix ||
  match s with
  | EmptyString => false
  | String _ s' => ends_with suffix s'
  end.

(** The output row [r'] shows the record [r] of a table with columns
    [cols]: every field but the row id is unchanged. *)
Definition shows_record (cols : list string) (r r' : row) : Prop :=
  forall c, c ∈ cols -> c <> "id" -> cell r' c = cell r c.

(** ** Vocabulary of the statements about inner joins *)

(** The number of rows of [right] whose key cells match those of [l]. *)
Definition match_count (on : list string) (right : DataFrame) (l : row) : nat :=
  length (filter (fun m => keys_eqb (cells l on) (cells m on)) (rows right)).

(** A small FERC Form 1 store: respondent 7 with one plant that the glue
    tables know; the fuel table also reports a plant they do not know. *)
Definition ferc_engine : gmap string DataFrame :=
  list_to_map
    [("utilities_ferc",
      frame_of ["respondent_id"; "util_id_pudl"; "respondent_name"]
        [[VInt 7; VInt 18; VStr "Alabama Power Co"]]);
     ("plants_ferc",
      frame_of ["respondent_id"; "plant_name"; "plant_id_pudl"]
        [[VInt 7; VStr "Barry"; VInt 32]]);
     ("plants_steam_ferc1",
      frame_of ["report_year"; "respondent_id"; "plant_name"; "total_capacity_mw"]
        [[VInt 2016; VInt 7; VStr "Barry"; VFloat 2512]]%float);
     ("fuel_ferc1",
      frame_of ["id"; "report_year"; "respondent_id"; "plant_name"; "fuel_qty_burned";
                "fuel_avg_mmbtu_per_unit"; "fuel_cost_per_mmbtu";
                "fuel_cost_per_unit_burned"]
        [[VInt 1; VInt 2016; VInt 7; VStr "Barry"; VFloat 10; VFloat 20; VFloat 2; VFloat 40];
         [VInt 2; VInt 2016; VInt 7; VStr "Unknown"; VFloat 1; VFloat 1; VFloat 1; VFloat 1]]%float)].

(** ** Vocabulary of the statements about [generators_eia860] *)

(** A field of the generators table that reaches the output under its own
    name: it is not dropped, and no frame joined in has a column of that
    name (the join keys apart). *)
Definition generator_field (gens utils_eia plants_eia : DataFrame) (c : string) : Prop :=
  c ∈ columns gens /\
  (c ∉ ["id"; "operator_id"; "operator_name"; "plant_name"; "latitude"; "longitude"]) /\
  (c ∉ columns utils_eia) /\
  (c ∈ columns plants_eia -> c = "plant_id") /\
  ends_with "_x" c = false.

(** A small EIA 860 store: generator 1 of plant 3, whose operator the glue
    tables know, and generator A of plant 7, whose operator they do not. *)
Definition generators_engine : gmap string DataFrame :=
  list_to_map
    [("generators_eia860",
      frame_of ["id"; "report_date"; "plant_id"; "plant_name"; "operator_id";
                "operator_name"; "generator_id"; "nameplate_capacity_mw"]
        [[VInt 1; VDate jan_2016; VInt 3; VStr "Barry"; VInt 195;
          VStr "Alabama Power Co"; VStr "1"; VFloat 153];
         [VInt 2; VDate jan_2016; VInt 7; VStr "Unmatched"; VInt 999;
          VStr "Unmatched Utility"; VStr "A"; VFloat 20]]%float);
     ("plants_eia860",
      frame_of ["id"; "report_date"; "plant_id"; "plant_name"; "operator_id";
                "latitude"; "longitude"]
        [[VInt 1; VDate jan_2016; VInt 3; VStr "Barry"; VInt 195; VFloat 31; VFloat (-88)];
         [VInt 2; VDate jan_2016; VInt 7; VStr "Unmatched"; VInt 999;
          VFloat 33; VFloat (-86)]]%float);
     ("utilities_eia",
      frame_of ["operator_id"; "operator_name"; "util_id_pudl"]
        [[VInt 195; VStr "Alabama Power Co"; VInt 18]]);
     ("plants_eia",
      frame_of ["plant_id"; "plant_name"; "plant_id_pudl"]
        [[VInt 3; VStr "Barry"; VInt 32]])].

(** ** Vocabulary of the statements about identifier types *)

(** The cell holds a float (a number or [nan]). *)
Definition float_at (c : string) (r : row) : Prop := exists x, cell r c = VFloat x.

Definition is_int (v : value) : bool :=
  match v with
  | VInt _ => true
  | _ => false
  end.

(** The table stores the surrogate identifiers it has as integers. *)
Definition stores_integral_ids (df : DataFrame) : bool :=
  forallb (fun c => negb (bool_decide (c ∈ columns df))
                    || forallb (fun r : row => is_int (cell r c)) (rows df))
          ["plant_id_pudl"; "util_id_pudl"].

(** Every record of [left] has a row of [right] with its key. *)
Definition all_matched (on : list string) (right left : DataFrame) : bool :=
  forallb (fun l => negb (Nat.eqb (match_count on right l) 0)) (rows left).

(** Whether some row of [left] finds no match in [right], as [pd_merge]
    computes it. *)
Definition unmatched_rows (left right : DataFrame) (left_on right_on : list string) : bool :=
  existsb (fun l => bool_decide (filter (fun r => keys_eqb (cells l left_on) (cells r right_on))
                                        (rows right) = []))
          (rows left).

(** The identifier column [c], attached by a left join with the table
    [glue] on the key [on], as the output [out] shows it: integers when every
    row of the output has its key in [glue]; otherwise floats in every row,
    and [nan] in the rows whose key [glue] does not have. *)
Definition left_joined_id (c : string) (on : list string) (glue out : DataFrame) : Prop :=
  (all_matched on glue out = true -> Forall (int_at c) (rows out)) /\
  (all_matched on glue out = false ->
   Forall (fun r => float_at c r /\
                    (match_count on glue r = 0 -> cell r c = VFloat PrimFloat.nan))
          (rows out)).

(** The tables of the store named in [names] store their surrogate
    identifiers as integers. *)
Definition integral_tables (eng : gmap string DataFrame) (names : list string) : bool :=
  forallb (fun n => match eng !! n with
                    | Some df => stores_integral_ids df
                    | None => true
                    end) names.

(** A store in which every utility of [utilities_eia860] is known to
    [utilities_eia]. *)
Definition matched_engine : gmap string DataFrame :=
  list_to_map
    [("utilities_eia860",
      frame_of ["id"; "report_date"; "report_year"; "operator_id"; "operator_name"]
        [[VInt 1; VDate jan_2016; VInt 2016; VInt 195; VStr "Alabama Power Co"]]);
     ("utilities_eia",
      frame_of ["operator_id"; "util_id_pudl"] [[VInt 195; VInt 18]])].

(** * Properties *)

(** ** The error monad *)

Lemma bind_Ok {A B} (f : A -> result B) (m : result A) (b : B) :
  m ≫= f = Ok b -> exists a, m = Ok a /\ f a = Ok b.
Proof. destruct m as [a|e]; simpl; [eauto | discriminate]. Qed.

Lemma traverse_Ok_Forall2 {A B} (f : A -> result B) l l' :
  traverse f l = Ok l' -> Forall2 (fun x y => f x = Ok y) l l'.
Proof.
  revert l'; induction l as [|x l IH]; intros l' H; simpl in H.
  - injection H as <-. constructor.
  - apply bind_Ok in H as (y & Hy & H).
    apply bind_Ok in H as (ys & Hys & H).
    injection H as <-. constructor; auto.
Qed.

Lemma traverse_total {A B} (f : A -> result B) l :
  (forall x, x ∈ l -> exists y, f x = Ok y) -> exists l', traverse f l = Ok l'.
Proof.
  induction l as [|x l IH]; intros H; simpl; [eauto|].
  destruct (H x) as [y ->]; [left|]. simpl.
  destruct IH as [l' ->]; [intros; apply H; by right|]. simpl. eauto.
Qed.

(** Unfolds one step of a computation in the error monad that returned. *)
Ltac bind_inv H :=
  let x := fresh "x" in
  let Hx := fresh "H" x in
  apply bind_Ok in H as (x & Hx & H).

(** ** Sorting *)

Section SortFacts.

Context {A : Type} (leb : A -> A -> bool).

Lemma insert_sorted_perm x l : insert_sorted leb x l ≡ₚ x :: l.
Proof.
  induction l as [|y l IH]; simpl; [done|].
  destruct (leb x y); [done|].
  rewrite IH. apply Permutation_swap.
Qed.

Lemma sort_by_perm l : sort_by leb l ≡ₚ l.
Proof.
  induction l as [|x l IH]; simpl; [done|].
  rewrite insert_sorted_perm. by rewrite IH.
Qed.

Lemma elem_of_sort_by x l : x ∈ sort_by leb l <-> x ∈ l.
Proof. by rewrite sort_by_perm. Qed.

Lemma NoDup_sort_by l : NoDup l -> NoDup (sort_by leb l).
Proof. by rewrite sort_by_perm. Qed.

Hypothesis leb_total : forall x y, leb x y = true \/ leb y x = true.

Lemma insert_sorted_Sorted x l :
  Sorted (fun a b => leb a b = true) l ->
  Sorted (fun a b => leb a b = true) (insert_sorted leb x l).
Proof.
  induction 1 as [|y l Hs IH Hhd]; simpl.
  - repeat constructor.
  - destruct (leb x y) eqn:E.
    + constructor; [by constructor | by constructor].
    + constructor; [exact IH|].
      destruct l as [|z l]; simpl.
      * constructor. destruct (leb_total x y); congruence.
      * destruct (leb x z).
        -- constructor. destruct (leb_total x y); congruence.
        -- constructor. by inversion Hhd.
Qed.

Lemma sort_by_Sorted l : Sorted (fun a b => leb a b = true) (sort_by leb l).
Proof.
  induction l as [|x l IH]; simpl; [constructor|].
  by apply insert_sorted_Sorted.
Qed.

End SortFacts.

(** ** Column selection *)

Lemma filter_none {A} (P : A -> Prop) `{forall x, Decision (P x)} (l : list A) :
  (forall x, x ∈ l -> ~ P x) -> filter P l = [].
Proof.
  induction l as [|x l IH]; intros Hl; [done|].
  rewrite filter_cons_False by (apply Hl; left).
  apply IH. intros y Hy. apply Hl. by right.
Qed.

Lemma missing_labels_nil df labels :
  (forall c, c ∈ labels -> c ∈ columns df) -> missing_labels df labels = [].
Proof.
  intros Hin. unfold missing_labels. apply filter_none.
  intros c Hc Hn. apply Hn, Hin, Hc.
Qed.

Lemma elem_of_missing_labels df labels c :
  c ∈ missing_labels df labels <-> c ∈ labels /\ c ∉ columns df.
Proof. unfold missing_labels. rewrite list_elem_of_filter. tauto. Qed.

Lemma filter_eq_singleton (l : list string) (x : string) :
  NoDup l -> x ∈ l -> filter (fun c => c = x) l = [x].
Proof.
  induction 1 as [|y l Hy Hnd IH]; intros Hx; [by apply elem_of_nil in Hx|].
  destruct (decide (y = x)) as [->|Hne].
  - rewrite filter_cons_True by done. f_equal.
    apply filter_none. intros z Hz ->. contradiction.
  - rewrite filter_cons_False by done.
    apply IH. apply elem_of_cons in Hx as [->|Hx]; [done|exact Hx].
Qed.

Lemma flat_map_select (cols labels : list string) :
  NoDup cols -> (forall c, c ∈ labels -> c ∈ cols) ->
  flat_map (fun l => filter (fun c => c = l) cols) labels = labels.
Proof.
  intros Hnd. induction labels as [|l labels IH]; intros Hin; [done|].
  simpl. rewrite filter_eq_singleton; [|done|apply Hin; left].
  simpl. f_equal. apply IH. intros c Hc. apply Hin. by right.
Qed.

Lemma getitem_list_Ok df labels :
  NoDup (columns df) -> (forall c, c ∈ labels -> c ∈ columns df) ->
  getitem_list df labels =
    Ok {| columns := labels;
          rows := map (fun r : row => filter (fun kv => kv.1 ∈ labels) r) (rows df) |}.
Proof.
  intros Hnd Hin. unfold getitem_list.
  rewrite missing_labels_nil by done. by rewrite flat_map_select.
Qed.

(** ** The column organizer *)

Lemma organized_cols_present df cols :
  (forall c, c ∈ cols -> c ∈ columns df) ->
  forall c, c ∈ cols ++ sort_by String.leb (filter (fun c => c ∉ cols) (columns df)) ->
            c ∈ columns df.
Proof.
  intros Hin c Hc. apply elem_of_app in Hc as [Hc|Hc]; [by apply Hin|].
  apply elem_of_sort_by, list_elem_of_filter in Hc. tauto.
Qed.

Lemma organized_cols_cover df cols c :
  c ∈ columns df ->
  c ∈ cols ++ sort_by String.leb (filter (fun c => c ∉ cols) (columns df)).
Proof.
  intros Hc. apply elem_of_app.
  destruct (decide (c ∈ cols)) as [Hin|Hout]; [by left|right].
  apply elem_of_sort_by, list_elem_of_filter. tauto.
Qed.

(** C6: for a frame whose lead columns all occur in it, [organize_cols]
    returns the lead columns first, in the caller's order, followed by the
    remaining columns of the frame in sorted order; every row keeps the cell
    it had in each column. *)
Theorem organize_cols_order (df : DataFrame) (cols : list string) :
  NoDup (columns df) ->
  (forall c, c ∈ cols -> c ∈ columns df) ->
  exists out rest,
    organize_cols df cols = Ok out /\
    columns out = cols ++ rest /\
    rest ≡ₚ filter (fun c => c ∉ cols) (columns df) /\
    Sorted (fun a b => String.leb a b = true) rest /\
    length (rows out) = length (rows df) /\
    (forall i r, rows df !! i = Some r ->
       exists r', rows out !! i = Some r' /\
                  forall c, c ∈ columns df -> r' !! c = r !! c).
Proof.
  intros Hnd Hin.
  set (rest := sort_by String.leb (filter (fun c => c ∉ cols) (columns df))).
  eexists _, rest. unfold organize_cols.
  rewrite getitem_list_Ok by (done || by apply organized_cols_present).
  split; [reflexivity|]. simpl. split; [reflexivity|].
  split; [apply sort_by_perm|].
  split; [apply sort_by_Sorted, String.leb_total|].
  split; [apply length_map|].
  intros i r Hr. eexists. split.
  - rewrite list_lookup_fmap, Hr. reflexivity.
  - intros c Hc. apply option_eq. intros v.
    rewrite map_lookup_filter_Some. simpl.
    split; [tauto|]. intros Hv. split; [done|].
    by apply organized_cols_cover.
Qed.

(** C7: when some lead column is absent from the frame, [organize_cols]
    raises [KeyError] naming the absent lead columns; no frame is returned. *)
Theorem organize_cols_unknown_lead (df : DataFrame) (cols : list string) (c : string) :
  c ∈ cols -> c ∉ columns df ->
  organize_cols df cols = Raise (KeyError (missing_labels df cols)) /\
  c ∈ missing_labels df cols.
Proof.
  intros Hc Hout.
  assert (Hm : c ∈ missing_labels df cols) by (by apply elem_of_missing_labels).
  split; [|done].
  unfold organize_cols, getitem_list.
  assert (missing_labels df
            (cols ++ sort_by String.leb (filter (fun c => c ∉ cols) (columns df)))
          = missing_labels df cols) as ->.
  { unfold missing_labels. rewrite filter_app.
    rewrite (filter_none _ (sort_by _ _)); [by rewrite app_nil_r|].
    intros x Hx Hn. apply Hn.
    apply elem_of_sort_by, list_elem_of_filter in Hx. tauto. }
  destruct (missing_labels df cols); [by apply elem_of_nil in Hm|done].
Qed.

(** ** Distinct elements *)

Section NubFacts.

Context {A : Type} (eqb : A -> A -> bool).
Hypothesis eqb_eq : forall x y, eqb x y = true <-> x = y.

Lemma elem_of_nub x l : x ∈ nub eqb l <-> x ∈ l.
Proof.
  induction l as [|y l IH]; simpl; [done|].
  rewrite !elem_of_cons, list_elem_of_filter, IH.
  split.
  - intros [->|[_ Hx]]; auto.
  - intros [->|Hx]; [by left|].
    destruct (eqb y x) eqn:E.
    + left. symmetry. by apply eqb_eq.
    + right. by split.
Qed.

Lemma NoDup_nub l : NoDup (nub eqb l).
Proof.
  induction l as [|y l IH]; simpl; [constructor|].
  constructor.
  - rewrite list_elem_of_filter. intros [Hne _].
    assert (eqb y y = true) as E by (by apply eqb_eq).
    rewrite E in Hne. by apply Hne.
  - by apply NoDup_filter.
Qed.

End NubFacts.

Lemma bool_decide_eqb {A} `{EqDecision A} (x y : A) :
  bool_decide (x = y) = true <-> x = y.
Proof. apply bool_decide_eq_true. Qed.

Lemma string_eqb_eq (x y : string) : String.eqb x y = true <-> x = y.
Proof. apply String.eqb_eq. Qed.

(** ** The foreign-key listing *)

Lemma elem_of_get_fk_list db t k :
  k ∈ _get_fk_list db t <->
  exists r, r ∈ foreign_key_list db t /\
            k = {| fkid := fl_id r; parent := fl_table r;
                   fk := descriptor_of (foreign_key_list db t) (fl_table r);
                   table := t |}.
Proof.
  unfold _get_fk_list. rewrite list_elem_of_fmap. split.
  - intros ([[i p] d] & -> & Hin).
    apply (proj1 (elem_of_nub _ bool_decide_eqb _ _)) in Hin.
    apply list_elem_of_fmap in Hin as (r & Heq & Hr).
    injection Heq as -> -> ->. by exists r.
  - intros (r & Hr & ->).
    exists (fl_id r, fl_table r, fk_descriptor (foreign_key_list db t) r).
    split; [done|].
    apply (elem_of_nub _ bool_decide_eqb), list_elem_of_fmap. by exists r.
Qed.

Lemma NoDup_merge_key_get_fk_list db t :
  NoDup (map merge_key (_get_fk_list db t)).
Proof.
  unfold _get_fk_list. rewrite map_map.
  apply NoDup_fmap_2_strong; [|apply NoDup_nub, bool_decide_eqb].
  intros [[i p] d] [[i' p'] d'] Hx Hy Heq.
  apply (proj1 (elem_of_nub _ bool_decide_eqb _ _)), list_elem_of_fmap in Hx as (r & Hr & _).
  apply (proj1 (elem_of_nub _ bool_decide_eqb _ _)), list_elem_of_fmap in Hy as (r' & Hr' & _).
  injection Hr as -> -> ->. injection Hr' as -> -> ->.
  unfold merge_key in Heq; simpl in Heq. injection Heq as Hp Hi.
  unfold fk_descriptor. by rewrite Hp, Hi.
Qed.

Lemma NoDup_merge_key_concat db tables :
  NoDup tables -> NoDup (map merge_key (flat_map (_get_fk_list db) tables)).
Proof.
  induction 1 as [|t tables Ht Hnd IH]; simpl; [constructor|].
  rewrite map_app. apply NoDup_app. split; [apply NoDup_merge_key_get_fk_list|].
  split; [|exact IH].
  intros key Hk Hk'.
  apply list_elem_of_fmap in Hk as (k & -> & Hk).
  apply list_elem_of_fmap in Hk' as (k' & Heq & Hk').
  apply elem_of_get_fk_list in Hk as (r & _ & ->).
  apply list_elem_of_In, in_flat_map in Hk' as (t' & Ht' & Hk').
  apply list_elem_of_In in Ht', Hk'.
  apply elem_of_get_fk_list in Hk' as (r' & _ & ->).
  unfold merge_key in Heq; simpl in Heq. injection Heq as _ _ ->.
  contradiction.
Qed.

Lemma right_unique_NoDup ks :
  NoDup (map merge_key ks) -> right_unique ks = true.
Proof.
  induction ks as [|k ks IH]; simpl; [done|].
  intros Hnd. apply NoDup_cons in Hnd as [Hk Hnd].
  rewrite IH by done. rewrite andb_true_r. apply negb_true_iff.
  apply not_true_is_false. intros Hex.
  apply existsb_exists in Hex as (k' & Hk' & Hsame).
  apply Hk, list_elem_of_fmap. exists k'. split; [|by apply list_elem_of_In].
  unfold same_merge_key in Hsame.
  apply andb_true_iff in Hsame as [Hsame Ht].
  apply andb_true_iff in Hsame as [Hp Hi].
  apply String.eqb_eq in Hp, Ht. apply Z.eqb_eq in Hi.
  unfold merge_key. by rewrite Hp, Hi, Ht.
Qed.

(** The keys the merge validates are always unique: [_get_fk_list] yields
    one row per constraint id of a child table. *)
Lemma right_unique_table_foreign_keys db (fk_errors : list fk_check_row) :
  right_unique (flat_map (_get_fk_list db) (nub String.eqb (map fc_table fk_errors))) = true.
Proof.
  apply right_unique_NoDup, NoDup_merge_key_concat, NoDup_nub, string_eqb_eq.
Qed.

(** ** The foreign-key check *)

Lemma merge_key_eqb_true e k :
  merge_key_eqb e k = true <->
  fc_parent e = parent k /\ fc_fkid e = fkid k /\ fc_table e = table k.
Proof.
  unfold merge_key_eqb.
  rewrite !andb_true_iff, !String.eqb_eq, Z.eqb_eq. tauto.
Qed.

Lemma declared_true db e :
  declared db e = true ->
  exists r, r ∈ foreign_key_list db (fc_table e) /\
            fl_id r = fc_fkid e /\ fl_table r = fc_parent e.
Proof.
  unfold declared. intros H.
  apply existsb_exists in H as (r & Hr & H).
  apply andb_true_iff in H as [Hi Hp].
  apply Z.eqb_eq in Hi. apply String.eqb_eq in Hp.
  exists r. by rewrite list_elem_of_In.
Qed.

(** Under consistent pragmas the left merge finds, for every violation,
    the descriptor of its parent among the child's constraints. *)
Lemma merge_finds_descriptor db (fk_errors : list fk_check_row) e :
  declared db e = true -> e ∈ fk_errors ->
  fk <$> head (filter (merge_key_eqb e)
                 (flat_map (_get_fk_list db) (nub String.eqb (map fc_table fk_errors))))
  = Some (descriptor_of (foreign_key_list db (fc_table e)) (fc_parent e)).
Proof.
  intros Hdecl He.
  set (tfk := flat_map _ _).
  assert (Hall : forall k, k ∈ filter (merge_key_eqb e) tfk ->
            fk k = descriptor_of (foreign_key_list db (fc_table e)) (fc_parent e)).
  { intros k Hk. apply list_elem_of_filter in Hk as [Hm Hk].
    apply Is_true_true, merge_key_eqb_true in Hm as (Hp & _ & Ht).
    apply list_elem_of_In, in_flat_map in Hk as (t' & _ & Hk).
    apply list_elem_of_In, elem_of_get_fk_list in Hk as (r & _ & ->).
    simpl in *. by rewrite Hp, Ht. }
  destruct (filter (merge_key_eqb e) tfk) as [|k0 ks] eqn:Hf.
  - exfalso. apply declared_true in Hdecl as (r & Hr & Hi & Hp).
    set (k := {| fkid := fl_id r; parent := fl_table r;
                 fk := descriptor_of (foreign_key_list db (fc_table e)) (fl_table r);
                 table := fc_table e |}).
    assert (Hk : k ∈ filter (merge_key_eqb e) tfk).
    { apply list_elem_of_filter. split.
      - apply Is_true_true, merge_key_eqb_true. simpl. by rewrite Hi, Hp.
      - apply list_elem_of_In, in_flat_map. exists (fc_table e). split.
        + apply list_elem_of_In, (elem_of_nub _ string_eqb_eq), list_elem_of_fmap.
          by exists e.
        + apply list_elem_of_In, elem_of_get_fk_list. by exists r. }
    rewrite Hf in Hk. by apply elem_of_nil in Hk.
  - simpl. f_equal. apply Hall. left.
Qed.

Lemma omap_violation_key (g : fk_check_row -> string) (l : list fk_check_row) :
  omap violation_key (map (fun e => (e, Some (g e))) l)
  = map (fun e => (fc_table e, fc_parent e, g e)) l.
Proof. induction l as [|e l IH]; simpl; [done|]. by rewrite <- IH. Qed.

Lemma violation_rowids_found (g : fk_check_row -> string) (l : list fk_check_row) k :
  violation_rowids (map (fun e => (e, Some (g e))) l) k
  = map fc_rowid (filter (fun e => (fc_table e, fc_parent e, g e) = k) l).
Proof.
  unfold violation_rowids. induction l as [|e l IH]; simpl; [done|].
  rewrite !filter_cons. unfold violation_key at 1. simpl.
  destruct (decide ((fc_table e, fc_parent e, g e) = k)) as [Heq|Hne].
  - rewrite decide_True; [|apply bool_decide_pack; cbn; by rewrite Heq].
    simpl. by rewrite IH.
  - rewrite decide_False; [by rewrite IH|].
    intros Hb. apply bool_decide_unpack in Hb. cbn in Hb. congruence.
Qed.

Lemma check_foreign_keys_raises db :
  foreign_key_check db <> [] ->
  exists errors, check_foreign_keys db = Raise (ForeignKeyErrors errors).
Proof.
  intros Hne. unfold check_foreign_keys, merge_left_m1.
  destruct (foreign_key_check db) as [|e l]; [done|].
  rewrite right_unique_table_foreign_keys. simpl. eauto.
Qed.

Lemma check_foreign_keys_consistent db :
  pragmas_consistent db = true -> foreign_key_check db <> [] ->
  check_foreign_keys db = Raise (ForeignKeyErrors (expected_errors db)).
Proof.
  intros Hcons Hne. unfold check_foreign_keys, merge_left_m1, expected_errors.
  unfold pragmas_consistent in Hcons. rewrite forallb_forall in Hcons.
  destruct (foreign_key_check db) as [|e0 l] eqn:Hfk; [done|].
  cbv beta iota zeta. set (fkc := e0 :: l) in *.
  rewrite right_unique_table_foreign_keys.
  rewrite (map_ext_in _
             (fun e => (e, Some (descriptor_of (foreign_key_list db (fc_table e))
                                               (fc_parent e))))).
  2:{ intros e He. f_equal. apply merge_finds_descriptor.
      - by apply Hcons.
      - by apply list_elem_of_In. }
  cbv [mbind result_bind]. cbv beta iota. unfold violation_keys.
  rewrite omap_violation_key. do 2 f_equal.
  apply map_ext. intros k. f_equal. apply violation_rowids_found.
Qed.

Lemma error_group_expected db :
  map error_group (expected_errors db)
  = sort_by triple_leb
      (nub (fun a b => bool_decide (a = b))
           (map (group_of_violation db) (foreign_key_check db))).
Proof.
  unfold expected_errors. rewrite map_map.
  rewrite <- (map_id (sort_by _ _)) at 2.
  apply map_ext. by intros [[c p] d].
Qed.

(** C2: [check_foreign_keys] returns normally exactly when the store has
    no violation; otherwise it raises the aggregate [ForeignKeyErrors].  On
    a store whose pragmas agree the aggregate has one entry for each
    distinct (child, parent, descriptor) group of violations, each with all
    the row ids of its group in the order of the report; a single violation
    yields exactly one entry with that row's id. *)
Theorem check_foreign_keys_report (db : Database) :
  (check_foreign_keys db = Ok tt <-> foreign_key_check db = []) /\
  (foreign_key_check db <> [] ->
     exists errors, check_foreign_keys db = Raise (ForeignKeyErrors errors)) /\
  (pragmas_consistent db = true ->
   forall errors, check_foreign_keys db = Raise (ForeignKeyErrors errors) ->
     NoDup (map error_group errors) /\
     (forall g, g ∈ map error_group errors <->
                exists e, e ∈ foreign_key_check db /\ group_of_violation db e = g) /\
     (forall err, err ∈ errors ->
        rowids err =
          map fc_rowid (filter (fun e => group_of_violation db e = error_group err)
                               (foreign_key_check db)))) /\
  (pragmas_consistent db = true ->
   forall e, foreign_key_check db = [e] ->
     check_foreign_keys db =
       Raise (ForeignKeyErrors
                [{| child_table := fc_table e; parent_table := fc_parent e;
                    foreign_key := descriptor_of (foreign_key_list db (fc_table e))
                                                 (fc_parent e);
                    rowids := [fc_rowid e] |}])).
Proof.
  split; [|split; [|split]].
  - split.
    + intros Hok. destruct (foreign_key_check db) as [|e l] eqn:Hfk; [done|].
      destruct (check_foreign_keys_raises db) as [errors Hr]; [by rewrite Hfk|].
      congruence.
    + intros Hnil. unfold check_foreign_keys. by rewrite Hnil.
  - apply check_foreign_keys_raises.
  - intros Hcons errors Hr.
    assert (Hne : foreign_key_check db <> []).
    { intros Hnil. unfold check_foreign_keys in Hr. by rewrite Hnil in Hr. }
    rewrite check_foreign_keys_consistent in Hr by done.
    injection Hr as <-. split; [|split].
    + rewrite error_group_expected.
      apply NoDup_sort_by, NoDup_nub, bool_decide_eqb.
    + intros g. rewrite error_group_expected, elem_of_sort_by,
        (elem_of_nub _ bool_decide_eqb), list_elem_of_fmap.
      split; intros (e & H1 & H2); exists e; by split.
    + intros err Herr. unfold expected_errors in Herr.
      apply list_elem_of_fmap in Herr as ([[c p] d] & -> & _). reflexivity.
  - intros Hcons e Hfk.
    rewrite check_foreign_keys_consistent by (done || by rewrite Hfk).
    unfold expected_errors. rewrite Hfk. simpl.
    rewrite filter_cons, decide_True by done. reflexivity.
Qed.

(** ** Cells under the frame operations *)

Lemma cell_insert_eq (r : row) c v : cell (<[c := v]> r) c = v.
Proof. unfold cell. by rewrite lookup_insert_eq. Qed.

Lemma cell_insert_ne (r : row) c c' v : c <> c' -> cell (<[c := v]> r) c' = cell r c'.
Proof. intros Hne. unfold cell. by rewrite lookup_insert_ne. Qed.

Lemma cell_drop (labels : list string) (r : row) c :
  c ∉ labels -> cell (filter (fun kv : string * value => kv.1 ∉ labels) r) c = cell r c.
Proof.
  intros Hc. unfold cell. f_equal. apply option_eq. intros v.
  rewrite map_lookup_filter_Some. simpl. tauto.
Qed.

Lemma cell_select (labels : list string) (r : row) c :
  c ∈ labels -> cell (filter (fun kv : string * value => kv.1 ∈ labels) r) c = cell r c.
Proof.
  intros Hc. unfold cell. f_equal. apply option_eq. intros v.
  rewrite map_lookup_filter_Some. simpl. tauto.
Qed.

Lemma as_float_float_of v x : as_float v = Ok x -> float_of v = x.
Proof. unfold float_of. by intros ->. Qed.

Lemma traverse_Ok_map {A B} (f : A -> result B) (g : A -> B) l l' :
  traverse f l = Ok l' -> (forall x y, f x = Ok y -> y = g x) -> l' = map g l.
Proof.
  intros Ht Hfg. apply traverse_Ok_Forall2 in Ht.
  induction Ht as [|x y l l' Hxy _ IH]; simpl; [done|].
  by rewrite (Hfg x y Hxy), IH.
Qed.

Lemma traverse_length {A B} (f : A -> result B) l l' :
  traverse f l = Ok l' -> length l' = length l.
Proof. intros Ht. apply traverse_Ok_Forall2 in Ht. symmetry. by eapply Forall2_length. Qed.

Lemma require_cols_Ok df labels u :
  require_cols df labels = Ok u -> forall c, c ∈ labels -> c ∈ columns df.
Proof.
  unfold require_cols. intros Hr c Hc.
  destruct (missing_labels df labels) as [|m ms] eqn:Hm; [|discriminate].
  destruct (decide (c ∈ columns df)) as [|Hout]; [done|].
  assert (c ∈ missing_labels df labels) by (by apply elem_of_missing_labels).
  rewrite Hm in *. by apply elem_of_nil in H.
Qed.

Lemma assign_binop_rows op c a b df df' :
  assign_binop op c a b df = Ok df' ->
  rows df' = map (fun r : row =>
                    <[c := VFloat (op (float_of (cell r a)) (float_of (cell r b)))]> r)
                 (rows df).
Proof.
  unfold assign_binop. intros H. bind_inv H. bind_inv H.
  injection H as <-. simpl.
  eapply traverse_Ok_map; [exact Hx0|].
  intros r y Hy. simpl in Hy. bind_inv Hy. bind_inv Hy. injection Hy as <-.
  by rewrite (as_float_float_of _ _ Hx1), (as_float_float_of _ _ Hx2).
Qed.

Lemma drop_cols_rows labels df df' :
  drop_cols labels df = Ok df' ->
  rows df' = map (fun r : row => filter (fun kv => kv.1 ∉ labels) r) (rows df).
Proof. unfold drop_cols. intros H. bind_inv H. by injection H as <-. Qed.

Lemma dropna_rows subset df df' :
  dropna subset df = Ok df' ->
  columns df' = columns df /\
  rows df' = filter (fun r => complete_on subset r) (rows df).
Proof. unfold dropna. intros H. bind_inv H. by injection H as <-. Qed.

(** ** Buckets *)

Lemma keyed_rows_fst by_ f rs keyed :
  keyed_rows by_ f rs = Ok keyed -> map fst keyed = omap (row_key by_ f) rs.
Proof.
  revert keyed. induction rs as [|r rs IH]; intros keyed H; simpl in H.
  - by injection H as <-.
  - bind_inv H. bind_inv H. injection H as <-.
    simpl. unfold row_key at 1. rewrite Hx.
    destruct x as [k|]; simpl; rewrite (IH _ Hx0); done.
Qed.

Lemma filter_cons_bool {A} (p : A -> bool) (x : A) (l : list A) :
  filter (fun y => p y) (x :: l) = if p x then x :: filter (fun y => p y) l
                                   else filter (fun y => p y) l.
Proof.
  destruct (p x) eqn:E.
  - apply filter_cons_True. by apply Is_true_true.
  - apply filter_cons_False. intros Hp. apply Is_true_true in Hp. congruence.
Qed.

Lemma keyed_rows_group by_ f rs keyed k :
  keyed_rows by_ f rs = Ok keyed -> group_of k keyed = bucket_rows by_ f k rs.
Proof.
  unfold group_of, bucket_rows.
  revert keyed. induction rs as [|r rs IH]; intros keyed H; simpl in H.
  - by injection H as <-.
  - bind_inv H. bind_inv H. injection H as <-.
    rewrite (filter_cons_bool (in_bucket by_ f k)).
    assert (in_bucket by_ f k r = match x with
                                  | Some k' => keys_eqb k k'
                                  | None => false
                                  end) as ->.
    { unfold in_bucket, row_key. by rewrite Hx. }
    destruct x as [k'|]; [|by apply IH].
    rewrite (filter_cons_bool (fun kr : list value * row => keys_eqb k kr.1)). simpl.
    destruct (keys_eqb k k'); simpl; by rewrite (IH _ Hx0).
Qed.

Lemma groups_buckets by_ f rs keyed :
  keyed_rows by_ f rs = Ok keyed ->
  groups keyed = map (fun k => (k, bucket_rows by_ f k rs)) (bucket_keys by_ f rs).
Proof.
  intros H. unfold groups, bucket_keys.
  rewrite (keyed_rows_fst _ _ _ _ H).
  apply map_ext. intros k. by rewrite (keyed_rows_group _ _ _ _ _ H).
Qed.

Lemma group_sum_Ok c g x : group_sum c g = Ok x -> x = col_sum c g.
Proof.
  unfold group_sum, col_sum. intros H. bind_inv H. injection H as <-.
  f_equal. eapply traverse_Ok_map; [exact Hx0|].
  intros r y Hy. symmetry. by apply as_float_float_of.
Qed.

Lemma agg_row_sum key_cols sum_cols k g r' c :
  agg_row key_cols sum_cols (k, g) = Ok r' ->
  c ∈ sum_cols -> c ∉ key_cols ->
  cell r' c = VFloat (col_sum c g).
Proof.
  unfold agg_row. intros H Hc Hk. bind_inv H. injection H as <-. simpl in Hx.
  assert (x = map (fun c => (c, VFloat (col_sum c g))) sum_cols) as ->.
  { eapply traverse_Ok_map; [exact Hx|].
    intros c' y Hy. bind_inv Hy. injection Hy as <-.
    by rewrite (group_sum_Ok _ _ _ Hx0). }
  unfold cell. rewrite list_to_map_app, lookup_union_r.
  - erewrite elem_of_list_to_map_1'; [reflexivity| |].
    + intros y Hy. apply list_elem_of_fmap in Hy as (c' & [= -> ->] & _). done.
    + apply list_elem_of_fmap. by exists c.
  - apply not_elem_of_list_to_map_1. intros Hin. apply Hk.
    apply list_elem_of_fmap in Hin as ([c' v] & -> & Hin). simpl.
    apply list_elem_of_In, in_combine_l, list_elem_of_In in Hin. done.
Qed.

(** The rows [groupby_sum] returns: one per bucket key, in key order, each
    holding the sums over the rows of its bucket. *)
Lemma groupby_sum_rows by_ f sum_cols df out :
  groupby_sum by_ f sum_cols df = Ok out ->
  Forall2 (fun k r' =>
             forall c, c ∈ sum_cols -> c ∉ by_ ++ ["report_date"] ->
                       cell r' c = VFloat (col_sum c (bucket_rows by_ f k (rows df))))
          (bucket_keys by_ f (rows df)) (rows out).
Proof.
  unfold groupby_sum. intros H. bind_inv H. bind_inv H. bind_inv H.
  injection H as <-. simpl.
  apply traverse_Ok_Forall2 in Hx1.
  rewrite (groups_buckets _ _ _ _ Hx0) in Hx1.
  apply Forall2_fmap_l in Hx1.
  eapply Forall2_impl; [exact Hx1|].
  intros k r' Hagg c Hc Hk. simpl in Hagg.
  by eapply agg_row_sum.
Qed.

(** Bucketing sees only the key cells: rows extended by columns that are
    not keys fall in the same buckets. *)
Section BucketsUnderMap.

Context (by_ : list string) (f : freq) (ext : row -> row).
Hypothesis ext_keys :
  forall r c, c ∈ "report_date" :: by_ -> cell (ext r) c = cell r c.

Lemma row_key_ext r : row_key by_ f (ext r) = row_key by_ f r.
Proof.
  unfold row_key, group_key.
  rewrite ext_keys by left.
  assert (cells (ext r) by_ = cells r by_) as ->; [|done].
  unfold cells. apply map_ext_in. intros c Hc.
  apply ext_keys. right. by apply list_elem_of_In.
Qed.

Lemma bucket_keys_ext rs : bucket_keys by_ f (map ext rs) = bucket_keys by_ f rs.
Proof.
  unfold bucket_keys. do 2 f_equal.
  induction rs as [|r rs IH]; csimpl; [done|].
  rewrite row_key_ext. by rewrite IH.
Qed.

Lemma bucket_rows_ext k rs :
  bucket_rows by_ f k (map ext rs) = map ext (bucket_rows by_ f k rs).
Proof.
  unfold bucket_rows. induction rs as [|r rs IH]; simpl; [done|].
  rewrite !(filter_cons_bool (in_bucket by_ f k)).
  assert (in_bucket by_ f k (ext r) = in_bucket by_ f k r) as ->.
  { unfold in_bucket. by rewrite row_key_ext. }
  destruct (in_bucket by_ f k r); simpl; by rewrite IH.
Qed.

End BucketsUnderMap.

(** ** Aggregation with re-derived ratios *)

(** Decides a closed decidable proposition by evaluation. *)
Ltac by_compute := apply (bool_decide_unpack _); vm_compute; exact I.

(** Reads a cell through inserted and dropped columns with literal names. *)
Ltac cell_simpl :=
  repeat first
    [ rewrite cell_insert_eq
    | rewrite cell_insert_ne by (intros ?; discriminate)
    | rewrite cell_drop by by_compute ].

(** Goes through the literal key columns listed in [Hc : c ∈ ...]. *)
Ltac key_cases Hc :=
  repeat (apply elem_of_cons in Hc as [->|Hc]);
  [by cell_simpl .. | by apply elem_of_nil in Hc].

Lemma float_of_VFloat x : float_of (VFloat x) = x.
Proof. reflexivity. Qed.

Lemma col_sum_map (ext : row -> row) c (h : row -> float) g :
  (forall r, float_of (cell (ext r) c) = h r) ->
  col_sum c (map ext g) = nansum (map h g).
Proof.
  intros Hh. unfold col_sum. rewrite map_map. f_equal.
  apply map_ext. intros r. apply Hh.
Qed.

Lemma Forall2_rows_map {K} (P : K -> row -> Prop) (h : row -> row) ks rs :
  Forall2 (fun k r => P k (h r)) ks rs -> Forall2 P ks (map h rs).
Proof. intros H. by apply Forall2_fmap_r. Qed.


(** The buckets of [fuel_receipts_costs_eia923]. *)
Lemma frc_aggregate_rows f frc_df out :
  frc_aggregate f frc_df = Ok out ->
  Forall2 (fun k r' =>
     let g := bucket_rows ["plant_id"; "energy_source_simple"] f k (rows frc_df) in
     cell r' "fuel_quantity" = VFloat (col_sum "fuel_quantity" g) /\
     cell r' "fuel_cost_per_mmbtu" =
       VFloat (PrimFloat.div (col_sum "total_fuel_cost" g)
                             (col_sum "total_heat_content_mmbtu" g)) /\
     cell r' "heat_content_mmbtu_per_unit" =
       VFloat (PrimFloat.div (col_sum "total_heat_content_mmbtu" g)
                             (col_sum "fuel_quantity" g)) /\
     cell r' "sulfur_content_pct" =
       VFloat (PrimFloat.div (product_sum "sulfur_content_pct" "fuel_quantity" g)
                             (col_sum "fuel_quantity" g)) /\
     cell r' "ash_content_pct" =
       VFloat (PrimFloat.div (product_sum "ash_content_pct" "fuel_quantity" g)
                             (col_sum "fuel_quantity" g)) /\
     cell r' "mercury_content_ppm" =
       VFloat (PrimFloat.div (product_sum "mercury_content_ppm" "fuel_quantity" g)
                             (col_sum "fuel_quantity" g)))
    (bucket_keys ["plant_id"; "energy_source_simple"] f (rows frc_df))
    (rows out).
Proof.
  unfold frc_aggregate. intros H.
  bind_inv H. bind_inv H. bind_inv H. bind_inv H. bind_inv H.
  bind_inv H. bind_inv H. bind_inv H. bind_inv H.
  apply assign_binop_rows in Hx, Hx0, Hx1, Hx3, Hx4, Hx5, Hx6, Hx7.
  apply groupby_sum_rows in Hx2. apply drop_cols_rows in H.
  rewrite H, Hx7, Hx6, Hx5, Hx4, Hx3. clear H Hx7 Hx6 Hx5 Hx4 Hx3.
  rewrite Hx1, Hx0, Hx, !map_map in Hx2. clear Hx1 Hx0 Hx.
  rewrite bucket_keys_ext in Hx2 by (intros r c Hc; key_cases Hc).
  do 6 apply Forall2_rows_map.
  eapply Forall2_impl; [exact Hx2|]. clear Hx2.
  intros k r' Hsum. simpl.
  pose proof (Hsum "fuel_quantity" ltac:(by_compute) ltac:(by_compute)) as Hq.
  pose proof (Hsum "total_heat_content_mmbtu" ltac:(by_compute) ltac:(by_compute)) as Hh.
  pose proof (Hsum "total_fuel_cost" ltac:(by_compute) ltac:(by_compute)) as Hc.
  pose proof (Hsum "total_sulfur_content" ltac:(by_compute) ltac:(by_compute)) as Hs.
  pose proof (Hsum "total_ash_content" ltac:(by_compute) ltac:(by_compute)) as Ha.
  pose proof (Hsum "total_mercury_content" ltac:(by_compute) ltac:(by_compute)) as Hm.
  clear Hsum.
  rewrite bucket_rows_ext in Hq, Hh, Hc, Hs, Ha, Hm by (intros r c Hk; key_cases Hk).
  cell_simpl. rewrite Hq, Hh, Hc, Hs, Ha, Hm, !float_of_VFloat.
  clear Hq Hh Hc Hs Ha Hm.
  unfold product_sum.
  rewrite (col_sum_map _ "fuel_quantity" (fun r => float_of (cell r "fuel_quantity")))
    by (intros r; by cell_simpl).
  rewrite (col_sum_map _ "total_heat_content_mmbtu"
             (fun r => float_of (cell r "total_heat_content_mmbtu")))
    by (intros r; by cell_simpl).
  rewrite (col_sum_map _ "total_fuel_cost" (fun r => float_of (cell r "total_fuel_cost")))
    by (intros r; by cell_simpl).
  rewrite (col_sum_map _ "total_sulfur_content"
             (fun r => PrimFloat.mul (float_of (cell r "sulfur_content_pct"))
                                     (float_of (cell r "fuel_quantity"))))
    by (intros r; by cell_simpl).
  rewrite (col_sum_map _ "total_ash_content"
             (fun r => PrimFloat.mul (float_of (cell r "ash_content_pct"))
                                     (float_of (cell r "fuel_quantity"))))
    by (intros r; by cell_simpl).
  rewrite (col_sum_map _ "total_mercury_content"
             (fun r => PrimFloat.mul (float_of (cell r "mercury_content_ppm"))
                                     (float_of (cell r "fuel_quantity"))))
    by (intros r; by cell_simpl).
  done.
Qed.

(** The buckets of [generation_fuel_eia923]. *)
Lemma generation_fuel_aggregate_rows f gf_df out :
  generation_fuel_aggregate f gf_df = Ok out ->
  Forall2 (fun k r' =>
     let g := bucket_rows ["plant_id"; "aer_fuel_category"] f k (rows gf_df) in
     cell r' "fuel_consumed_total" = VFloat (col_sum "fuel_consumed_total" g) /\
     cell r' "fuel_consumed_total_mmbtu" = VFloat (col_sum "fuel_consumed_total_mmbtu" g) /\
     cell r' "net_generation_mwh" = VFloat (col_sum "net_generation_mwh" g) /\
     cell r' "fuel_mmbtu_per_unit" =
       VFloat (PrimFloat.div (col_sum "fuel_consumed_total_mmbtu" g)
                             (col_sum "fuel_consumed_total" g)))
    (bucket_keys ["plant_id"; "aer_fuel_category"] f (rows gf_df))
    (rows out).
Proof.
  unfold generation_fuel_aggregate. intros H. bind_inv H.
  apply assign_binop_rows in H. apply groupby_sum_rows in Hx.
  rewrite H. clear H. apply Forall2_rows_map.
  eapply Forall2_impl; [exact Hx|]. clear Hx.
  intros k r' Hsum. simpl.
  pose proof (Hsum "fuel_consumed_total" ltac:(by_compute) ltac:(by_compute)) as Hq.
  pose proof (Hsum "fuel_consumed_total_mmbtu" ltac:(by_compute) ltac:(by_compute)) as Hh.
  pose proof (Hsum "net_generation_mwh" ltac:(by_compute) ltac:(by_compute)) as Hn.
  cell_simpl. by rewrite Hq, Hh, Hn, !float_of_VFloat.
Qed.

(** ** Binary64 facts *)

Lemma SFeqb_refl (x : spec_float) :
  SFeqb x x = match x with S754_nan => false | _ => true end.
Proof.
  destruct x as [s|s| |s m e]; unfold SFeqb, SFcompare; try done.
  - by destruct s.
  - destruct s; rewrite Z.compare_refl, Pos.compare_cont_refl; done.
Qed.

Lemma is_nan_Prim2SF (x : float) :
  PrimFloat.is_nan x = match Prim2SF x with S754_nan => true | _ => false end.
Proof.
  unfold PrimFloat.is_nan. rewrite FloatAxioms.eqb_spec, SFeqb_refl.
  by destruct (Prim2SF x).
Qed.

Lemma SF64classify_finite s m e :
  SF64classify (S754_finite s m e) = (if s then NNormal else PNormal) \/
  SF64classify (S754_finite s m e) = (if s then NSubn else PSubn).
Proof.
  unfold SF64classify, SFclassify.
  destruct s; destruct (Z.eqb _ _); auto.
Qed.

Lemma is_nan_classify (x : float) : PrimFloat.is_nan x = is_nan_float x.
Proof.
  rewrite is_nan_Prim2SF. unfold is_nan_float. rewrite FloatAxioms.classify_spec.
  destruct (Prim2SF x) as [[]|[]| |s m e]; try done.
  destruct (SF64classify_finite s m e) as [-> | ->]; by destruct s.
Qed.

(** Division by a zero: [nan] when the numerator is zero or [nan], an
    infinity otherwise. *)
Lemma div_by_zero (n d : float) :
  is_zero_float d = true ->
  is_nan_float (PrimFloat.div n d) = (is_nan_float n || is_zero_float n) /\
  is_infinite_float (PrimFloat.div n d) = negb (is_nan_float n || is_zero_float n).
Proof.
  unfold is_zero_float, is_nan_float, is_infinite_float.
  rewrite !FloatAxioms.classify_spec, FloatAxioms.div_spec.
  destruct (Prim2SF d) as [sd|sd| |sd md ed].
  - intros _. destruct (Prim2SF n) as [sn|sn| |sn mn en].
    + by destruct sn, sd.
    + by destruct sn, sd.
    + done.
    + destruct (SF64classify_finite sn mn en) as [H|H]; rewrite H;
        by destruct sn, sd.
  - by destruct sd.
  - done.
  - destruct (SF64classify_finite sd md ed) as [-> | ->]; by destruct sd.
Qed.

Lemma ratio_cell_div (n d : float) : ratio_cell (VFloat (PrimFloat.div n d)) n d.
Proof.
  split; [done|]. intros Hd. simpl. rewrite is_nan_classify.
  by apply div_by_zero.
Qed.





(** ** The aggregation returns on well-typed frames *)

Lemma require_cols_present df labels :
  (forall c, c ∈ labels -> c ∈ columns df) -> require_cols df labels = Ok tt.
Proof. intros H. unfold require_cols. by rewrite missing_labels_nil. Qed.

Lemma Forall2_Forall_right {A B} (P : A -> B -> Prop) (Q : B -> Prop) l k :
  Forall2 P l k -> (forall x y, P x y -> Q y) -> Forall Q k.
Proof. induction 1; intros HPQ; constructor; eauto. Qed.

Lemma groupby_sum_numeric by_ f sum_cols df out :
  groupby_sum by_ f sum_cols df = Ok out ->
  (forall c, c ∈ sum_cols -> c ∉ by_ ++ ["report_date"]) ->
  numeric_on sum_cols out.
Proof.
  intros H Hdis. split.
  - unfold groupby_sum in H. bind_inv H. bind_inv H. bind_inv H.
    injection H as <-. simpl. intros c Hc.
    apply elem_of_app. by right.
  - apply groupby_sum_rows in H.
    eapply Forall2_Forall_right; [exact H|].
    intros k r' Hr c Hc. rewrite Hr by auto. simpl. eauto.
Qed.

Lemma assign_binop_numeric op c a b cs df :
  numeric_on cs df -> a ∈ cs -> b ∈ cs ->
  exists df', assign_binop op c a b df = Ok df' /\ numeric_on (c :: cs) df' /\
              (forall c', c' ∈ columns df -> c' ∈ columns df').
Proof.
  intros [Hcols Hrows] Ha Hb. unfold assign_binop.
  rewrite require_cols_present.
  2:{ intros c' Hc'. apply elem_of_cons in Hc' as [->|Hc']; [by apply Hcols|].
      apply elem_of_cons in Hc' as [->|Hc']; [by apply Hcols|].
      by apply elem_of_nil in Hc'. }
  simpl.
  rewrite Forall_forall in Hrows.
  destruct (traverse_total
              (fun r : row =>
                 x ← as_float (cell r a); y ← as_float (cell r b);
                 Ok (<[c := VFloat (op x y)]> r)) (rows df)) as [rs Hrs].
  { intros r Hr. destruct (Hrows r Hr a Ha) as [x ->].
    destruct (Hrows r Hr b Hb) as [y ->]. simpl. eauto. }
  rewrite Hrs. simpl. eexists. split; [reflexivity|].
  assert (Hkeep : forall c', c' ∈ columns df ->
            c' ∈ (if bool_decide (c ∈ columns df) then columns df else columns df ++ [c])).
  { intros c' Hc'. case_bool_decide; [done|]. apply elem_of_app. by left. }
  split; [split|]; simpl; [| |exact Hkeep].
  - intros c' Hc'. apply elem_of_cons in Hc' as [->|Hc']; [|by apply Hkeep, Hcols].
    case_bool_decide; [done|]. apply elem_of_app. right. left.
  - apply Forall_forall. intros r' Hr' c' Hc'.
    apply traverse_Ok_Forall2 in Hrs.
    apply list_elem_of_lookup in Hr' as [i Hi].
    destruct (Forall2_lookup_r _ _ _ _ _ Hrs Hi) as (r & Hr & Hf).
    bind_inv Hf. bind_inv Hf. injection Hf as <-.
    destruct (decide (c = c')) as [->|Hne].
    + rewrite cell_insert_eq. simpl. eauto.
    + rewrite cell_insert_ne by done.
      apply elem_of_cons in Hc' as [->|Hc']; [done|].
      apply (Hrows r); [|done]. apply list_elem_of_lookup. eauto.
Qed.

Lemma assign_binop_dated op c a b by_ df df' :
  assign_binop op c a b df = Ok df' -> c <> "report_date" ->
  dated by_ df -> dated by_ df'.
Proof.
  intros H Hc [Hcols Hrows].
  pose proof (assign_binop_rows _ _ _ _ _ _ H) as Hr.
  split.
  - intros c' Hc'. unfold assign_binop in H. bind_inv H. bind_inv H.
    injection H as <-. simpl. case_bool_decide; [by apply Hcols|].
    apply elem_of_app. left. by apply Hcols.
  - rewrite Hr. apply Forall_fmap. eapply Forall_impl; [exact Hrows|].
    intros r [d Hd]. simpl. rewrite cell_insert_ne by done. eauto.
Qed.

Lemma keyed_rows_total by_ f rs :
  Forall (fun r : row => exists d, datetime_index (cell r "report_date") = Ok d) rs ->
  exists keyed, keyed_rows by_ f rs = Ok keyed.
Proof.
  induction 1 as [|r rs [d Hd] _ [keyed IH]]; simpl; [eauto|].
  unfold group_key. rewrite Hd. simpl. rewrite IH.
  destruct d as [d|]; simpl; [|eauto].
  destruct (forallb _ _); simpl; eauto.
Qed.

Lemma groupby_sum_total by_ f sum_cols df :
  numeric_on sum_cols df -> dated by_ df ->
  exists out, groupby_sum by_ f sum_cols df = Ok out.
Proof.
  intros [Hcols Hrows] [Hkeys Hdates]. unfold groupby_sum.
  rewrite require_cols_present.
  2:{ intros c Hc. apply elem_of_cons in Hc as [->|Hc]; [apply Hkeys; left|].
      apply elem_of_app in Hc as [Hc|Hc]; [apply Hkeys; by right|by apply Hcols]. }
  simpl. destruct (keyed_rows_total by_ f _ Hdates) as [keyed Hk].
  rewrite Hk. simpl.
  destruct (traverse_total (agg_row (by_ ++ ["report_date"]) sum_cols) (groups keyed))
    as [rs Hrs]; [|rewrite Hrs; simpl; eauto].
  intros [k g] Hkg. rewrite (groups_buckets _ _ _ _ Hk) in Hkg.
  apply list_elem_of_fmap in Hkg as (k' & [= -> ->] & _).
  unfold agg_row. simpl.
  destruct (traverse_total
              (fun c => x ← group_sum c (bucket_rows by_ f k' (rows df)); Ok (c, VFloat x))
              sum_cols) as [sums Hs]; [|rewrite Hs; simpl; eauto].
  intros c Hc. unfold group_sum.
  destruct (traverse_total (fun r : row => as_float (cell r c))
              (bucket_rows by_ f k' (rows df))) as [xs Hxs]; [|rewrite Hxs; simpl; eauto].
  intros r Hr. unfold bucket_rows in Hr. apply list_elem_of_filter in Hr as [_ Hr].
  rewrite Forall_forall in Hrows. by apply (Hrows r).
Qed.

Lemma numeric_on_weaken cs cs' df :
  numeric_on cs df -> (forall c, c ∈ cs' -> c ∈ cs) -> numeric_on cs' df.
Proof.
  intros [Hcols Hrows] Hsub. split; [auto|].
  eapply Forall_impl; [exact Hrows|]. intros r Hr c Hc. auto.
Qed.

(** Membership of one literal list in another. *)
Ltac literal_subset :=
  let c := fresh "c" in
  let Hc := fresh "Hc" in
  intros c Hc;
  repeat (apply elem_of_cons in Hc as [->|Hc]);
  [by_compute .. | by apply elem_of_nil in Hc].

Lemma drop_cols_total labels df :
  (forall c, c ∈ labels -> c ∈ columns df) -> exists df', drop_cols labels df = Ok df'.
Proof.
  intros H. unfold drop_cols. rewrite require_cols_present by done. simpl. eauto.
Qed.

Lemma generation_fuel_aggregate_total f gf_df :
  numeric_on ["fuel_consumed_total"; "fuel_consumed_for_electricity";
              "fuel_consumed_total_mmbtu"; "fuel_consumed_for_electricity_mmbtu";
              "net_generation_mwh"] gf_df ->
  dated ["plant_id"; "aer_fuel_category"] gf_df ->
  exists out, generation_fuel_aggregate f gf_df = Ok out.
Proof.
  intros Hnum Hdate. unfold generation_fuel_aggregate.
  destruct (groupby_sum_total _ f _ _ Hnum Hdate) as [agg Hagg].
  rewrite Hagg. simpl.
  apply groupby_sum_numeric in Hagg; [|literal_subset].
  destruct (assign_binop_numeric PrimFloat.div "fuel_mmbtu_per_unit"
              "fuel_consumed_total_mmbtu" "fuel_consumed_total" _ _ Hagg)
    as (out & Hout & _); [by_compute|by_compute|].
  eauto.
Qed.

Lemma frc_aggregate_total f frc_df :
  numeric_on ["fuel_quantity"; "ash_content_pct"; "sulfur_content_pct";
              "mercury_content_ppm"; "total_heat_content_mmbtu"; "total_fuel_cost"]
             frc_df ->
  dated ["plant_id"; "energy_source_simple"] frc_df ->
  exists out, frc_aggregate f frc_df = Ok out.
Proof.
  intros Hnum Hdate. unfold frc_aggregate.
  destruct (assign_binop_numeric PrimFloat.mul "total_ash_content"
              "ash_content_pct" "fuel_quantity" _ _ Hnum)
    as (df1 & H1 & Hn1 & _); [by_compute|by_compute|].
  rewrite H1. simpl. eapply assign_binop_dated in Hdate; [|exact H1|done].
  destruct (assign_binop_numeric PrimFloat.mul "total_sulfur_content"
              "sulfur_content_pct" "fuel_quantity" _ _ Hn1)
    as (df2 & H2 & Hn2 & _); [by_compute|by_compute|].
  rewrite H2. simpl. eapply assign_binop_dated in Hdate; [|exact H2|done].
  destruct (assign_binop_numeric PrimFloat.mul "total_mercury_content"
              "mercury_content_ppm" "fuel_quantity" _ _ Hn2)
    as (df3 & H3 & Hn3 & _); [by_compute|by_compute|].
  rewrite H3. simpl. eapply assign_binop_dated in Hdate; [|exact H3|done].
  eapply (numeric_on_weaken _
            ["fuel_quantity"; "total_heat_content_mmbtu"; "total_fuel_cost";
             "total_sulfur_content"; "total_ash_content"; "total_mercury_content"])
    in Hn3; [|literal_subset].
  destruct (groupby_sum_total _ f _ _ Hn3 Hdate) as [agg Hagg].
  rewrite Hagg. simpl.
  apply groupby_sum_numeric in Hagg; [|literal_subset].
  destruct (assign_binop_numeric PrimFloat.div "fuel_cost_per_mmbtu"
              "total_fuel_cost" "total_heat_content_mmbtu" _ _ Hagg)
    as (df5 & H5 & Hn5 & _); [by_compute|by_compute|].
  rewrite H5. simpl.
  destruct (assign_binop_numeric PrimFloat.div "heat_content_mmbtu_per_unit"
              "total_heat_content_mmbtu" "fuel_quantity" _ _ Hn5)
    as (df6 & H6 & Hn6 & _); [by_compute|by_compute|].
  rewrite H6. simpl.
  destruct (assign_binop_numeric PrimFloat.div "sulfur_content_pct"
              "total_sulfur_content" "fuel_quantity" _ _ Hn6)
    as (df7 & H7 & Hn7 & _); [by_compute|by_compute|].
  rewrite H7. simpl.
  destruct (assign_binop_numeric PrimFloat.div "ash_content_pct"
              "total_ash_content" "fuel_quantity" _ _ Hn7)
    as (df8 & H8 & Hn8 & _); [by_compute|by_compute|].
  rewrite H8. simpl.
  destruct (assign_binop_numeric PrimFloat.div "mercury_content_ppm"
              "total_mercury_content" "fuel_quantity" _ _ Hn8)
    as (df9 & H9 & [Hc9 _] & _); [by_compute|by_compute|].
  rewrite H9. simpl.
  apply drop_cols_total. intros c Hc. apply Hc9. revert c Hc. literal_subset.
Qed.

Lemma boiler_fuel_aggregate_total f bf_df :
  numeric_on ["fuel_qty_consumed"; "sulfur_content_pct"; "ash_content_pct";
              "total_heat_content_mmbtu"] bf_df ->
  dated ["plant_id"; "boiler_id"; "fuel_type_simple"] bf_df ->
  exists out, boiler_fuel_aggregate f bf_df = Ok out.
Proof.
  intros Hnum Hdate. unfold boiler_fuel_aggregate.
  destruct (assign_binop_numeric PrimFloat.mul "total_sulfur_content"
              "fuel_qty_consumed" "sulfur_content_pct" _ _ Hnum)
    as (df1 & H1 & Hn1 & _); [by_compute|by_compute|].
  rewrite H1. simpl. eapply assign_binop_dated in Hdate; [|exact H1|done].
  destruct (assign_binop_numeric PrimFloat.mul "total_ash_content"
              "fuel_qty_consumed" "ash_content_pct" _ _ Hn1)
    as (df2 & H2 & Hn2 & _); [by_compute|by_compute|].
  rewrite H2. simpl. eapply assign_binop_dated in Hdate; [|exact H2|done].
  eapply (numeric_on_weaken _
            ["total_heat_content_mmbtu"; "fuel_qty_consumed";
             "total_sulfur_content"; "total_ash_content"])
    in Hn2; [|literal_subset].
  destruct (groupby_sum_total _ f _ _ Hn2 Hdate) as [agg Hagg].
  rewrite Hagg. simpl.
  apply groupby_sum_numeric in Hagg; [|literal_subset].
  destruct (assign_binop_numeric PrimFloat.div "fuel_mmbtu_per_unit"
              "total_heat_content_mmbtu" "fuel_qty_consumed" _ _ Hagg)
    as (df4 & H4 & Hn4 & _); [by_compute|by_compute|].
  rewrite H4. simpl.
  destruct (assign_binop_numeric PrimFloat.div "sulfur_content_pct"
              "total_sulfur_content" "fuel_qty_consumed" _ _ Hn4)
    as (df5 & H5 & Hn5 & _); [by_compute|by_compute|].
  rewrite H5. simpl.
  destruct (assign_binop_numeric PrimFloat.div "ash_content_pct"
              "total_ash_content" "fuel_qty_consumed" _ _ Hn5)
    as (df6 & H6 & [Hc6 _] & _); [by_compute|by_compute|].
  rewrite H6. simpl.
  apply drop_cols_total. intros c Hc. apply Hc6. revert c Hc. literal_subset.
Qed.

Lemma is_ok_Ok {A} (m : result A) : is_ok m = true -> exists a, m = Ok a.
Proof. destruct m; [eauto|discriminate]. Qed.

Lemma numericb_numeric_on cs df : numericb cs df = true -> numeric_on cs df.
Proof.
  unfold numericb. intros H. apply andb_true_iff in H as [Hc Hr].
  rewrite forallb_forall in Hc, Hr. split.
  - intros c Hin. apply list_elem_of_In, Hc in Hin. by apply bool_decide_eq_true in Hin.
  - apply Forall_forall. intros r Hin c Hcin.
    apply list_elem_of_In, Hr in Hin. rewrite forallb_forall in Hin.
    apply list_elem_of_In, Hin in Hcin. by apply is_ok_Ok.
Qed.

Lemma datedb_dated by_ df : datedb by_ df = true -> dated by_ df.
Proof.
  unfold datedb. intros H. apply andb_true_iff in H as [Hc Hr].
  rewrite forallb_forall in Hc, Hr. split.
  - intros c Hin. apply list_elem_of_In, Hc in Hin. by apply bool_decide_eq_true in Hin.
  - apply Forall_forall. intros r Hin.
    apply list_elem_of_In, Hr in Hin. by apply is_ok_Ok.
Qed.




(** ** Weighted averages (C4) and zero denominators (C8) *)

Lemma col_sum_ext (ext : row -> row) c g :
  (forall r, cell (ext r) c = cell r c) -> col_sum c (map ext g) = col_sum c g.
Proof. intros H. apply col_sum_map. intros r. by rewrite H. Qed.





(** C8 (as amended): on a well-typed frame the aggregation returns whatever
    the sums are; a recomputed ratio is the binary64 quotient of its two
    sums, so for a bucket whose denominator sums to zero the ratio cell is
    missing when the numerator sum is zero or [nan], and infinite when it is
    not; the sums of the bucket are produced either way. *)
Theorem zero_denominator_ratio (f : freq) (gf_df frc_df : DataFrame) :
  (numericb gf_measures gf_df = true -> datedb gf_keys gf_df = true ->
   exists out, generation_fuel_aggregate f gf_df = Ok out /\
     Forall2 (gf_ratios f gf_df) (bucket_keys gf_keys f (rows gf_df)) (rows out)) /\
  (numericb frc_measures frc_df = true -> datedb frc_keys frc_df = true ->
   exists out, frc_aggregate f frc_df = Ok out /\
     Forall2 (frc_ratios f frc_df) (bucket_keys frc_keys f (rows frc_df)) (rows out)).
Proof.
  split.
  - intros Hn Hd. apply numericb_numeric_on in Hn. apply datedb_dated in Hd.
    destruct (generation_fuel_aggregate_total f _ Hn Hd) as [out Hout].
    exists out. split; [done|].
    eapply Forall2_impl; [exact (generation_fuel_aggregate_rows _ _ _ Hout)|].
    intros k r' (Hq & Hh & Hnet & Hr).
    unfold gf_ratios. rewrite Hr. split; [apply ratio_cell_div|done].
  - intros Hn Hd. apply numericb_numeric_on in Hn. apply datedb_dated in Hd.
    destruct (frc_aggregate_total f _ Hn Hd) as [out Hout].
    exists out. split; [done|].
    eapply Forall2_impl; [exact (frc_aggregate_rows _ _ _ Hout)|].
    intros k r' (Hq & Hcost & Hheat & Hs & Ha & Hm).
    unfold frc_ratios. rewrite Hcost, Hheat, Hs, Ha, Hm.
    split; [done|]. do 4 (split; [apply ratio_cell_div|]). apply ratio_cell_div.
Qed.

(** The fractions of two deliveries of equal quantity: the weighted mean
    coincides with the plain mean of 1 and 3. *)
Example equal_quantities_weighted_is_plain_mean :
  column_cells "sulfur_content_pct"
    <$> (frc_totals frc_equal_quantities ≫= frc_aggregate MS) = Ok [VFloat 2%float].
Proof. vm_compute. reflexivity. Qed.



(** C8, the claim as stated fails: a bucket of [generation_fuel_eia923]
    whose fuel units sum to zero while its heat sums to 5 gets an infinite
    heat content per unit, which pandas does not count as missing. *)
Lemma heat_without_units_gives_infinity :
  column_cells "fuel_consumed_total"
    <$> generation_fuel_aggregate YS gf_heat_without_units = Ok [VFloat 0%float] /\
  column_cells "fuel_mmbtu_per_unit"
    <$> generation_fuel_aggregate YS gf_heat_without_units
    = Ok [VFloat PrimFloat.infinity] /\
  isna (VFloat PrimFloat.infinity) = false.
Proof. repeat split; vm_compute; reflexivity. Qed.

Lemma zero_denominator_ratio_witness :
  (exists out, generation_fuel_aggregate YS gf_heat_without_units = Ok out /\
     Forall2 (gf_ratios YS gf_heat_without_units)
             (bucket_keys gf_keys YS (rows gf_heat_without_units)) (rows out)) /\
  (exists out, frc_aggregate YS frc_two_deliveries_totals = Ok out /\
     Forall2 (frc_ratios YS frc_two_deliveries_totals)
             (bucket_keys frc_keys YS (rows frc_two_deliveries_totals)) (rows out)).
Proof.
  destruct (zero_denominator_ratio YS gf_heat_without_units frc_two_deliveries_totals)
    as (Hgf & Hfrc).
  split; [apply Hgf | apply Hfrc]; vm_compute; reflexivity.
Defined.

(** ** Witnesses of the column organizer and of the foreign-key check *)

(** The example of the specification: lead columns A, B and data columns
    D, C come out as A, B, C, D. *)
Example organize_cols_abcd :
  columns <$> organize_cols abcd_frame ["A"; "B"] = Ok ["A"; "B"; "C"; "D"].
Proof. vm_compute. reflexivity. Qed.

Lemma organize_cols_order_witness :
  exists out rest,
    organize_cols abcd_frame ["A"; "B"] = Ok out /\
    columns out = ["A"; "B"] ++ rest /\
    rest ≡ₚ filter (fun c => c ∉ ["A"; "B"]) (columns abcd_frame) /\
    Sorted (fun a b => String.leb a b = true) rest /\
    length (rows out) = length (rows abcd_frame) /\
    (forall i r, rows abcd_frame !! i = Some r ->
       exists r', rows out !! i = Some r' /\
                  forall c, c ∈ columns abcd_frame -> r' !! c = r !! c).
Proof.
  apply (organize_cols_order abcd_frame ["A"; "B"]).
  - by_compute.
  - literal_subset.
Defined.

Lemma organize_cols_unknown_lead_witness :
  organize_cols abcd_frame ["A"; "Z"]
    = Raise (KeyError (missing_labels abcd_frame ["A"; "Z"])) /\
  "Z" ∈ missing_labels abcd_frame ["A"; "Z"].
Proof. apply (organize_cols_unknown_lead abcd_frame ["A"; "Z"] "Z"); by_compute. Defined.

Example check_foreign_keys_generators :
  check_foreign_keys generators_db =
    Raise (ForeignKeyErrors
             [{| child_table := "generators"; parent_table := "plants";
                 foreign_key := "(plant_id, report_year)"; rowids := [3; 5]%Z |};
              {| child_table := "generators"; parent_table := "utilities";
                 foreign_key := "(utility_id)"; rowids := [5]%Z |}]).
Proof. vm_compute. reflexivity. Qed.

Lemma check_foreign_keys_report_witness :
  exists errors,
    check_foreign_keys generators_db = Raise (ForeignKeyErrors errors) /\
    NoDup (map error_group errors) /\
    (forall g, g ∈ map error_group errors <->
               exists e, e ∈ foreign_key_check generators_db /\
                         group_of_violation generators_db e = g) /\
    (forall err, err ∈ errors ->
       rowids err =
         map fc_rowid (filter (fun e => group_of_violation generators_db e = error_group err)
                              (foreign_key_check generators_db))).
Proof.
  destruct (check_foreign_keys_report generators_db) as (_ & Hraise & Hgroups & _).
  destruct Hraise as [errors Herr]; [discriminate|].
  exists errors. split; [exact Herr|].
  apply Hgroups; [vm_compute; reflexivity | exact Herr].
Defined.

(** ** The foreign-key listing of a child with two constraints on one parent (C1) *)

(** C1, the code at the failing input: [ownership] declares two
    constraints on [utilities], one per field.  The listing keeps one row per
    constraint id, but both rows carry the fields of both constraints as
    their descriptor, and the check then reports the violations of the two
    constraints as one. *)
Theorem get_fk_list_two_constraints_one_parent :
  _get_fk_list ownership_db "ownership" =
    [{| fkid := 0; parent := "utilities"; fk := "(utility_id, utility_id)";
        table := "ownership" |};
     {| fkid := 1; parent := "utilities"; fk := "(utility_id, utility_id)";
        table := "ownership" |}] /\
  check_foreign_keys ownership_db =
    Raise (ForeignKeyErrors
             [{| child_table := "ownership"; parent_table := "utilities";
                 foreign_key := "(utility_id, utility_id)"; rowids := [4; 9]%Z |}]).
Proof. split; vm_compute; reflexivity. Qed.

(** ** The loader (C3, C10) *)

Lemma table_contents_set_tables tbls self t :
  table_contents (set_tables tbls self) t = tbls !! t.
Proof. reflexivity. Qed.

(** C10: writing a frame to a table that the metadata does not register
    succeeds, the frame's rows become the table's complete content, other
    tables are untouched, and one warning record is logged. *)
Theorem handle_pandas_output_unregistered (self : SQLiteIOManager) (context : Context)
    (df : DataFrame) :
  md_tables self !! _get_table_name context = None ->
  exists self',
    _handle_pandas_output self context df = (Ok tt, self') /\
    table_contents self' (_get_table_name context) = Some (rows df) /\
    (exists r, log self' = log self ++ [r] /\ levelname r = WARNING) /\
    (forall t, t <> _get_table_name context ->
               table_contents self' t = table_contents self t).
Proof.
  intros Hmd. unfold _handle_pandas_output, _get_sqlalchemy_table.
  rewrite Hmd. unfold to_sql_replace. eexists. split; [reflexivity|].
  rewrite !table_contents_set_tables. simpl.
  split; [by rewrite lookup_insert_eq|].
  split; [eexists; split; [reflexivity|reflexivity]|].
  intros t Ht. rewrite table_contents_set_tables. simpl.
  by rewrite lookup_insert_ne.
Qed.

Lemma handle_pandas_output_unregistered_witness :
  exists self',
    _handle_pandas_output plants_manager analysis_context plants_complete = (Ok tt, self') /\
    table_contents self' (_get_table_name analysis_context) = Some (rows plants_complete) /\
    (exists r, log self' = log plants_manager ++ [r] /\ levelname r = WARNING) /\
    (forall t, t <> _get_table_name analysis_context ->
               table_contents self' t = table_contents plants_manager t).
Proof.
  apply (handle_pandas_output_unregistered plants_manager analysis_context plants_complete).
  vm_compute. reflexivity.
Defined.

(** C3 (as amended): a write to a registered table deletes the old rows
    and then inserts the new ones as a step of its own.  Whatever the
    database answers to the insert, the old rows are gone: if it accepts,
    the table holds what the insert stored into the emptied table; if it
    refuses, the call raises the database's error and the table is left
    empty, the delete is not undone.  Other tables and the log are untouched
    either way. *)
Theorem handle_pandas_output_registered (self : SQLiteIOManager) (context : Context)
    (df : DataFrame) (sa_table : Table) (old : list row) :
  md_tables self !! _get_table_name context = Some sa_table ->
  table_contents self (_get_table_name context) = Some old ->
  exists self',
    _handle_pandas_output self context df =
      (match insert_rows (db self) (_get_table_name context) [] df with
       | Ok _ => Ok tt
       | Raise e => Raise e
       end, self') /\
    table_contents self' (_get_table_name context) =
      Some (match insert_rows (db self) (_get_table_name context) [] df with
            | Ok stored => stored
            | Raise _ => []
            end) /\
    log self' = log self /\
    (forall t, t <> _get_table_name context ->
               table_contents self' t = table_contents self t).
Proof.
  intros Hmd Hold. unfold _handle_pandas_output, _get_sqlalchemy_table.
  rewrite Hmd. unfold execute_delete.
  unfold table_contents in Hold. rewrite Hold.
  unfold to_sql_append. cbn [db set_tables db_tables insert_rows].
  rewrite lookup_insert_eq. cbn [default from_option id].
  destruct (insert_rows (db self) (_get_table_name context) [] df) as [stored|e].
  - eexists. split; [reflexivity|].
    rewrite !table_contents_set_tables. cbn [db set_tables db_tables].
    rewrite !lookup_insert_eq.
    split; [done|]. split; [done|].
    intros t Ht. rewrite table_contents_set_tables. cbn [db set_tables db_tables].
    by rewrite !lookup_insert_ne.
  - eexists. split; [reflexivity|].
    rewrite !table_contents_set_tables.
    rewrite lookup_insert_eq.
    split; [done|]. split; [done|].
    intros t Ht. rewrite table_contents_set_tables.
    by rewrite lookup_insert_ne.
Qed.

Lemma handle_pandas_output_registered_witness :
  exists self',
    _handle_pandas_output plants_manager plants_context plants_complete =
      (match insert_rows (db plants_manager) (_get_table_name plants_context) []
               plants_complete with
       | Ok _ => Ok tt
       | Raise e => Raise e
       end, self') /\
    table_contents self' (_get_table_name plants_context) =
      Some (match insert_rows (db plants_manager) (_get_table_name plants_context) []
                    plants_complete with
            | Ok stored => stored
            | Raise _ => []
            end) /\
    log self' = log plants_manager /\
    (forall t, t <> _get_table_name plants_context ->
               table_contents self' t = table_contents plants_manager t).
Proof.
  apply (handle_pandas_output_registered plants_manager plants_context plants_complete
           plants_table [plant_row (VInt 1) "Barry"]); vm_compute; reflexivity.
Defined.

(** The accepted write replaces the plant the table held by the two of the
    frame. *)
Example handle_pandas_output_plants :
  (let '(r, s) := _handle_pandas_output plants_manager plants_context plants_complete in
   (r, table_contents s "plants"))
  = (Ok tt, Some (rows plants_complete)).
Proof. vm_compute. reflexivity. Qed.

(** C3, the claim as stated fails: the write of a frame with a row that
    lacks its [NOT NULL] key raises, and the plant the table held before is
    gone. *)
Lemma failed_write_leaves_table_empty :
  table_contents plants_manager "plants" = Some [plant_row (VInt 1) "Barry"] /\
  (let '(r, s) := _handle_pandas_output plants_manager plants_context plants_missing_key in
   (r, table_contents s "plants"))
  = (Raise (IntegrityError "constraint failed"), Some []).
Proof. split; vm_compute; reflexivity. Qed.

(** ** Essential keys and identifier types (C5) *)

Lemma dropna_present subset df out c :
  dropna subset df = Ok out -> c ∈ subset -> Forall (present c) (rows out).
Proof.
  intros H Hc. apply dropna_rows in H as [_ ->].
  apply Forall_forall. intros r Hr.
  apply list_elem_of_filter in Hr as [Hr _].
  apply Is_true_true in Hr. unfold complete_on in Hr.
  rewrite forallb_forall in Hr. apply list_elem_of_In, Hr in Hc.
  by apply negb_true_iff in Hc.
Qed.

Lemma dropna_keeps (Q : row -> Prop) subset df out :
  dropna subset df = Ok out -> Forall Q (rows df) -> Forall Q (rows out).
Proof.
  intros H HQ. apply dropna_rows in H as [_ ->].
  rewrite Forall_forall in *. intros r Hr.
  apply list_elem_of_filter in Hr as [_ Hr]. auto.
Qed.

Lemma dropna_total subset df :
  (forall c, c ∈ subset -> c ∈ columns df) ->
  dropna subset df =
    Ok {| columns := columns df;
          rows := filter (fun r => complete_on subset r) (rows df) |}.
Proof. intros H. unfold dropna. by rewrite require_cols_present. Qed.

Lemma organize_cols_cells df cols out :
  organize_cols df cols = Ok out ->
  exists labels : list string,
    (forall c, c ∈ cols -> c ∈ labels) /\
    rows out = map (fun r : row => filter (fun kv => kv.1 ∈ labels) r) (rows df).
Proof.
  unfold organize_cols, getitem_list. intros H.
  destruct (missing_labels df _); [|discriminate].
  injection H as <-. eexists. split; [|reflexivity].
  intros c Hc. apply elem_of_app. by left.
Qed.

Lemma organize_cols_keeps (Q : value -> Prop) df cols out c :
  organize_cols df cols = Ok out -> c ∈ cols ->
  Forall (fun r => Q (cell r c)) (rows df) -> Forall (fun r => Q (cell r c)) (rows out).
Proof.
  intros H Hc HQ. apply organize_cols_cells in H as (labels & Hl & ->).
  apply Forall_fmap. eapply Forall_impl; [exact HQ|].
  intros r Hr. simpl. rewrite cell_select; auto.
Qed.

Lemma astype_int_rows c df out :
  astype_int c df = Ok out ->
  Forall2 (fun r r' : row => exists z, r' = <[c := VInt z]> r) (rows df) (rows out).
Proof.
  unfold astype_int. intros H. bind_inv H. bind_inv H. injection H as <-. simpl.
  apply traverse_Ok_Forall2 in Hx0.
  eapply Forall2_impl; [exact Hx0|].
  intros r r' Hr. simpl in Hr. bind_inv Hr. injection Hr as <-.
  destruct (cell r c) as [z|y|s|d|]; simpl in Hx1.
  - injection Hx1 as <-. eauto.
  - destruct (float_trunc y); [injection Hx1 as <-; eauto|discriminate].
  - destruct (parse_int s); [injection Hx1 as <-; eauto|discriminate].
  - discriminate.
  - discriminate.
Qed.

Lemma astype_int_int c df out :
  astype_int c df = Ok out -> Forall (int_at c) (rows out).
Proof.
  intros H. eapply Forall2_Forall_right; [exact (astype_int_rows _ _ _ H)|].
  intros r r' [z ->]. exists z. apply cell_insert_eq.
Qed.

Lemma astype_int_keeps_int c c' df out :
  astype_int c' df = Ok out -> Forall (int_at c) (rows df) -> Forall (int_at c) (rows out).
Proof.
  intros H Hint. pose proof (astype_int_rows _ _ _ H) as H2.
  clear H. induction H2 as [|r r' rs rs' [z ->] _ IH]; [constructor|].
  apply Forall_cons in Hint as [Hr Hrs]. constructor; [|auto].
  destruct (decide (c' = c)) as [->|Hne].
  - exists z. apply cell_insert_eq.
  - destruct Hr as [z' Hz']. exists z'. by rewrite cell_insert_ne.
Qed.

Lemma int_at_present c r : int_at c r -> present c r.
Proof. intros [z Hz]. unfold present. by rewrite Hz. Qed.

Lemma astype_int_keeps_present c c' df out :
  astype_int c' df = Ok out -> Forall (present c) (rows df) -> Forall (present c) (rows out).
Proof.
  intros H Hp. pose proof (astype_int_rows _ _ _ H) as H2.
  clear H. induction H2 as [|r r' rs rs' [z ->] _ IH]; [constructor|].
  apply Forall_cons in Hp as [Hr Hrs]. constructor; [|auto].
  unfold present in *. destruct (decide (c' = c)) as [->|Hne].
  - by rewrite cell_insert_eq.
  - by rewrite cell_insert_ne.
Qed.

Lemma complete_on_intro subset (rs : list row) :
  (forall c, c ∈ subset -> Forall (present c) rs) ->
  Forall (fun r => complete_on subset r = true) rs.
Proof.
  intros H. apply Forall_forall. intros r Hr.
  unfold complete_on. apply forallb_forall. intros c Hc.
  apply list_elem_of_In, H in Hc. rewrite Forall_forall in Hc.
  apply negb_true_iff. by apply Hc.
Qed.

(** After [dropna] and [organize_cols]: the cells of an essential lead
    column are present. *)
Lemma dropna_organize_present c subset cols d0 d1 d2 :
  dropna subset d0 = Ok d1 -> organize_cols d1 cols = Ok d2 ->
  c ∈ subset -> c ∈ cols -> Forall (present c) (rows d2).
Proof.
  intros Hd Ho Hs Hc.
  apply (organize_cols_keeps (fun v => isna v = false) _ _ _ _ Ho Hc).
  by eapply dropna_present.
Qed.

Lemma Forall_int_present c (rs : list row) :
  Forall (int_at c) rs -> Forall (present c) rs.
Proof. intros H. eapply Forall_impl; [exact H|]. intros r. apply int_at_present. Qed.

Lemma generation_eia923_keys m eng fr s e out :
  generation_eia923 m eng fr s e = Ok out ->
  (forall c, c ∈ ["plant_id"; "plant_id_pudl"; "operator_id"; "util_id_pudl";
                  "generator_id"] -> Forall (present c) (rows out)) /\
  Forall (int_at "plant_id_pudl") (rows out) /\
  Forall (int_at "util_id_pudl") (rows out).
Proof.
  unfold generation_eia923. intros H. do 9 bind_inv H.
  split; [|split].
  - intros c Hc.
    eapply astype_int_keeps_present; [exact H|].
    eapply astype_int_keeps_present; [exact Hx7|].
    eapply astype_int_keeps_present; [exact Hx6|].
    eapply dropna_organize_present; [exact Hx4|exact Hx5|exact Hc|].
    revert c Hc. literal_subset.
  - by eapply astype_int_int.
  - eapply astype_int_keeps_int; [exact H|]. by eapply astype_int_int.
Qed.

Lemma generation_fuel_eia923_keys m eng fr s e out :
  generation_fuel_eia923 m eng fr s e = Ok out ->
  (forall c, c ∈ ["plant_id"; "plant_id_pudl"; "plant_name"; "operator_id";
                  "util_id_pudl"; "operator_name"] -> Forall (present c) (rows out)) /\
  Forall (int_at "plant_id_pudl") (rows out) /\
  Forall (int_at "util_id_pudl") (rows out).
Proof.
  unfold generation_fuel_eia923. intros H. do 10 bind_inv H.
  split; [|split].
  - intros c Hc.
    eapply astype_int_keeps_present; [exact H|].
    eapply astype_int_keeps_present; [exact Hx8|].
    eapply astype_int_keeps_present; [exact Hx7|].
    eapply astype_int_keeps_present; [exact Hx6|].
    eapply dropna_organize_present; [exact Hx4|exact Hx5|exact Hc|].
    revert c Hc. literal_subset.
  - eapply astype_int_keeps_int; [exact H|].
    eapply astype_int_keeps_int; [exact Hx8|]. by eapply astype_int_int.
  - by eapply astype_int_int.
Qed.

Lemma boiler_fuel_eia923_keys m eng fr s e out :
  boiler_fuel_eia923 m eng fr s e = Ok out ->
  (forall c, c ∈ ["plant_id"; "plant_id_pudl"; "operator_id"; "util_id_pudl";
                  "boiler_id"] -> Forall (present c) (rows out)) /\
  Forall (int_at "plant_id_pudl") (rows out) /\
  Forall (int_at "util_id_pudl") (rows out).
Proof.
  unfold boiler_fuel_eia923. intros H. do 10 bind_inv H.
  split; [|split].
  - intros c Hc.
    eapply astype_int_keeps_present; [exact H|].
    eapply astype_int_keeps_present; [exact Hx8|].
    eapply astype_int_keeps_present; [exact Hx7|].
    eapply dropna_organize_present; [exact Hx5|exact Hx6|exact Hc|].
    revert c Hc. literal_subset.
  - by eapply astype_int_int.
  - eapply astype_int_keeps_int; [exact H|]. by eapply astype_int_int.
Qed.

Lemma fuel_receipts_costs_eia923_keys m eng fr s e out :
  fuel_receipts_costs_eia923 m eng fr s e = Ok out ->
  (forall c, c ∈ ["operator_id"; "operator_name"; "plant_id"; "plant_id_pudl";
                  "util_id_pudl"] -> Forall (present c) (rows out)) /\
  Forall (int_at "plant_id_pudl") (rows out) /\
  Forall (int_at "util_id_pudl") (rows out).
Proof.
  unfold fuel_receipts_costs_eia923. intros H. do 14 bind_inv H.
  assert (Hpid : Forall (int_at "plant_id") (rows out)).
  { eapply astype_int_keeps_int; [exact H|].
    eapply astype_int_keeps_int; [exact Hx12|].
    eapply astype_int_keeps_int; [exact Hx11|]. by eapply astype_int_int. }
  assert (Hppid : Forall (int_at "plant_id_pudl") (rows out)).
  { eapply astype_int_keeps_int; [exact H|].
    eapply astype_int_keeps_int; [exact Hx12|]. by eapply astype_int_int. }
  assert (Hutil : Forall (int_at "util_id_pudl") (rows out))
    by (by eapply astype_int_int).
  assert (Hop : forall c, c ∈ ["operator_id"; "operator_name"] ->
                          Forall (present c) (rows out)).
  { intros c Hc.
    eapply astype_int_keeps_present; [exact H|].
    eapply astype_int_keeps_present; [exact Hx12|].
    eapply astype_int_keeps_present; [exact Hx11|].
    eapply astype_int_keeps_present; [exact Hx10|].
    apply (organize_cols_keeps (fun v => isna v = false) _ _ _ _ Hx9);
      [revert c Hc; literal_subset|].
    assert (Hx7' : Forall (present c) (rows x7)) by (by eapply dropna_present).
    destruct fr; [by injection Hx8 as <-|by eapply dropna_keeps]. }
  split; [|by split].
  intros c Hc.
  apply elem_of_cons in Hc as [->|Hc]; [apply Hop; by_compute|].
  apply elem_of_cons in Hc as [->|Hc]; [apply Hop; by_compute|].
  apply elem_of_cons in Hc as [->|Hc]; [by apply Forall_int_present|].
  apply elem_of_cons in Hc as [->|Hc]; [by apply Forall_int_present|].
  apply elem_of_cons in Hc as [->|Hc]; [by apply Forall_int_present|].
  by apply elem_of_nil in Hc.
Qed.

(** C5: every row that [generation_eia923], [fuel_receipts_costs_eia923],
    [generation_fuel_eia923] and [boiler_fuel_eia923] return has a value in
    each of the function's essential key columns; [dropna] itself never
    raises on missing values: it returns exactly the rows that are complete
    on the subset, unchanged. *)
Theorem essential_keys_resolved
    (m : DataFrame -> DataFrame -> list string -> result DataFrame)
    (eng : gmap string DataFrame) (fr : option freq) (s e : option date) :
  (forall out, generation_eia923 m eng fr s e = Ok out ->
     Forall (fun r => complete_on ["plant_id"; "plant_id_pudl"; "operator_id";
                                   "util_id_pudl"; "generator_id"] r = true)
            (rows out)) /\
  (forall out, fuel_receipts_costs_eia923 m eng fr s e = Ok out ->
     Forall (fun r => complete_on ["operator_id"; "operator_name"; "plant_id";
                                   "plant_id_pudl"; "util_id_pudl"] r = true)
            (rows out)) /\
  (forall out, generation_fuel_eia923 m eng fr s e = Ok out ->
     Forall (fun r => complete_on ["plant_id"; "plant_id_pudl"; "plant_name";
                                   "operator_id"; "util_id_pudl"; "operator_name"] r = true)
            (rows out)) /\
  (forall out, boiler_fuel_eia923 m eng fr s e = Ok out ->
     Forall (fun r => complete_on ["plant_id"; "plant_id_pudl"; "operator_id";
                                   "util_id_pudl"; "boiler_id"] r = true)
            (rows out)) /\
  (forall subset df, (forall c, c ∈ subset -> c ∈ columns df) ->
     dropna subset df =
       Ok {| columns := columns df;
             rows := filter (fun r => complete_on subset r) (rows df) |}).
Proof.
  split; [|split; [|split; [|split]]].
  - intros out H. apply complete_on_intro. by apply generation_eia923_keys in H as [H _].
  - intros out H. apply complete_on_intro.
    by apply fuel_receipts_costs_eia923_keys in H as [H _].
  - intros out H. apply complete_on_intro.
    by apply generation_fuel_eia923_keys in H as [H _].
  - intros out H. apply complete_on_intro. by apply boiler_fuel_eia923_keys in H as [H _].
  - apply dropna_total.
Qed.

Lemma essential_keys_resolved_witness :
  exists out,
    generation_eia923 merge_on_date_year_spec sample_engine None None None = Ok out /\
    Forall (fun r => complete_on ["plant_id"; "plant_id_pudl"; "operator_id";
                                  "util_id_pudl"; "generator_id"] r = true)
           (rows out).
Proof.
  destruct (generation_eia923 merge_on_date_year_spec sample_engine None None None)
    as [out|err] eqn:E; [|vm_compute in E; discriminate].
  exists out. split; [reflexivity|].
  exact (proj1 (essential_keys_resolved merge_on_date_year_spec sample_engine
                  None None None) out E).
Defined.

(** ** Columns through selections and joins *)

Lemma getitem_list_columns df labels d :
  getitem_list df labels = Ok d ->
  (forall c, c ∈ columns d <-> c ∈ labels) /\ (forall c, c ∈ labels -> c ∈ columns df).
Proof.
  unfold getitem_list. destruct (missing_labels df labels) eqn:E; [|discriminate].
  intros [= <-]. simpl.
  assert (forall c, c ∈ labels -> c ∈ columns df) as Hin.
  { intros c Hc. destruct (decide (c ∈ columns df)) as [|Hn]; [done|].
    assert (c ∈ missing_labels df labels) as Hm by (by apply elem_of_missing_labels).
    rewrite E in Hm. by apply elem_of_nil in Hm. }
  split; [|done]. intros c.
  rewrite list_elem_of_In, in_flat_map. split.
  - intros (l & Hl & Hc). apply list_elem_of_In in Hl, Hc.
    apply list_elem_of_filter in Hc as [-> _]. done.
  - intros Hc. exists c. split; [by apply list_elem_of_In|].
    apply list_elem_of_In, list_elem_of_filter. auto.
Qed.

Lemma read_cols_columns eng name labels d :
  read_cols eng name labels = Ok d -> forall c, c ∈ columns d <-> c ∈ labels.
Proof.
  unfold read_cols. intros H. bind_inv H.
  by apply getitem_list_columns in H as [H _].
Qed.

Lemma suffixed_nil suffix c : suffixed [] suffix c = c.
Proof. unfold suffixed. rewrite bool_decide_eq_false_2; [done|]. apply not_elem_of_nil. Qed.

(** A join of frames that share no column but the keys renames nothing. *)
Lemma pd_merge_columns left right h left_on right_on d :
  pd_merge left right h left_on right_on = Ok d ->
  (forall c, c ∈ columns left -> c ∈ columns right -> c ∈ shared_keys left_on right_on) ->
  columns d = columns left
              ++ filter (fun c => c ∉ shared_keys left_on right_on) (columns right).
Proof.
  unfold pd_merge. intros H Hdis. bind_inv H. bind_inv H. injection H as <-. simpl.
  rewrite (filter_none _ (columns left)).
  - rewrite !(map_ext _ id) by (intros; apply suffixed_nil). by rewrite !map_id.
  - intros c Hc Hin. apply list_elem_of_filter in Hin as [Hn Hr]. apply Hn. by apply Hdis.
Qed.

Lemma astype_int_columns c df out : astype_int c df = Ok out -> columns out = columns df.
Proof. unfold astype_int. intros H. bind_inv H. bind_inv H. by injection H as <-. Qed.

(** Decides membership of a literal label in a literal list, either way. *)
Ltac label_cases H :=
  repeat (apply elem_of_cons in H as [->|H]); [.. | by apply elem_of_nil in H].

Ltac absurd_label H :=
  exfalso; revert H; apply (bool_decide_unpack (¬ _)); vm_compute; exact I.

(** ** [plants_utils_eia] *)

Lemma plants_utils_eia_columns eng out :
  plants_utils_eia eng = Ok out -> forall c, c ∈ columns out <-> c ∈ pu_eia_columns.
Proof.
  unfold plants_utils_eia. intros H.
  bind_inv H. bind_inv H. bind_inv H. bind_inv H. bind_inv H. bind_inv H. bind_inv H.
  bind_inv H. bind_inv H.
  apply astype_int_columns in H, Hx7.
  apply dropna_rows in Hx6 as [Hx6 _].
  pose proof (read_cols_columns _ _ _ _ Hx) as Hpe.
  pose proof (read_cols_columns _ _ _ _ Hx0) as Hue.
  pose proof (read_cols_columns _ _ _ _ Hx2) as Hu.
  pose proof (read_cols_columns _ _ _ _ Hx4) as Hp.
  apply pd_merge_columns in Hx1.
  2:{ intros c H1 H2. apply Hpe in H1. apply Hue in H2.
      label_cases H1; first [by_compute | absurd_label H2]. }
  assert (forall c, c ∈ columns x1 <->
                    c ∈ ["report_date"; "plant_id"; "plant_name"; "operator_id";
                         "operator_name"]) as H1.
  { intros c. rewrite Hx1, elem_of_app, list_elem_of_filter, Hpe, Hue. split.
    - intros [Hc|[Hn Hc]].
      + label_cases Hc; by_compute.
      + label_cases Hc; first [by_compute | exfalso; apply Hn; by_compute].
    - intros Hc. label_cases Hc;
        first [ left; by_compute
              | right; split; [apply (bool_decide_unpack _); vm_compute; exact I | by_compute] ]. }
  apply pd_merge_columns in Hx3.
  2:{ intros c Hc1 Hc2. apply H1 in Hc1. apply Hu in Hc2.
      label_cases Hc1; first [by_compute | absurd_label Hc2]. }
  assert (forall c, c ∈ columns x3 <->
                    c ∈ ["report_date"; "plant_id"; "plant_name"; "operator_id";
                         "operator_name"; "util_id_pudl"]) as H2.
  { intros c. rewrite Hx3, elem_of_app, list_elem_of_filter, H1, Hu. split.
    - intros [Hc|[Hn Hc]].
      + label_cases Hc; by_compute.
      + label_cases Hc; first [by_compute | exfalso; apply Hn; by_compute].
    - intros Hc. label_cases Hc;
        first [ left; by_compute
              | right; split; [apply (bool_decide_unpack _); vm_compute; exact I | by_compute] ]. }
  apply pd_merge_columns in Hx5.
  2:{ intros c Hc1 Hc2. apply H2 in Hc1. apply Hp in Hc2.
      label_cases Hc1; first [by_compute | absurd_label Hc2]. }
  intros c. rewrite H, Hx7, Hx6, Hx5, elem_of_app, list_elem_of_filter, H2, Hp.
  unfold pu_eia_columns. split.
  - intros [Hc|[Hn Hc]].
    + label_cases Hc; by_compute.
    + label_cases Hc; first [by_compute | exfalso; apply Hn; by_compute].
  - intros Hc. label_cases Hc;
      first [ left; by_compute
            | right; split; [apply (bool_decide_unpack _); vm_compute; exact I | by_compute] ].
Qed.

Lemma plants_utils_eia_rows eng out :
  plants_utils_eia eng = Ok out ->
  (forall c, c ∈ columns out -> Forall (present c) (rows out)) /\
  Forall (int_at "plant_id_pudl") (rows out) /\
  Forall (int_at "util_id_pudl") (rows out).
Proof.
  unfold plants_utils_eia. intros H. do 9 bind_inv H.
  split; [|split].
  - intros c Hc.
    rewrite (astype_int_columns _ _ _ H), (astype_int_columns _ _ _ Hx7) in Hc.
    eapply astype_int_keeps_present; [exact H|].
    eapply astype_int_keeps_present; [exact Hx7|].
    unfold dropna_all in Hx6. eapply dropna_present; [exact Hx6|].
    by apply dropna_rows in Hx6 as [<- _].
  - eapply astype_int_keeps_int; [exact H|]. by eapply astype_int_int.
  - by eapply astype_int_int.
Qed.

(** X1: the frame [plants_utils_eia] returns has exactly the seven columns of
    its docstring (with the report date in place of the year), no missing
    cell in any of them, and integer PUDL identifiers. *)
Theorem plants_utils_eia_complete (eng : gmap string DataFrame) (out : DataFrame) :
  plants_utils_eia eng = Ok out ->
  (forall c, c ∈ columns out <-> c ∈ pu_eia_columns) /\
  Forall (fun r => (forall c, c ∈ pu_eia_columns -> present c r) /\
                   int_at "plant_id_pudl" r /\ int_at "util_id_pudl" r) (rows out).
Proof.
  intros H. pose proof (plants_utils_eia_columns _ _ H) as Hc.
  destruct (plants_utils_eia_rows _ _ H) as (Hp & Hi1 & Hi2).
  split; [exact Hc|].
  rewrite Forall_forall in Hi1, Hi2. apply Forall_forall. intros r Hr.
  split; [|split; auto].
  intros c Hin. apply Hc, Hp in Hin. rewrite Forall_forall in Hin. auto.
Qed.

Lemma plants_utils_eia_complete_witness :
  exists out,
    plants_utils_eia sample_engine = Ok out /\
    rows out <> [] /\
    (forall c, c ∈ columns out <-> c ∈ pu_eia_columns) /\
    Forall (fun r => (forall c, c ∈ pu_eia_columns -> present c r) /\
                     int_at "plant_id_pudl" r /\ int_at "util_id_pudl" r) (rows out).
Proof.
  destruct (plants_utils_eia sample_engine) as [out|err] eqn:E;
    [|vm_compute in E; discriminate].
  exists out. split; [reflexivity|]. split.
  - intros Hr. apply (f_equal (@length row)) in Hr.
    assert (length <$> (rows <$> plants_utils_eia sample_engine) = Ok 1) as Hl
      by (vm_compute; reflexivity).
    rewrite E in Hl. simpl in Hl. injection Hl as Hl. rewrite Hl in Hr. discriminate.
  - exact (plants_utils_eia_complete sample_engine out E).
Defined.

(** X2: [ownership_eia860] never returns a frame.  It selects [report_year]
    from the frame of [plants_utils_eia], which has no such column: whenever
    the ownership table can be read and [plants_utils_eia] returns, the call
    raises [KeyError] for [report_year]. *)
Theorem ownership_eia860_raises (eng : gmap string DataFrame) :
  (exists e, ownership_eia860 eng = Raise e) /\
  (forall o_df pu_eia,
     read_table eng "ownership_eia860" = Ok o_df ->
     plants_utils_eia eng = Ok pu_eia ->
     ownership_eia860 eng = Raise (KeyError ["report_year"])).
Proof.
  assert (forall o_df pu_eia,
     read_table eng "ownership_eia860" = Ok o_df ->
     plants_utils_eia eng = Ok pu_eia ->
     ownership_eia860 eng = Raise (KeyError ["report_year"])) as Hkey.
  { intros o_df pu_eia Ho Hpu. unfold ownership_eia860. rewrite Ho, Hpu. simpl.
    pose proof (plants_utils_eia_columns _ _ Hpu) as Hc.
    assert (missing_labels pu_eia ["plant_id"; "plant_id_pudl"; "util_id_pudl"; "report_year"]
            = ["report_year"]) as Hm.
    { unfold missing_labels.
      do 3 (rewrite filter_cons_False by (intros Hn; apply Hn, Hc; by_compute)).
      rewrite filter_cons_True; [done|].
      intros Hin. apply Hc in Hin. absurd_label Hin. }
    unfold getitem_list. by rewrite Hm. }
  split; [|exact Hkey].
  destruct (read_table eng "ownership_eia860") as [o_df|e] eqn:Ho.
  - destruct (plants_utils_eia eng) as [pu_eia|e] eqn:Hpu.
    + eexists. by eapply Hkey.
    + exists e. unfold ownership_eia860. by rewrite Ho, Hpu.
  - exists e. unfold ownership_eia860. by rewrite Ho.
Qed.

(** On a store whose every table can be read. *)
Example ownership_eia860_sample :
  is_ok (read_table ownership_engine "ownership_eia860") = true /\
  is_ok (plants_utils_eia ownership_engine) = true /\
  ownership_eia860 ownership_engine = Raise (KeyError ["report_year"]).
Proof. repeat split; vm_compute; reflexivity. Qed.

(** X3: the identifier columns each EIA 923 function casts with [astype(int)]
    hold integers in every returned row: the operator identifier in all four,
    the plant identifier in [generation_fuel_eia923] and
    [fuel_receipts_costs_eia923]. *)
Theorem cast_identifiers_integral
    (m : DataFrame -> DataFrame -> list string -> result DataFrame)
    (eng : gmap string DataFrame) (fr : option freq) (s e : option date) :
  (forall out, generation_fuel_eia923 m eng fr s e = Ok out ->
     Forall (fun r => int_at "plant_id" r /\ int_at "operator_id" r) (rows out)) /\
  (forall out, fuel_receipts_costs_eia923 m eng fr s e = Ok out ->
     Forall (fun r => int_at "plant_id" r /\ int_at "operator_id" r) (rows out)) /\
  (forall out, boiler_fuel_eia923 m eng fr s e = Ok out ->
     Forall (int_at "operator_id") (rows out)) /\
  (forall out, generation_eia923 m eng fr s e = Ok out ->
     Forall (int_at "operator_id") (rows out)).
Proof.
  split; [|split; [|split]]; intros out H.
  - unfold generation_fuel_eia923 in H. do 10 bind_inv H. apply Forall_and. split.
    + eapply astype_int_keeps_int; [exact H|].
      eapply astype_int_keeps_int; [exact Hx8|].
      eapply astype_int_keeps_int; [exact Hx7|]. by eapply astype_int_int.
    + eapply astype_int_keeps_int; [exact H|]. by eapply astype_int_int.
  - unfold fuel_receipts_costs_eia923 in H. do 14 bind_inv H. apply Forall_and. split.
    + eapply astype_int_keeps_int; [exact H|].
      eapply astype_int_keeps_int; [exact Hx12|].
      eapply astype_int_keeps_int; [exact Hx11|]. by eapply astype_int_int.
    + eapply astype_int_keeps_int; [exact H|]. by eapply astype_int_int.
  - unfold boiler_fuel_eia923 in H. do 10 bind_inv H.
    eapply astype_int_keeps_int; [exact H|].
    eapply astype_int_keeps_int; [exact Hx8|]. by eapply astype_int_int.
  - unfold generation_eia923 in H. do 9 bind_inv H.
    eapply astype_int_keeps_int; [exact H|].
    eapply astype_int_keeps_int; [exact Hx7|]. by eapply astype_int_int.
Qed.

Lemma cast_identifiers_integral_witness :
  exists out,
    generation_fuel_eia923 merge_on_date_year_spec sample_engine None None None = Ok out /\
    rows out <> [] /\
    Forall (fun r => int_at "plant_id" r /\ int_at "operator_id" r) (rows out).
Proof.
  destruct (generation_fuel_eia923 merge_on_date_year_spec sample_engine None None None)
    as [out|err] eqn:E; [|vm_compute in E; discriminate].
  exists out. split; [reflexivity|]. split.
  - intros Hr. apply (f_equal (@length row)) in Hr.
    assert (length <$> (rows <$> generation_fuel_eia923 merge_on_date_year_spec
                                   sample_engine None None None) = Ok 1) as Hl
      by (vm_compute; reflexivity).
    rewrite E in Hl. simpl in Hl. injection Hl as Hl. rewrite Hl in Hr. discriminate.
  - exact (proj1 (cast_identifiers_integral merge_on_date_year_spec sample_engine
                    None None None) out E).
Defined.

(** ** The shape of aggregated frames *)

Lemma groupby_sum_columns by_ f sum_cols df out :
  groupby_sum by_ f sum_cols df = Ok out ->
  columns out = (by_ ++ ["report_date"]) ++ sum_cols.
Proof. unfold groupby_sum. intros H. do 3 bind_inv H. by injection H as <-. Qed.

Lemma assign_binop_columns op c a b df df' :
  assign_binop op c a b df = Ok df' ->
  columns df' = if bool_decide (c ∈ columns df) then columns df else columns df ++ [c].
Proof. unfold assign_binop. intros H. do 2 bind_inv H. by injection H as <-. Qed.

Lemma drop_cols_columns labels df df' :
  drop_cols labels df = Ok df' ->
  columns df' = filter (fun c => c ∉ labels) (columns df).
Proof. unfold drop_cols. intros H. bind_inv H. by injection H as <-. Qed.

Lemma nub_subseteq {A} (eqb : A -> A -> bool) (l : list A) x : x ∈ nub eqb l -> x ∈ l.
Proof.
  induction l as [|y l IH]; simpl; [done|].
  intros H. apply elem_of_cons in H as [->|H]; [left|].
  apply list_elem_of_filter in H as [_ H]. right. auto.
Qed.

Lemma length_nub {A} (eqb : A -> A -> bool) (l : list A) : length (nub eqb l) <= length l.
Proof.
  induction l as [|y l IH]; simpl; [done|].
  pose proof (length_filter (fun z => negb (eqb y z)) (nub eqb l)). lia.
Qed.

Lemma length_omap_le {A B} (g : A -> option B) (l : list A) :
  length (omap g l) <= length l.
Proof.
  induction l as [|x l IH]; csimpl; [done|].
  destruct (g x); simpl; lia.
Qed.

Lemma length_bucket_keys by_ f rs : length (bucket_keys by_ f rs) <= length rs.
Proof.
  unfold bucket_keys. rewrite (Permutation_length (sort_by_perm _ _)).
  etrans; [apply length_nub|]. apply length_omap_le.
Qed.

Lemma row_key_Some by_ f r k :
  row_key by_ f r = Some k ->
  exists d, cell r "report_date" = VDate d /\
            k = cells r by_ ++ [VDate (bucket f d)] /\
            forall c, c ∈ by_ -> present c r.
Proof.
  unfold row_key, group_key.
  destruct (cell r "report_date") as [z|x|s|d|] eqn:E; simpl; try discriminate.
  - destruct (PrimFloat.is_nan x); simpl; discriminate.
  - destruct (forallb _ (cells r by_)) eqn:Hall; [|discriminate].
    intros [= <-]. exists d. split; [done|]. split; [done|].
    intros c Hc. rewrite forallb_forall in Hall.
    unfold present. apply negb_true_iff, Hall.
    unfold cells. apply in_map. by apply list_elem_of_In.
Qed.

Lemma bucket_keys_origin by_ f rs k :
  k ∈ bucket_keys by_ f rs -> exists r, r ∈ rs /\ row_key by_ f r = Some k.
Proof.
  unfold bucket_keys. rewrite elem_of_sort_by. intros H.
  apply nub_subseteq in H. by apply list_elem_of_omap in H.
Qed.

Lemma cells_list_to_map (ks : list string) (vs : list value) (rest : list (string * value)) :
  NoDup ks -> length vs = length ks ->
  cells (list_to_map (zip ks vs ++ rest)) ks = vs.
Proof.
  revert vs. induction ks as [|c ks IH]; intros [|v vs] Hnd Hlen; simpl in *;
    try done.
  apply NoDup_cons in Hnd as [Hc Hnd]. f_equal.
  - unfold cell. by rewrite lookup_insert_eq.
  - rewrite <- (IH vs Hnd) at 2 by lia. unfold cells.
    apply map_ext_in. intros c' Hc'. apply list_elem_of_In in Hc'.
    unfold cell. rewrite lookup_insert_ne; [done|]. by intros ->.
Qed.

Lemma agg_row_keys key_cols sum_cols k g r' :
  agg_row key_cols sum_cols (k, g) = Ok r' ->
  NoDup key_cols -> length k = length key_cols ->
  cells r' key_cols = k.
Proof.
  unfold agg_row. intros H Hnd Hlen. bind_inv H. injection H as <-. simpl.
  by apply cells_list_to_map.
Qed.

Lemma Forall2_impl_l {A B} (P Q : A -> B -> Prop) (R : A -> Prop) l k :
  Forall2 P l k -> Forall R l -> (forall x y, R x -> P x y -> Q x y) -> Forall2 Q l k.
Proof.
  intros H HR HPQ. induction H as [|x y l k Hxy _ IH]; [constructor|].
  apply Forall_cons in HR as [Hx HR]. constructor; auto.
Qed.

(** Every row [groupby_sum] returns holds the key of its bucket in the
    key columns. *)
Lemma groupby_sum_keys by_ f sum_cols df out :
  groupby_sum by_ f sum_cols df = Ok out ->
  NoDup (by_ ++ ["report_date"]) ->
  Forall2 (fun k r' => cells r' (by_ ++ ["report_date"]) = k)
          (bucket_keys by_ f (rows df)) (rows out).
Proof.
  unfold groupby_sum. intros H Hnd. do 3 bind_inv H. injection H as <-. simpl.
  apply traverse_Ok_Forall2 in Hx1.
  rewrite (groups_buckets _ _ _ _ Hx0) in Hx1.
  apply Forall2_fmap_l in Hx1.
  eapply (Forall2_impl_l _ _ (fun k => length k = length (by_ ++ ["report_date"])));
    [exact Hx1| |].
  - apply Forall_forall. intros k Hk.
    apply bucket_keys_origin in Hk as (r & _ & Hr).
    apply row_key_Some in Hr as (d & _ & -> & _).
    unfold cells. by rewrite !length_app, length_map.
  - intros k r' Hlen Hagg. simpl in Hagg. by eapply agg_row_keys.
Qed.


(** The label of a period: the first day of the record's month, quarter or
    year, never after the record's date. *)
Lemma days_in_month_ge y m : (28 <= days_in_month y m)%Z.
Proof.
  unfold days_in_month.
  destruct (m =? 2)%Z; [destruct (is_leap_year y); lia|].
  destruct ((m =? 4)%Z || (m =? 6)%Z || (m =? 9)%Z || (m =? 11)%Z); lia.
Qed.


(** ** Keys of the aggregated rows, function by function *)

Lemma cells_key_columns (by_ : list string) (h : row -> row) (r : row) :
  (forall c, c ∈ key_columns by_ -> cell (h r) c = cell r c) ->
  cells (h r) (key_columns by_) = cells r (key_columns by_).
Proof.
  intros H. unfold cells. apply map_ext_in. intros c Hc. apply H.
  by apply list_elem_of_In.
Qed.

Lemma generation_fuel_aggregate_keys f gf_df out :
  generation_fuel_aggregate f gf_df = Ok out ->
  Forall2 (fun k r' => cells r' (key_columns gf_keys) = k)
          (bucket_keys gf_keys f (rows gf_df)) (rows out).
Proof.
  unfold generation_fuel_aggregate. intros H. bind_inv H.
  apply assign_binop_rows in H. apply groupby_sum_keys in Hx; [|by_compute].
  rewrite H. clear H. apply Forall2_rows_map.
  eapply Forall2_impl; [exact Hx|]. clear Hx.
  intros k r' <-. apply (cells_key_columns gf_keys (fun r => <[_ := _]> r)).
  intros c Hc. key_cases Hc.
Qed.

Lemma frc_aggregate_keys f frc_df out :
  frc_aggregate f frc_df = Ok out ->
  Forall2 (fun k r' => cells r' (key_columns frc_keys) = k)
          (bucket_keys frc_keys f (rows frc_df)) (rows out).
Proof.
  unfold frc_aggregate. intros H. do 9 bind_inv H.
  apply assign_binop_rows in Hx, Hx0, Hx1, Hx3, Hx4, Hx5, Hx6, Hx7.
  apply groupby_sum_keys in Hx2; [|by_compute]. apply drop_cols_rows in H.
  rewrite H, Hx7, Hx6, Hx5, Hx4, Hx3. clear H Hx7 Hx6 Hx5 Hx4 Hx3.
  rewrite Hx1, Hx0, Hx, !map_map in Hx2. clear Hx1 Hx0 Hx.
  rewrite bucket_keys_ext in Hx2 by (intros r c Hc; key_cases Hc).
  rewrite !map_map. apply Forall2_rows_map.
  eapply Forall2_impl; [exact Hx2|]. clear Hx2.
  intros k r' <-.
  apply (cells_key_columns frc_keys
           (fun r => filter _ (<[_ := _]> (<[_ := _]> (<[_ := _]> (<[_ := _]> (<[_ := _]> r))))))).
  intros c Hc. key_cases Hc.
Qed.

Lemma boiler_fuel_aggregate_keys f bf_df out :
  boiler_fuel_aggregate f bf_df = Ok out ->
  Forall2 (fun k r' => cells r' (key_columns bf_keys) = k)
          (bucket_keys bf_keys f (rows bf_df)) (rows out).
Proof.
  unfold boiler_fuel_aggregate. intros H. do 6 bind_inv H.
  apply assign_binop_rows in Hx, Hx0, Hx2, Hx3, Hx4.
  apply groupby_sum_keys in Hx1; [|by_compute]. apply drop_cols_rows in H.
  rewrite H, Hx4, Hx3, Hx2. clear H Hx4 Hx3 Hx2.
  rewrite Hx0, Hx, map_map in Hx1. clear Hx0 Hx.
  rewrite bucket_keys_ext in Hx1 by (intros r c Hc; key_cases Hc).
  rewrite !map_map. apply Forall2_rows_map.
  eapply Forall2_impl; [exact Hx1|]. clear Hx1.
  intros k r' <-.
  apply (cells_key_columns bf_keys
           (fun r => filter _ (<[_ := _]> (<[_ := _]> (<[_ := _]> r))))).
  intros c Hc. key_cases Hc.
Qed.





(** With the month-end alias the records of March and April 2016 are
    labelled with the last day of their month. *)
Example generation_month_end_labels :
  (fun out => (column_cells "generator_id" out, column_cells "report_date" out))
    <$> groupby_sum g_keys ME ["net_generation_mwh"] g_two_months
  = Ok ([VStr "1"; VStr "1"; VStr "2"],
        [VDate (mkDate 2016 3 31); VDate (mkDate 2016 4 30); VDate (mkDate 2016 3 31)]).
Proof. vm_compute. reflexivity. Qed.

(** ** The columns and cells of aggregated frames *)

Lemma agg_row_other key_cols sum_cols k g r' c :
  agg_row key_cols sum_cols (k, g) = Ok r' ->
  c ∉ key_cols -> c ∉ sum_cols -> cell r' c = VNone.
Proof.
  unfold agg_row. intros H Hk Hs. bind_inv H. injection H as <-. simpl in Hx.
  assert (x = map (fun c => (c, VFloat (col_sum c g))) sum_cols) as ->.
  { eapply traverse_Ok_map; [exact Hx|].
    intros c' y Hy. bind_inv Hy. injection Hy as <-.
    by rewrite (group_sum_Ok _ _ _ Hx0). }
  unfold cell. rewrite (not_elem_of_list_to_map_1 _ c); [done|].
  rewrite fmap_app, elem_of_app. intros [Hin|Hin].
  - apply Hk. apply list_elem_of_fmap in Hin as ([c' v] & -> & Hin). simpl.
    by apply list_elem_of_In, in_combine_l, list_elem_of_In in Hin.
  - apply Hs. apply list_elem_of_fmap in Hin as ([c' v] & -> & Hin). simpl.
    apply list_elem_of_fmap in Hin as (c'' & [= -> ->] & Hin). done.
Qed.

Lemma groupby_sum_other by_ f sum_cols df out :
  groupby_sum by_ f sum_cols df = Ok out ->
  Forall (fun r' => forall c, c ∉ by_ ++ ["report_date"] -> c ∉ sum_cols ->
                              cell r' c = VNone) (rows out).
Proof.
  unfold groupby_sum. intros H. do 3 bind_inv H. injection H as <-. simpl.
  apply traverse_Ok_Forall2 in Hx1.
  eapply Forall2_Forall_right; [exact Hx1|].
  intros [k g] r' Hagg c Hk Hs. by eapply agg_row_other.
Qed.

Lemma cell_dropped (labels : list string) (r : row) c :
  c ∈ labels -> cell (filter (fun kv : string * value => kv.1 ∉ labels) r) c = VNone.
Proof.
  intros Hc. unfold cell. rewrite (proj2 (map_lookup_filter_None _ _ _)); [done|].
  right. intros v _ Hn. by apply Hn.
Qed.

(** From [Hc : c ∉ finals]: [c] is none of the literal labels named in the
    goal, each of which is among [finals] (or among [dropped], with
    [Hd : c ∉ dropped]). *)
Ltac other_label Hc :=
  let Hin := fresh "Hin" in
  first
    [ intros ->; apply Hc; by_compute
    | intros Hin; cbn [app] in Hin; label_cases Hin; apply Hc; by_compute ].

Lemma generation_fuel_aggregate_shape f gf_df out :
  generation_fuel_aggregate f gf_df = Ok out ->
  columns out = gf_aggregated_columns /\
  Forall (only_cells gf_aggregated_columns) (rows out).
Proof.
  unfold generation_fuel_aggregate. intros H. bind_inv H. split.
  - apply assign_binop_columns in H. apply groupby_sum_columns in Hx.
    rewrite H, Hx. reflexivity.
  - apply assign_binop_rows in H. apply groupby_sum_other in Hx.
    rewrite H. apply Forall_fmap. eapply Forall_impl; [exact Hx|].
    intros r' Hr c Hc. simpl.
    rewrite cell_insert_ne by (apply not_eq_sym; other_label Hc).
    apply Hr; other_label Hc.
Qed.

Lemma frc_aggregate_shape f frc_df out :
  frc_aggregate f frc_df = Ok out ->
  columns out = frc_aggregated_columns /\
  Forall (only_cells frc_aggregated_columns) (rows out).
Proof.
  unfold frc_aggregate. intros H. do 9 bind_inv H. split.
  - apply assign_binop_columns in Hx3, Hx4, Hx5, Hx6, Hx7.
    apply groupby_sum_columns in Hx2. apply drop_cols_columns in H.
    rewrite H, Hx7, Hx6, Hx5, Hx4, Hx3, Hx2. reflexivity.
  - apply assign_binop_rows in Hx3, Hx4, Hx5, Hx6, Hx7.
    apply groupby_sum_other in Hx2. apply drop_cols_rows in H.
    rewrite H, Hx7, Hx6, Hx5, Hx4, Hx3, !map_map.
    apply Forall_fmap. eapply Forall_impl; [exact Hx2|].
    intros r' Hr c Hc. simpl.
    destruct (decide (c ∈ ["total_ash_content"; "total_sulfur_content";
                           "total_mercury_content"])) as [Hd|Hd].
    + by apply cell_dropped.
    + rewrite cell_drop by done.
      do 5 (rewrite cell_insert_ne by (apply not_eq_sym; other_label Hc)).
      apply Hr; [other_label Hc|].
      intros Hin. label_cases Hin;
        first [apply Hc; by_compute | apply Hd; by_compute].
Qed.

Lemma boiler_fuel_aggregate_shape f bf_df out :
  boiler_fuel_aggregate f bf_df = Ok out ->
  columns out = bf_aggregated_columns /\
  Forall (only_cells bf_aggregated_columns) (rows out).
Proof.
  unfold boiler_fuel_aggregate. intros H. do 6 bind_inv H. split.
  - apply assign_binop_columns in Hx2, Hx3, Hx4.
    apply groupby_sum_columns in Hx1. apply drop_cols_columns in H.
    rewrite H, Hx4, Hx3, Hx2, Hx1. reflexivity.
  - apply assign_binop_rows in Hx2, Hx3, Hx4.
    apply groupby_sum_other in Hx1. apply drop_cols_rows in H.
    rewrite H, Hx4, Hx3, Hx2, !map_map.
    apply Forall_fmap. eapply Forall_impl; [exact Hx1|].
    intros r' Hr c Hc. simpl.
    destruct (decide (c ∈ ["total_ash_content"; "total_sulfur_content"])) as [Hd|Hd].
    + by apply cell_dropped.
    + rewrite cell_drop by done.
      do 3 (rewrite cell_insert_ne by (apply not_eq_sym; other_label Hc)).
      apply Hr; [other_label Hc|].
      intros Hin. label_cases Hin;
        first [apply Hc; by_compute | apply Hd; by_compute].
Qed.

(** X5: whatever columns the records have, an aggregated frame has exactly
    the columns the function's docstring lists (keys, period, sums and
    recomputed ratios), and its rows hold no other cell: every other field of
    the records, such as [fuel_group], is gone. *)
Theorem aggregated_frame_shape (f : freq) :
  (forall df out, generation_fuel_aggregate f df = Ok out ->
     columns out = gf_aggregated_columns /\
     Forall (only_cells gf_aggregated_columns) (rows out)) /\
  (forall df out, frc_aggregate f df = Ok out ->
     columns out = frc_aggregated_columns /\
     Forall (only_cells frc_aggregated_columns) (rows out)) /\
  (forall df out, boiler_fuel_aggregate f df = Ok out ->
     columns out = bf_aggregated_columns /\
     Forall (only_cells bf_aggregated_columns) (rows out)) /\
  (forall df out, groupby_sum g_keys f ["net_generation_mwh"] df = Ok out ->
     columns out = g_aggregated_columns /\
     Forall (only_cells g_aggregated_columns) (rows out)).
Proof.
  split; [|split; [|split]]; intros df out H.
  - by apply generation_fuel_aggregate_shape in H.
  - by apply frc_aggregate_shape in H.
  - by apply boiler_fuel_aggregate_shape in H.
  - split; [by apply groupby_sum_columns in H|].
    apply groupby_sum_other in H. eapply Forall_impl; [exact H|].
    intros r' Hr c Hc. apply Hr; other_label Hc.
Qed.

Lemma aggregated_frame_shape_witness :
  exists out,
    frc_totals frc_two_deliveries ≫= frc_aggregate MS = Ok out /\
    columns out = frc_aggregated_columns /\
    Forall (only_cells frc_aggregated_columns) (rows out) /\
    "fuel_group" ∈ columns frc_two_deliveries /\ "fuel_group" ∉ columns out.
Proof.
  destruct (frc_totals frc_two_deliveries) as [df|err] eqn:E0;
    [|vm_compute in E0; discriminate].
  simpl. destruct (frc_aggregate MS df) as [out|err] eqn:E;
    [|injection E0 as <-; vm_compute in E; discriminate].
  exists out. split; [reflexivity|].
  pose proof (proj1 (proj2 (aggregated_frame_shape MS)) df out E) as [Hc Hr].
  split; [exact Hc|]. split; [exact Hr|]. split; [by_compute|].
  rewrite Hc. apply (bool_decide_unpack _). vm_compute. exact I.
Defined.

(** ** One row per bucket *)

Lemma float_key_eqb_refl x : PrimFloat.is_nan x = false -> float_key_eqb x x = true.
Proof.
  intros Hn. unfold float_key_eqb. rewrite FloatAxioms.eqb_spec, SFeqb_refl.
  rewrite is_nan_Prim2SF in Hn. by destruct (Prim2SF x).
Qed.

Lemma key_eqb_refl v : isna v = false -> key_eqb v v = true.
Proof.
  destruct v as [z|x|s|d|]; simpl; intros H.
  - apply Z.eqb_refl.
  - by apply float_key_eqb_refl.
  - apply String.eqb_refl.
  - by apply bool_decide_eq_true_2.
  - discriminate.
Qed.

Lemma keys_eqb_refl k : Forall (fun v => isna v = false) k -> keys_eqb k k = true.
Proof.
  induction 1 as [|v k Hv _ IH]; simpl; [done|].
  by rewrite key_eqb_refl, IH.
Qed.

Lemma NoDup_nub_refl {A} (eqb : A -> A -> bool) (l : list A) :
  (forall x, x ∈ l -> eqb x x = true) -> NoDup (nub eqb l).
Proof.
  induction l as [|x l IH]; intros Hrefl; simpl; [constructor|].
  constructor.
  - intros Hin. apply list_elem_of_filter in Hin as [Hne _].
    rewrite Hrefl in Hne by left. done.
  - apply NoDup_filter, IH. intros y Hy. apply Hrefl. by right.
Qed.

Lemma NoDup_bucket_keys by_ f rs : NoDup (bucket_keys by_ f rs).
Proof.
  unfold bucket_keys. apply NoDup_sort_by, NoDup_nub_refl.
  intros k Hk. apply list_elem_of_omap in Hk as (r & _ & Hr).
  apply row_key_Some in Hr as (d & _ & -> & Hp).
  apply keys_eqb_refl, Forall_app. split.
  - unfold cells. apply Forall_fmap, Forall_forall. intros c Hc. by apply Hp.
  - by repeat constructor.
Qed.

Lemma Forall2_eq_map {A B} (h : B -> A) (l : list A) (k : list B) :
  Forall2 (fun x y => h y = x) l k -> map h k = l.
Proof. induction 1 as [|x y l k <- _ IH]; simpl; [done|]. by rewrite IH. Qed.

Lemma keyed_rows_unique by_ f (rs out : list row) :
  Forall2 (fun k r' => cells r' (key_columns by_) = k) (bucket_keys by_ f rs) out ->
  NoDup (map (fun r' => cells r' (key_columns by_)) out) /\ length out <= length rs.
Proof.
  intros H. split.
  - rewrite (Forall2_eq_map _ _ _ H). apply NoDup_bucket_keys.
  - rewrite <- (Forall2_length _ _ _ H). apply length_bucket_keys.
Qed.

(** X6: an aggregated frame has one row per combination of grouping keys
    and period: no two of its rows agree on all key cells, and it has at most
    as many rows as there are records. *)
Theorem aggregated_keys_unique (f : freq) :
  (forall df out, generation_fuel_aggregate f df = Ok out ->
     NoDup (map (fun r' => cells r' (key_columns gf_keys)) (rows out)) /\
     length (rows out) <= length (rows df)) /\
  (forall df out, frc_aggregate f df = Ok out ->
     NoDup (map (fun r' => cells r' (key_columns frc_keys)) (rows out)) /\
     length (rows out) <= length (rows df)) /\
  (forall df out, boiler_fuel_aggregate f df = Ok out ->
     NoDup (map (fun r' => cells r' (key_columns bf_keys)) (rows out)) /\
     length (rows out) <= length (rows df)) /\
  (forall df out, groupby_sum g_keys f ["net_generation_mwh"] df = Ok out ->
     NoDup (map (fun r' => cells r' (key_columns g_keys)) (rows out)) /\
     length (rows out) <= length (rows df)).
Proof.
  split; [|split; [|split]]; intros df out H.
  - apply generation_fuel_aggregate_keys in H. by apply keyed_rows_unique in H.
  - apply frc_aggregate_keys in H. by apply keyed_rows_unique in H.
  - apply boiler_fuel_aggregate_keys in H. by apply keyed_rows_unique in H.
  - apply groupby_sum_keys in H; [|by_compute]. by apply keyed_rows_unique in H.
Qed.

Lemma aggregated_keys_unique_witness :
  exists out,
    groupby_sum g_keys YS ["net_generation_mwh"] g_two_months = Ok out /\
    length (rows out) = 2 /\
    NoDup (map (fun r' => cells r' (key_columns g_keys)) (rows out)) /\
    length (rows out) <= length (rows g_two_months).
Proof.
  destruct (groupby_sum g_keys YS ["net_generation_mwh"] g_two_months) as [out|err] eqn:E;
    [|vm_compute in E; discriminate].
  exists out. split; [reflexivity|]. split.
  - assert (length <$> (rows <$> groupby_sum g_keys YS ["net_generation_mwh"] g_two_months)
            = Ok 2) as Hl by (vm_compute; reflexivity).
    rewrite E in Hl. by injection Hl.
  - exact (proj2 (proj2 (proj2 (aggregated_keys_unique YS))) g_two_months out E).
Defined.

(** ** Summed totals *)

Lemma frc_aggregate_sums f frc_df out :
  frc_aggregate f frc_df = Ok out ->
  Forall2 (fun k r' =>
     let g := bucket_rows frc_keys f k (rows frc_df) in
     cell r' "fuel_quantity" = VFloat (col_sum "fuel_quantity" g) /\
     cell r' "total_heat_content_mmbtu" = VFloat (col_sum "total_heat_content_mmbtu" g) /\
     cell r' "total_fuel_cost" = VFloat (col_sum "total_fuel_cost" g))
    (bucket_keys frc_keys f (rows frc_df)) (rows out).
Proof.
  unfold frc_aggregate. intros H. do 9 bind_inv H.
  apply assign_binop_rows in Hx, Hx0, Hx1, Hx3, Hx4, Hx5, Hx6, Hx7.
  apply groupby_sum_rows in Hx2. apply drop_cols_rows in H.
  rewrite H, Hx7, Hx6, Hx5, Hx4, Hx3. clear H Hx7 Hx6 Hx5 Hx4 Hx3.
  rewrite Hx1, Hx0, Hx, !map_map in Hx2. clear Hx1 Hx0 Hx.
  rewrite bucket_keys_ext in Hx2 by (intros r c Hc; key_cases Hc).
  do 6 apply Forall2_rows_map.
  eapply Forall2_impl; [exact Hx2|]. clear Hx2.
  intros k r' Hsum. simpl.
  pose proof (Hsum "fuel_quantity" ltac:(by_compute) ltac:(by_compute)) as Hq.
  pose proof (Hsum "total_heat_content_mmbtu" ltac:(by_compute) ltac:(by_compute)) as Hh.
  pose proof (Hsum "total_fuel_cost" ltac:(by_compute) ltac:(by_compute)) as Hc.
  clear Hsum.
  rewrite bucket_rows_ext in Hq, Hh, Hc by (intros r c Hk; key_cases Hk).
  cell_simpl. rewrite Hq, Hh, Hc. clear Hq Hh Hc.
  rewrite !col_sum_ext by (intros r; by cell_simpl). done.
Qed.

Lemma frc_totals_summed f frc_df :
  numeric_on frc_raw_measures frc_df -> dated frc_keys frc_df ->
  exists out, frc_totals frc_df ≫= frc_aggregate f = Ok out /\
    Forall2 (frc_summed f frc_df) (bucket_keys frc_keys f (rows frc_df)) (rows out).
Proof.
  intros Hnum Hdate. unfold frc_totals.
  destruct (assign_binop_numeric PrimFloat.mul "total_heat_content_mmbtu"
              "heat_content_mmbtu_per_unit" "fuel_quantity" _ _ Hnum)
    as (df1 & H1 & Hn1 & _); [by_compute|by_compute|].
  rewrite H1. simpl. eapply assign_binop_dated in Hdate; [|exact H1|done].
  destruct (assign_binop_numeric PrimFloat.mul "total_fuel_cost"
              "total_heat_content_mmbtu" "fuel_cost_per_mmbtu" _ _ Hn1)
    as (df2 & H2 & Hn2 & _); [by_compute|by_compute|].
  rewrite H2. simpl. eapply assign_binop_dated in Hdate; [|exact H2|done].
  eapply (numeric_on_weaken _ frc_measures) in Hn2; [|literal_subset].
  destruct (frc_aggregate_total f _ Hn2 Hdate) as [out Hout].
  exists out. split; [exact Hout|].
  apply frc_aggregate_sums in Hout.
  apply assign_binop_rows in H1, H2.
  rewrite H2, H1, map_map in Hout. clear H1 H2.
  rewrite bucket_keys_ext in Hout by (intros r c Hc; key_cases Hc).
  eapply Forall2_impl; [exact Hout|]. clear Hout.
  intros k r' (Hq & Hheat & Hcost). simpl in *.
  rewrite bucket_rows_ext in Hq, Hheat, Hcost by (intros r c Hc; key_cases Hc).
  unfold frc_summed, product_sum, triple_product_sum.
  rewrite Hq, Hheat, Hcost. clear Hq Hheat Hcost.
  rewrite (col_sum_ext _ "fuel_quantity") by (intros r; by cell_simpl).
  rewrite (col_sum_map _ "total_heat_content_mmbtu"
             (fun r => PrimFloat.mul (float_of (cell r "heat_content_mmbtu_per_unit"))
                                     (float_of (cell r "fuel_quantity"))))
    by (intros r; by cell_simpl).
  rewrite (col_sum_map _ "total_fuel_cost"
             (fun r => PrimFloat.mul
                         (PrimFloat.mul (float_of (cell r "heat_content_mmbtu_per_unit"))
                                        (float_of (cell r "fuel_quantity")))
                         (float_of (cell r "fuel_cost_per_mmbtu"))))
    by (intros r; by cell_simpl).
  done.
Qed.

(** X7: on well-typed records the aggregation of
    [fuel_receipts_costs_eia923] returns, and in every bucket the quantity is
    the sum of the records' quantities, the total heat content the sum of
    heat content per unit times quantity, and the total fuel cost the sum of
    that heat times the cost per mmbtu (binary64 sums that skip missing
    terms). *)
Theorem frc_aggregated_totals (f : freq) (frc_df : DataFrame) :
  numericb frc_raw_measures frc_df = true -> datedb frc_keys frc_df = true ->
  exists out, frc_totals frc_df ≫= frc_aggregate f = Ok out /\
    Forall2 (frc_summed f frc_df) (bucket_keys frc_keys f (rows frc_df)) (rows out).
Proof.
  intros Hn Hd. apply frc_totals_summed.
  - by apply numericb_numeric_on.
  - by apply datedb_dated.
Qed.

Lemma frc_aggregated_totals_witness :
  exists out, frc_totals frc_two_deliveries ≫= frc_aggregate MS = Ok out /\
    Forall2 (frc_summed MS frc_two_deliveries)
            (bucket_keys frc_keys MS (rows frc_two_deliveries)) (rows out).
Proof.
  apply (frc_aggregated_totals MS frc_two_deliveries); vm_compute; reflexivity.
Defined.

(** The sums of two deliveries of 2 and 6 units at 20 and 22 mmbtu per unit
    and 2 and 4 dollars per mmbtu. *)
Example frc_two_deliveries_sums :
  (fun out => (column_cells "fuel_quantity" out,
               column_cells "total_heat_content_mmbtu" out,
               column_cells "total_fuel_cost" out))
    <$> (frc_totals frc_two_deliveries ≫= frc_aggregate MS)
  = Ok ([VFloat 8], [VFloat 172], [VFloat 608])%float.
Proof. vm_compute. reflexivity. Qed.

Lemma boiler_fuel_aggregate_sums f bf_df out :
  boiler_fuel_aggregate f bf_df = Ok out ->
  Forall2 (fun k r' =>
     let g := bucket_rows bf_keys f k (rows bf_df) in
     cell r' "fuel_qty_consumed" = VFloat (col_sum "fuel_qty_consumed" g) /\
     cell r' "total_heat_content_mmbtu" = VFloat (col_sum "total_heat_content_mmbtu" g))
    (bucket_keys bf_keys f (rows bf_df)) (rows out).
Proof.
  unfold boiler_fuel_aggregate. intros H. do 6 bind_inv H.
  apply assign_binop_rows in Hx, Hx0, Hx2, Hx3, Hx4.
  apply groupby_sum_rows in Hx1. apply drop_cols_rows in H.
  rewrite H, Hx4, Hx3, Hx2. clear H Hx4 Hx3 Hx2.
  rewrite Hx0, Hx, map_map in Hx1. clear Hx0 Hx.
  rewrite bucket_keys_ext in Hx1 by (intros r c Hc; key_cases Hc).
  do 4 apply Forall2_rows_map.
  eapply Forall2_impl; [exact Hx1|]. clear Hx1.
  intros k r' Hsum. simpl.
  pose proof (Hsum "fuel_qty_consumed" ltac:(by_compute) ltac:(by_compute)) as Hq.
  pose proof (Hsum "total_heat_content_mmbtu" ltac:(by_compute) ltac:(by_compute)) as Hh.
  clear Hsum.
  rewrite bucket_rows_ext in Hq, Hh by (intros r c Hc; key_cases Hc).
  cell_simpl. rewrite Hq, Hh. clear Hq Hh.
  rewrite !col_sum_ext by (intros r; by cell_simpl). done.
Qed.

Lemma boiler_fuel_totals_summed f bf_df :
  numeric_on bf_raw_measures bf_df -> dated bf_keys bf_df ->
  exists out, boiler_fuel_totals bf_df ≫= boiler_fuel_aggregate f = Ok out /\
    Forall2 (bf_summed f bf_df) (bucket_keys bf_keys f (rows bf_df)) (rows out).
Proof.
  intros Hnum Hdate. unfold boiler_fuel_totals.
  destruct (assign_binop_numeric PrimFloat.mul "total_heat_content_mmbtu"
              "fuel_qty_consumed" "fuel_mmbtu_per_unit" _ _ Hnum)
    as (df1 & H1 & Hn1 & _); [by_compute|by_compute|].
  rewrite H1. simpl. eapply assign_binop_dated in Hdate; [|exact H1|done].
  eapply (numeric_on_weaken _ bf_measures) in Hn1; [|literal_subset].
  destruct (boiler_fuel_aggregate_total f _ Hn1 Hdate) as [out Hout].
  exists out. split; [exact Hout|].
  apply boiler_fuel_aggregate_sums in Hout.
  apply assign_binop_rows in H1.
  rewrite H1 in Hout. clear H1.
  rewrite bucket_keys_ext in Hout by (intros r c Hc; key_cases Hc).
  eapply Forall2_impl; [exact Hout|]. clear Hout.
  intros k r' (Hq & Hheat). simpl in *.
  rewrite bucket_rows_ext in Hq, Hheat by (intros r c Hc; key_cases Hc).
  unfold bf_summed, product_sum.
  rewrite Hq, Hheat. clear Hq Hheat.
  rewrite (col_sum_ext _ "fuel_qty_consumed") by (intros r; by cell_simpl).
  rewrite (col_sum_map _ "total_heat_content_mmbtu"
             (fun r => PrimFloat.mul (float_of (cell r "fuel_qty_consumed"))
                                     (float_of (cell r "fuel_mmbtu_per_unit"))))
    by (intros r; by cell_simpl).
  done.
Qed.

(** X8: on well-typed records the aggregation of [boiler_fuel_eia923]
    returns, and in every bucket the fuel consumed is the sum of the records'
    quantities and the total heat content the sum of quantity times heat
    content per unit. *)
Theorem bf_aggregated_totals (f : freq) (bf_df : DataFrame) :
  numericb bf_raw_measures bf_df = true -> datedb bf_keys bf_df = true ->
  exists out, boiler_fuel_totals bf_df ≫= boiler_fuel_aggregate f = Ok out /\
    Forall2 (bf_summed f bf_df) (bucket_keys bf_keys f (rows bf_df)) (rows out).
Proof.
  intros Hn Hd. apply boiler_fuel_totals_summed.
  - by apply numericb_numeric_on.
  - by apply datedb_dated.
Qed.

Lemma bf_aggregated_totals_witness :
  exists out, boiler_fuel_totals bf_two_months ≫= boiler_fuel_aggregate YS = Ok out /\
    Forall2 (bf_summed YS bf_two_months)
            (bucket_keys bf_keys YS (rows bf_two_months)) (rows out).
Proof.
  apply (bf_aggregated_totals YS bf_two_months); vm_compute; reflexivity.
Defined.

(** X9: on well-typed records the aggregation of [generation_eia923]
    returns one row per generator and period, whose net generation is the sum
    over the records of that generator in that period. *)
Theorem generation_summed (f : freq) (g_df : DataFrame) :
  numericb ["net_generation_mwh"] g_df = true -> datedb g_keys g_df = true ->
  exists out, groupby_sum g_keys f ["net_generation_mwh"] g_df = Ok out /\
    Forall2 (fun k r' =>
               cell r' "net_generation_mwh" =
                 VFloat (col_sum "net_generation_mwh" (bucket_rows g_keys f k (rows g_df))))
            (bucket_keys g_keys f (rows g_df)) (rows out).
Proof.
  intros Hn Hd. apply numericb_numeric_on in Hn. apply datedb_dated in Hd.
  destruct (groupby_sum_total g_keys f ["net_generation_mwh"] g_df Hn Hd) as [out Hout].
  exists out. split; [exact Hout|].
  eapply Forall2_impl; [exact (groupby_sum_rows _ _ _ _ _ Hout)|].
  intros k r' Hsum. apply Hsum; by_compute.
Qed.

Lemma generation_summed_witness :
  exists out, groupby_sum g_keys QS ["net_generation_mwh"] g_two_months = Ok out /\
    Forall2 (fun k r' =>
               cell r' "net_generation_mwh" =
                 VFloat (col_sum "net_generation_mwh"
                           (bucket_rows g_keys QS k (rows g_two_months))))
            (bucket_keys g_keys QS (rows g_two_months)) (rows out).
Proof.
  apply (generation_summed QS g_two_months); vm_compute; reflexivity.
Defined.

(** Generator 1 reports 10 MWh in March and 20 in April, generator 2
    reports 5 in March: by year, 30 and 5. *)
Example generation_by_year :
  column_cells "net_generation_mwh"
    <$> groupby_sum g_keys YS ["net_generation_mwh"] g_two_months
  = Ok [VFloat 30; VFloat 5]%float.
Proof. vm_compute. reflexivity. Qed.

(** ** Constraint listings with one constraint per parent *)

Lemma one_constraint_per_parent_spec rs :
  one_constraint_per_parent rs = true ->
  forall r1 r2, r1 ∈ rs -> r2 ∈ rs ->
                (fl_table r1 = fl_table r2 <-> fl_id r1 = fl_id r2).
Proof.
  unfold one_constraint_per_parent. intros H r1 r2 H1 H2.
  rewrite forallb_forall in H. apply list_elem_of_In, H in H1.
  rewrite forallb_forall in H1. apply list_elem_of_In, H1 in H2.
  apply Bool.eqb_prop in H2.
  rewrite <- string_eqb_eq, <- Z.eqb_eq. by rewrite H2.
Qed.

Lemma filter_ext_elem_of {A} (P Q : A -> Prop)
    `{!forall x, Decision (P x)} `{!forall x, Decision (Q x)} (l : list A) :
  (forall x, x ∈ l -> (P x <-> Q x)) -> filter P l = filter Q l.
Proof.
  induction l as [|x l IH]; intros Hext; [done|].
  rewrite !filter_cons.
  destruct (decide (P x)) as [HP|HP], (decide (Q x)) as [HQ|HQ].
  - f_equal. apply IH. intros y Hy. apply Hext. by right.
  - exfalso. apply HQ, (Hext x); [left|done].
  - exfalso. apply HP, (Hext x); [left|done].
  - apply IH. intros y Hy. apply Hext. by right.
Qed.

Lemma descriptor_one_constraint rs r :
  one_constraint_per_parent rs = true -> r ∈ rs ->
  descriptor_of rs (fl_table r) = constraint_descriptor rs (fl_id r).
Proof.
  intros H Hr. unfold descriptor_of, constraint_descriptor.
  assert (filter (fun r' => String.eqb (fl_table r') (fl_table r)) rs
          = filter (fun r' => (fl_id r' =? fl_id r)%Z) rs) as ->; [|done].
  apply filter_ext_elem_of. intros r' Hr'.
  rewrite !Is_true_true, string_eqb_eq, Z.eqb_eq.
  by apply (one_constraint_per_parent_spec rs).
Qed.

(** X10: for a child table each of whose constraints references a parent
    of its own, [_get_fk_list] returns exactly one row per constraint, with
    the constraint's id, its parent, and a descriptor made of the referenced
    fields of that constraint alone, in the order of the pragma. *)
Theorem get_fk_list_one_constraint_per_parent (db : Database) (t : string) :
  one_constraint_per_parent (foreign_key_list db t) = true ->
  NoDup (map fkid (_get_fk_list db t)) /\
  (forall r, r ∈ foreign_key_list db t ->
     {| fkid := fl_id r; parent := fl_table r;
        fk := constraint_descriptor (foreign_key_list db t) (fl_id r);
        table := t |} ∈ _get_fk_list db t) /\
  (forall k, k ∈ _get_fk_list db t ->
     table k = t /\
     fk k = constraint_descriptor (foreign_key_list db t) (fkid k) /\
     exists r, r ∈ foreign_key_list db t /\ fl_id r = fkid k /\ fl_table r = parent k).
Proof.
  intros H. split; [|split].
  - apply NoDup_fmap_2_strong.
    + intros x y Hx Hy Hxy.
      apply elem_of_get_fk_list in Hx as (rx & Hrx & ->).
      apply elem_of_get_fk_list in Hy as (ry & Hry & ->).
      simpl in Hxy.
      assert (fl_table rx = fl_table ry) as Ht
        by (by apply (one_constraint_per_parent_spec _ H)).
      by rewrite Hxy, Ht.
    + eapply NoDup_fmap_1. apply NoDup_merge_key_get_fk_list.
  - intros r Hr. apply elem_of_get_fk_list. exists r. split; [done|].
    by rewrite descriptor_one_constraint.
  - intros k Hk. apply elem_of_get_fk_list in Hk as (r & Hr & ->). simpl.
    split; [done|]. split; [by apply descriptor_one_constraint|].
    by exists r.
Qed.

Lemma get_fk_list_one_constraint_per_parent_witness :
  NoDup (map fkid (_get_fk_list generators_db "generators")) /\
  (forall r, r ∈ foreign_key_list generators_db "generators" ->
     {| fkid := fl_id r; parent := fl_table r;
        fk := constraint_descriptor (foreign_key_list generators_db "generators") (fl_id r);
        table := "generators" |} ∈ _get_fk_list generators_db "generators") /\
  (forall k, k ∈ _get_fk_list generators_db "generators" ->
     table k = "generators" /\
     fk k = constraint_descriptor (foreign_key_list generators_db "generators") (fkid k) /\
     exists r, r ∈ foreign_key_list generators_db "generators" /\
               fl_id r = fkid k /\ fl_table r = parent k).
Proof.
  apply (get_fk_list_one_constraint_per_parent generators_db "generators").
  vm_compute. reflexivity.
Defined.

(** The two constraints of [generators]: the two-field key of its plant
    and the key of its utility. *)
Example get_fk_list_generators :
  _get_fk_list generators_db "generators" =
    [{| fkid := 0; parent := "plants"; fk := "(plant_id, report_year)";
        table := "generators" |};
     {| fkid := 1; parent := "utilities"; fk := "(utility_id)";
        table := "generators" |}].
Proof. vm_compute. reflexivity. Qed.

(** ** Writing to a registered table the database does not have *)

(** X11: a write to a table that the metadata registers but the database
    does not have raises [OperationalError] at the delete; nothing is
    written, nothing is logged, and the table is not created (an
    unregistered table, by contrast, is created by the write). *)
Theorem handle_pandas_output_no_such_table (self : SQLiteIOManager) (context : Context)
    (df : DataFrame) (sa_table : Table) :
  md_tables self !! _get_table_name context = Some sa_table ->
  table_contents self (_get_table_name context) = None ->
  _handle_pandas_output self context df
    = (Raise (OperationalError "no such table"), self).
Proof.
  intros Hmd Hdb. unfold _handle_pandas_output, _get_sqlalchemy_table.
  rewrite Hmd. unfold execute_delete.
  unfold table_contents in Hdb. by rewrite Hdb.
Qed.

Lemma handle_pandas_output_no_such_table_witness :
  _handle_pandas_output stale_manager generators_context plants_complete
    = (Raise (OperationalError "no such table"), stale_manager).
Proof.
  apply (handle_pandas_output_no_such_table stale_manager generators_context
           plants_complete generators_table); vm_compute; reflexivity.
Defined.

(** ** Left joins keep every record *)

Lemma ends_with_app suffix c : ends_with suffix (c ++ suffix) = true.
Proof.
  induction c as [|a c IH]; simpl.
  - destruct suffix; simpl; by rewrite ?Ascii.eqb_refl, ?String.eqb_refl.
  - rewrite IH. apply orb_true_r.
Qed.

Lemma suffixed_inv overlap suffix c c0 :
  suffixed overlap suffix c = c0 -> ends_with suffix c0 = false ->
  c = c0 /\ c ∉ overlap.
Proof.
  unfold suffixed. destruct (bool_decide (c ∈ overlap)) eqn:E.
  - intros <-. by rewrite ends_with_app.
  - intros <- _. split; [done|]. by apply bool_decide_eq_false in E.
Qed.

(** A column of a joined frame whose name carries no suffix is a column of
    one of the two frames. *)
Lemma pd_merge_column_origin left right h left_on right_on d c0 :
  pd_merge left right h left_on right_on = Ok d ->
  c0 ∈ columns d -> ends_with "_x" c0 = false -> ends_with "_y" c0 = false ->
  c0 ∈ columns left \/ c0 ∈ columns right.
Proof.
  unfold pd_merge. intros H Hc Hx Hy. do 2 bind_inv H. injection H as <-. simpl in Hc.
  apply elem_of_app in Hc as [Hc|Hc].
  - apply list_elem_of_fmap in Hc as (c & Hs & Hc). symmetry in Hs.
    apply suffixed_inv in Hs as [<- _]; auto.
  - apply list_elem_of_fmap in Hc as (c & Hs & Hc). symmetry in Hs.
    apply suffixed_inv in Hs as [<- _]; [|done].
    apply list_elem_of_filter in Hc as [_ Hc]. auto.
Qed.

(** A column that both frames have, and that is no shared key, is renamed
    on both sides: the joined frame has no column of that name. *)
Lemma pd_merge_overlap_renamed left right h left_on right_on d c0 :
  pd_merge left right h left_on right_on = Ok d ->
  c0 ∈ columns left -> c0 ∈ columns right -> c0 ∉ shared_keys left_on right_on ->
  ends_with "_x" c0 = false -> ends_with "_y" c0 = false ->
  c0 ∉ columns d.
Proof.
  unfold pd_merge. intros H Hl Hr Hs Hx Hy Hc. do 2 bind_inv H.
  injection H as <-. simpl in Hc.
  assert (c0 ∈ filter (fun c => c ∈ filter (fun c => c ∉ shared_keys left_on right_on)
                                             (columns right)) (columns left)) as Hov.
  { apply list_elem_of_filter. split; [|done]. by apply list_elem_of_filter. }
  apply elem_of_app in Hc as [Hc|Hc].
  - apply list_elem_of_fmap in Hc as (c & Heq & Hc). symmetry in Heq.
    apply suffixed_inv in Heq as [-> Hn]; done.
  - apply list_elem_of_fmap in Hc as (c & Heq & Hc). symmetry in Heq.
    apply suffixed_inv in Heq as [-> Hn]; done.
Qed.

Lemma length_flat_map_ge {A B} (g : A -> list B) (l : list A) :
  (forall x, 1 <= length (g x)) -> length l <= length (flat_map g l).
Proof.
  intros Hg. induction l as [|x l IH]; simpl; [done|].
  rewrite length_app. pose proof (Hg x). lia.
Qed.

Lemma cell_left_part (cols : list string) (l : row) (rest : list (string * value)) c :
  c ∈ cols ->
  cell (list_to_map (map (fun c' => (suffixed [] "_x" c', cell l c')) cols ++ rest)) c
  = cell l c.
Proof.
  induction cols as [|c' cols IH]; intros Hc; [by apply elem_of_nil in Hc|].
  simpl. rewrite suffixed_nil. unfold cell at 1.
  destruct (decide (c' = c)) as [->|Hne].
  - by rewrite lookup_insert_eq.
  - rewrite lookup_insert_ne by done. apply elem_of_cons in Hc as [->|Hc]; [done|].
    by apply IH.
Qed.

(** A left join of frames that share no column but the keys keeps every
    record of the left frame, with the cells of its columns unchanged. *)
Lemma pd_merge_left_keeps left right left_on right_on d :
  pd_merge left right Left left_on right_on = Ok d ->
  (forall c, c ∈ columns left -> c ∈ columns right -> c ∈ shared_keys left_on right_on) ->
  length (rows left) <= length (rows d) /\
  forall l, l ∈ rows left ->
    exists r', r' ∈ rows d /\ forall c, c ∈ columns left -> cell r' c = cell l c.
Proof.
  unfold pd_merge. intros H Hdis. do 2 bind_inv H. injection H as <-. cbn [rows].
  rewrite (filter_none _ (columns left)).
  2:{ intros c Hc Hin. apply list_elem_of_filter in Hin as [Hn Hr]. apply Hn. by apply Hdis. }
  split.
  - apply length_flat_map_ge. intros l.
    destruct (filter _ (rows right)); simpl; lia.
  - intros l Hl.
    destruct (filter (fun r => keys_eqb (cells l left_on) (cells r right_on)) (rows right))
      as [|m ms] eqn:Em.
    + eexists. split.
      * apply list_elem_of_In, in_flat_map. exists l. split; [by apply list_elem_of_In|].
        rewrite Em. left. reflexivity.
      * intros c Hc. by apply cell_left_part.
    + eexists. split.
      * apply list_elem_of_In, in_flat_map. exists l. split; [by apply list_elem_of_In|].
        rewrite Em. left. reflexivity.
      * intros c Hc. by apply cell_left_part.
Qed.

Lemma organize_cols_rows df cols out :
  organize_cols df cols = Ok out ->
  (forall c, c ∈ cols -> c ∈ columns df) /\
  (forall c, c ∈ columns out -> c ∈ columns df) /\
  rows out = map (fun r : row =>
                    filter (fun kv => kv.1 ∈ cols ++ sort_by String.leb
                                                       (filter (fun c => c ∉ cols) (columns df)))
                           r) (rows df).
Proof.
  unfold organize_cols. intros H.
  pose proof (getitem_list_columns _ _ _ H) as [Hc Hl].
  split; [|split].
  - intros c Hin. apply Hl, elem_of_app. by left.
  - intros c Hin. by apply Hl, Hc.
  - unfold getitem_list in H. destruct (missing_labels df _); [|discriminate].
    by injection H as <-.
Qed.

(** After the row id is dropped and the columns are organized, every row
    still shows its cells in the columns that were there before. *)
Lemma drop_id_organize_rows d0 d1 d2 cols :
  drop_cols ["id"] d0 = Ok d1 -> organize_cols d1 cols = Ok d2 ->
  "id" ∉ cols ->
("id" ∉ columns d2) /\
  length (rows d2) = length (rows d0) /\
  forall r, r ∈ rows d0 ->
    exists r', r' ∈ rows d2 /\ forall c, c ∈ columns d0 -> c <> "id" -> cell r' c = cell r c.
Proof.
  intros Hd Ho Hid.
  pose proof (drop_cols_columns _ _ _ Hd) as Hcols.
  apply drop_cols_rows in Hd.
  apply organize_cols_rows in Ho as (_ & Hsub & Hrows).
  split; [|split].
  - intros Hin. apply Hsub in Hin. rewrite Hcols in Hin.
    apply list_elem_of_filter in Hin as [Hn _]. apply Hn. by left.
  - by rewrite Hrows, Hd, !length_map.
  - intros r Hr. eexists. split.
    + rewrite Hrows, Hd, map_map. apply list_elem_of_fmap. by exists r.
    + intros c Hc Hne. simpl. rewrite cell_select.
      * apply cell_drop. by intros ->%list_elem_of_singleton.
      * apply organized_cols_cover. rewrite Hcols. apply list_elem_of_filter.
        split; [|done]. by intros ->%list_elem_of_singleton.
Qed.

Lemma utilities_eia860_keeps eng t out :
  read_table eng "utilities_eia860" = Ok t -> utilities_eia860 eng = Ok out ->
  length (rows t) <= length (rows out) /\
("id" ∉ columns out) /\
  forall r, r ∈ rows t -> exists r', r' ∈ rows out /\ shows_record (columns t) r r'.
Proof.
  unfold utilities_eia860. intros Ht H. rewrite Ht in H. simpl in H.
  do 3 bind_inv H.
  pose proof (read_cols_columns _ _ _ _ Hx) as Hu.
  assert ("util_id_pudl" ∉ columns t) as Hno.
  { intros Hin.
    pose proof (pd_merge_overlap_renamed _ _ _ _ _ _ "util_id_pudl" Hx0 Hin) as Hren.
    apply Hren; [apply Hu; by_compute|by_compute|reflexivity|reflexivity|].
    apply drop_cols_columns in Hx1. apply organize_cols_rows in H as (Hlead & _ & _).
    assert ("util_id_pudl" ∈ columns x1) as Hin1 by (apply Hlead; by_compute).
    rewrite Hx1 in Hin1. by apply list_elem_of_filter in Hin1 as [_ Hin1]. }
  assert (forall c, c ∈ columns t -> c ∈ columns x ->
                    c ∈ shared_keys ["operator_id"] ["operator_id"]) as Hdis.
  { intros c Hc1 Hc2. apply Hu in Hc2. label_cases Hc2; [by_compute|done]. }
  pose proof (pd_merge_columns _ _ _ _ _ _ Hx0 Hdis) as Hcols.
  apply pd_merge_left_keeps in Hx0 as [Hlen Hkeep]; [|done].
  destruct (drop_id_organize_rows _ _ _ _ Hx1 H ltac:(by_compute)) as (Hid & Hl & Hrows).
  split; [lia|]. split; [done|].
  intros r Hr. destruct (Hkeep r Hr) as (r1 & Hr1 & Hc1).
  destruct (Hrows r1 Hr1) as (r' & Hr' & Hc').
  exists r'. split; [done|]. intros c Hc Hne.
  rewrite <- Hc1 by done. apply Hc'; [|done].
  rewrite Hcols. apply elem_of_app. by left.
Qed.

Lemma plants_eia860_keeps eng t out :
  read_table eng "plants_eia860" = Ok t -> plants_eia860 eng = Ok out ->
  length (rows t) <= length (rows out) /\
  ("id" ∉ columns out) /\
  forall r, r ∈ rows t -> exists r', r' ∈ rows out /\ shows_record (columns t) r r'.
Proof.
  unfold plants_eia860. intros Ht H. rewrite Ht in H. simpl in H.
  do 5 bind_inv H.
  pose proof (read_cols_columns _ _ _ _ Hx) as Hp.
  pose proof (read_cols_columns _ _ _ _ Hx1) as Hu.
  apply organize_cols_rows in H as H'. destruct H' as (Hlead & _ & _).
  apply drop_cols_columns in Hx3 as Hdrop.
  assert (forall c, c ∈ ["plant_id_pudl"; "util_id_pudl"] -> c ∈ columns x2) as Hin2.
  { intros c Hc. assert (c ∈ columns x3) as Hin3
      by (apply Hlead; revert c Hc; literal_subset).
    rewrite Hdrop in Hin3. by apply list_elem_of_filter in Hin3 as [_ Hin3]. }
  assert ("util_id_pudl" ∉ columns x0) as Hno2.
  { intros Hin.
    apply (pd_merge_overlap_renamed _ _ _ _ _ _ "util_id_pudl" Hx2 Hin);
      [apply Hu; by_compute|by_compute|reflexivity|reflexivity|apply Hin2; by_compute]. }
  assert ("plant_id_pudl" ∉ columns t) as Hno1.
  { intros Hin.
    assert ("plant_id_pudl" ∉ columns x0) as Hn0.
    { apply (pd_merge_overlap_renamed _ _ _ _ _ _ "plant_id_pudl" Hx0 Hin);
        [apply Hp; by_compute|by_compute|reflexivity|reflexivity]. }
    destruct (pd_merge_column_origin _ _ _ _ _ _ "plant_id_pudl" Hx2
                ltac:(apply Hin2; by_compute) eq_refl eq_refl) as [Hl|Hr]; [done|].
    apply Hu in Hr. absurd_label Hr. }
  assert (forall c, c ∈ columns t -> c ∈ columns x ->
                    c ∈ shared_keys ["plant_id"] ["plant_id"]) as Hdis1.
  { intros c Hc1 Hc2. apply Hp in Hc2. label_cases Hc2; [by_compute|done]. }
  assert (forall c, c ∈ columns x0 -> c ∈ columns x1 ->
                    c ∈ shared_keys ["operator_id"] ["operator_id"]) as Hdis2.
  { intros c Hc1 Hc2. apply Hu in Hc2. label_cases Hc2; [by_compute|done]. }
  pose proof (pd_merge_columns _ _ _ _ _ _ Hx0 Hdis1) as Hcols1.
  pose proof (pd_merge_columns _ _ _ _ _ _ Hx2 Hdis2) as Hcols2.
  apply pd_merge_left_keeps in Hx0 as [Hlen1 Hkeep1]; [|done].
  apply pd_merge_left_keeps in Hx2 as [Hlen2 Hkeep2]; [|done].
  destruct (drop_id_organize_rows _ _ _ _ Hx3 H ltac:(by_compute)) as (Hid & Hl & Hrows).
  split; [lia|]. split; [done|].
  intros r Hr. destruct (Hkeep1 r Hr) as (r1 & Hr1 & Hc1).
  destruct (Hkeep2 r1 Hr1) as (r2 & Hr2 & Hc2).
  destruct (Hrows r2 Hr2) as (r' & Hr' & Hc').
  exists r'. split; [done|]. intros c Hc Hne.
  assert (c ∈ columns x0) as Hin0 by (rewrite Hcols1; apply elem_of_app; by left).
  rewrite <- Hc1, <- Hc2 by done. apply Hc'; [|done].
  rewrite Hcols2. apply elem_of_app. by left.
Qed.

(** X12: [utilities_eia860] and [plants_eia860] lose no record.  Whenever
    they return, the frame has at least as many rows as the table they read,
    every record of the table is shown by a row with all its fields but the
    row id unchanged, and the frame has no [id] column. *)
Theorem eia860_outputs_keep_records (eng : gmap string DataFrame) :
  (forall t out,
     read_table eng "utilities_eia860" = Ok t -> utilities_eia860 eng = Ok out ->
     length (rows t) <= length (rows out) /\
     ("id" ∉ columns out) /\
     forall r, r ∈ rows t -> exists r', r' ∈ rows out /\ shows_record (columns t) r r') /\
  (forall t out,
     read_table eng "plants_eia860" = Ok t -> plants_eia860 eng = Ok out ->
     length (rows t) <= length (rows out) /\
     ("id" ∉ columns out) /\
     forall r, r ∈ rows t -> exists r', r' ∈ rows out /\ shows_record (columns t) r r').
Proof.
  split; intros t out Ht H.
  - by apply (utilities_eia860_keeps eng).
  - by apply (plants_eia860_keeps eng).
Qed.

Lemma eia860_outputs_keep_records_witness :
  exists t out,
    read_table sample_engine "utilities_eia860" = Ok t /\
    utilities_eia860 sample_engine = Ok out /\
    length (rows t) = 2 /\
    length (rows t) <= length (rows out) /\
    ("id" ∉ columns out) /\
    forall r, r ∈ rows t -> exists r', r' ∈ rows out /\ shows_record (columns t) r r'.
Proof.
  destruct (read_table sample_engine "utilities_eia860") as [t|err] eqn:Et;
    [|vm_compute in Et; discriminate].
  destruct (utilities_eia860 sample_engine) as [out|err] eqn:E;
    [|vm_compute in E; discriminate].
  exists t, out. split; [reflexivity|]. split; [reflexivity|]. split.
  - assert (length <$> (rows <$> read_table sample_engine "utilities_eia860") = Ok 2) as Hl
      by (vm_compute; reflexivity).
    rewrite Et in Hl. by injection Hl.
  - exact (proj1 (eia860_outputs_keep_records sample_engine) t out Et E).
Defined.

(** ** Inner joins of the FERC Form 1 outputs *)

Lemma pd_merge_inner_length left right left_on right_on d :
  pd_merge left right Inner left_on right_on = Ok d ->
  length (rows d)
  = list_sum (map (fun l => length (filter (fun m => keys_eqb (cells l left_on)
                                                              (cells m right_on))
                                           (rows right))) (rows left)).
Proof.
  unfold pd_merge. intros H. do 2 bind_inv H. injection H as <-. cbn [rows].
  rewrite length_flat_map. f_equal. apply map_ext. intros l.
  destruct (filter _ (rows right)); [done|]. cbn [length]. by rewrite length_map.
Qed.

Lemma organize_cols_length df cols out :
  organize_cols df cols = Ok out -> length (rows out) = length (rows df).
Proof.
  intros H. apply organize_cols_cells in H as (labels & _ & ->). by rewrite length_map.
Qed.

Lemma plants_utils_ferc1_count eng plants_ferc utils_ferc pu_ferc :
  read_table eng "plants_ferc" = Ok plants_ferc ->
  read_table eng "utilities_ferc" = Ok utils_ferc ->
  plants_utils_ferc1 eng = Ok pu_ferc ->
  length (rows pu_ferc)
  = list_sum (map (match_count ["respondent_id"] utils_ferc) (rows plants_ferc)).
Proof.
  unfold plants_utils_ferc1. intros Hp Hu H. rewrite Hp, Hu in H. simpl in H.
  by apply pd_merge_inner_length in H.
Qed.

Lemma plants_steam_ferc1_count eng steam_df pu_ferc out :
  read_table eng "plants_steam_ferc1" = Ok steam_df ->
  plants_utils_ferc1 eng = Ok pu_ferc ->
  plants_steam_ferc1 eng = Ok out ->
  length (rows out)
  = list_sum (map (match_count ["respondent_id"; "plant_name"] pu_ferc) (rows steam_df)).
Proof.
  unfold plants_steam_ferc1. intros Hs Hp H. rewrite Hs, Hp in H. simpl in H.
  bind_inv H. apply organize_cols_length in H. rewrite H.
  by apply pd_merge_inner_length in Hx.
Qed.

Lemma fuel_ferc1_count eng fuel_df pu_ferc out :
  read_table eng "fuel_ferc1" = Ok fuel_df ->
  plants_utils_ferc1 eng = Ok pu_ferc ->
  fuel_ferc1 eng = Ok out ->
  length (rows out)
  = list_sum (map (match_count ["respondent_id"; "plant_name"] pu_ferc) (rows fuel_df)).
Proof.
  unfold fuel_ferc1. intros Hf Hp H. rewrite Hf in H. simpl in H.
  do 3 bind_inv H. rewrite Hp in H. simpl in H. do 2 bind_inv H.
  apply organize_cols_length in H. apply drop_cols_rows in Hx3.
  rewrite H, Hx3, length_map. clear H Hx3.
  apply pd_merge_inner_length in Hx2. rewrite Hx2. clear Hx2.
  apply assign_binop_rows in Hx, Hx0, Hx1.
  rewrite Hx1, Hx0, Hx, !map_map. f_equal. apply map_ext. intros l.
  unfold match_count, cells. simpl. by cell_simpl.
Qed.

(** X13: the FERC Form 1 outputs are inner joins.  Whenever they return,
    the number of rows is the number of matches: each record of the table
    read appears once for every row of the plant and utility frame that has
    its respondent (and plant name), and a record without a match does not
    appear at all. *)
Theorem ferc1_outputs_row_count (eng : gmap string DataFrame) :
  (forall plants_ferc utils_ferc pu_ferc,
     read_table eng "plants_ferc" = Ok plants_ferc ->
     read_table eng "utilities_ferc" = Ok utils_ferc ->
     plants_utils_ferc1 eng = Ok pu_ferc ->
     length (rows pu_ferc)
     = list_sum (map (match_count ["respondent_id"] utils_ferc) (rows plants_ferc))) /\
  (forall steam_df pu_ferc out,
     read_table eng "plants_steam_ferc1" = Ok steam_df ->
     plants_utils_ferc1 eng = Ok pu_ferc ->
     plants_steam_ferc1 eng = Ok out ->
     length (rows out)
     = list_sum (map (match_count ["respondent_id"; "plant_name"] pu_ferc)
                     (rows steam_df))) /\
  (forall fuel_df pu_ferc out,
     read_table eng "fuel_ferc1" = Ok fuel_df ->
     plants_utils_ferc1 eng = Ok pu_ferc ->
     fuel_ferc1 eng = Ok out ->
     length (rows out)
     = list_sum (map (match_count ["respondent_id"; "plant_name"] pu_ferc)
                     (rows fuel_df))).
Proof.
  split; [|split].
  - intros. by eapply plants_utils_ferc1_count.
  - intros. by eapply plants_steam_ferc1_count.
  - intros. by eapply fuel_ferc1_count.
Qed.

Lemma ferc1_outputs_row_count_witness :
  exists fuel_df pu_ferc out,
    read_table ferc_engine "fuel_ferc1" = Ok fuel_df /\
    plants_utils_ferc1 ferc_engine = Ok pu_ferc /\
    fuel_ferc1 ferc_engine = Ok out /\
    map (match_count ["respondent_id"; "plant_name"] pu_ferc) (rows fuel_df) = [1; 0] /\
    length (rows out)
    = list_sum (map (match_count ["respondent_id"; "plant_name"] pu_ferc) (rows fuel_df)).
Proof.
  destruct (read_table ferc_engine "fuel_ferc1") as [fuel_df|err] eqn:Ef;
    [|vm_compute in Ef; discriminate].
  destruct (plants_utils_ferc1 ferc_engine) as [pu_ferc|err] eqn:Ep;
    [|vm_compute in Ep; discriminate].
  destruct (fuel_ferc1 ferc_engine) as [out|err] eqn:E;
    [|vm_compute in E; discriminate].
  exists fuel_df, pu_ferc, out. do 3 (split; [reflexivity|]). split.
  - assert ((fun p => map (match_count ["respondent_id"; "plant_name"] p.2) (rows p.1))
              <$> (fuel_df ← read_table ferc_engine "fuel_ferc1";
                   pu_ferc ← plants_utils_ferc1 ferc_engine; Ok (fuel_df, pu_ferc))
            = Ok [1; 0]) as Hm by (vm_compute; reflexivity).
    rewrite Ef, Ep in Hm. simpl in Hm. by injection Hm.
  - exact (proj2 (proj2 (ferc1_outputs_row_count ferc_engine)) fuel_df pu_ferc out Ef Ep E).
Defined.

(** The fuel record of the known plant, with the three totals
    [fuel_ferc1] computes: heat, cost by heat and cost by unit. *)
Example fuel_ferc1_sample :
  (fun out => (columns out,
               column_cells "plant_name" out,
               column_cells "fuel_consumed_total_mmbtu" out,
               column_cells "fuel_consumed_total_cost_mmbtu" out,
               column_cells "fuel_consumed_total_cost_unit" out))
    <$> fuel_ferc1 ferc_engine
  = Ok (["report_year"; "respondent_id"; "util_id_pudl"; "respondent_name";
         "plant_id_pudl"; "plant_name"; "fuel_avg_mmbtu_per_unit";
         "fuel_consumed_total_cost_mmbtu"; "fuel_consumed_total_cost_unit";
         "fuel_consumed_total_mmbtu"; "fuel_cost_per_mmbtu";
         "fuel_cost_per_unit_burned"; "fuel_qty_burned"],
        [VStr "Barry"], [VFloat 200], [VFloat 400], [VFloat 400])%float.
Proof. vm_compute. reflexivity. Qed.

(** ** Rows of [generators_eia860] *)

Lemma cell_left_unsuffixed overlap (cols : list string) (l : row)
    (rest : list (string * value)) c :
  c ∈ cols -> c ∉ overlap -> ends_with "_x" c = false ->
  cell (list_to_map (map (fun c' => (suffixed overlap "_x" c', cell l c')) cols ++ rest)) c
  = cell l c.
Proof.
  intros Hc Hov Hx. induction cols as [|c' cols IH]; [by apply elem_of_nil in Hc|].
  simpl. unfold cell at 1.
  destruct (decide (suffixed overlap "_x" c' = c)) as [Heq|Hne].
  - rewrite Heq, lookup_insert_eq. simpl.
    by apply suffixed_inv in Heq as [-> _].
  - rewrite lookup_insert_ne by done. apply elem_of_cons in Hc as [->|Hc].
    + exfalso. apply Hne. unfold suffixed. by rewrite bool_decide_eq_false_2.
    + by apply IH.
Qed.

Lemma pd_merge_requires left right h left_on right_on d :
  pd_merge left right h left_on right_on = Ok d ->
  (forall c, c ∈ left_on -> c ∈ columns left) /\
  (forall c, c ∈ right_on -> c ∈ columns right).
Proof.
  unfold pd_merge. intros H. do 2 bind_inv H.
  split; by eapply require_cols_Ok.
Qed.

Lemma not_overlap left right (shared : list string) c :
  (c ∈ columns right -> c ∈ shared) ->
  c ∉ filter (fun c => c ∈ filter (fun c => c ∉ shared) (columns right)) (columns left).
Proof.
  intros Hc Hin. apply list_elem_of_filter in Hin as [Hin _].
  apply list_elem_of_filter in Hin as [Hn Hr]. auto.
Qed.

(** A column of the left frame that the right frame does not have (or that
    is a shared key) keeps its name in the joined frame. *)
Lemma pd_merge_left_column left right h left_on right_on d c :
  pd_merge left right h left_on right_on = Ok d ->
  c ∈ columns left -> (c ∈ columns right -> c ∈ shared_keys left_on right_on) ->
  c ∈ columns d.
Proof.
  unfold pd_merge. intros H Hl Hr. do 2 bind_inv H. injection H as <-. simpl.
  apply elem_of_app. left. apply list_elem_of_fmap. exists c. split; [|done].
  unfold suffixed. rewrite bool_decide_eq_false_2; [done|]. by apply not_overlap.
Qed.

(** Every row of a joined frame comes from a row of the left frame, whose
    cells it shows in the columns that keep their name; in an inner join
    it also has a matching row of the right frame. *)
Lemma pd_merge_row_origin left right h left_on right_on d r :
  pd_merge left right h left_on right_on = Ok d -> r ∈ rows d ->
  exists l, l ∈ rows left /\
    (forall c, c ∈ columns left ->
               (c ∈ columns right -> c ∈ shared_keys left_on right_on) ->
               ends_with "_x" c = false -> cell r c = cell l c) /\
    (h = Inner ->
     exists m, m ∈ rows right /\ keys_eqb (cells l left_on) (cells m right_on) = true).
Proof.
  unfold pd_merge. intros H Hr. do 2 bind_inv H. injection H as <-. cbn [rows] in Hr.
  apply list_elem_of_In, in_flat_map in Hr as (l & Hl & Hr).
  apply list_elem_of_In in Hl, Hr. exists l. split; [done|].
  destruct (filter (fun r => keys_eqb (cells l left_on) (cells r right_on)) (rows right))
    as [|m ms] eqn:Em.
  - destruct h.
    + by apply elem_of_nil in Hr.
    + apply list_elem_of_singleton in Hr as ->. split; [|done].
      intros c Hc Hov Hsx. apply cell_left_unsuffixed; [done| |done]. by apply not_overlap.
  - assert (exists (m' : row) (rest : list (string * value)), m' ∈ m :: ms /\
              r = list_to_map
                    (map (fun c => (suffixed
                                      (filter (fun c => c ∈ filter (fun c => c ∉ shared_keys left_on right_on) (columns right)) (columns left))
                                      "_x" c, cell l c)) (columns left)
                     ++ rest))
      as (m' & rest & Hm' & ->).
    { destruct h;
        (apply elem_of_cons in Hr as [->|Hr];
         [exists m; eexists; split; [left|reflexivity]
         |apply list_elem_of_fmap in Hr as (m' & -> & Hm');
          exists m'; eexists; split; [by right|reflexivity]]). }
    split.
    + intros c Hc Hov Hsx. apply cell_left_unsuffixed; [done| |done]. by apply not_overlap.
    + intros _. exists m'. rewrite <- Em in Hm'.
      apply list_elem_of_filter in Hm' as [Hk Hm']. split; [done|].
      by apply Is_true_true.
Qed.

(** X14: every row [generators_eia860] returns comes from a record of the
    generators table and a row of [utilities_eia]: its [operator_id] cell
    matches that of the [utilities_eia] row, and it shows the record's cell
    in every field of the generators table that is not dropped and that no
    joined table has as well.  A row whose operator id no row of
    [utilities_eia] matches is therefore never returned. *)
Theorem generators_eia860_known_operator (eng : gmap string DataFrame)
    (gens utils_eia plants_eia out : DataFrame) :
  read_table eng "generators_eia860" = Ok gens ->
  read_table eng "utilities_eia" = Ok utils_eia ->
  read_table eng "plants_eia" = Ok plants_eia ->
  generators_eia860 eng = Ok out ->
  forall r, r ∈ rows out ->
    exists g m, g ∈ rows gens /\ m ∈ rows utils_eia /\
      key_eqb (cell r "operator_id") (cell m "operator_id") = true /\
      forall c, generator_field gens utils_eia plants_eia c -> cell r c = cell g c.
Proof.
  unfold generators_eia860. intros Hg Hu Hp H. rewrite Hg in H. simpl in H.
  do 3 bind_inv H. rewrite Hu in H. simpl in H. bind_inv H.
  rewrite Hp in H. simpl in H. do 2 bind_inv H.
  pose proof (read_cols_columns _ _ _ _ Hx0) as Hpc.
  pose proof (drop_cols_columns _ _ _ Hx) as Hc0.
  pose proof (drop_cols_columns _ _ _ Hx4) as Hc4.
  pose proof (drop_cols_rows _ _ _ Hx) as Hr0.
  pose proof (drop_cols_rows _ _ _ Hx4) as Hr4.
  apply organize_cols_rows in H as (Hlead & _ & Hrows).
  assert ("operator_id" ∈ columns x3) as Ho3.
  { assert ("operator_id" ∈ columns x4) as Hin by (apply Hlead; by_compute).
    rewrite Hc4 in Hin. by apply list_elem_of_filter in Hin as [_ Hin]. }
  assert ("operator_id" ∈ columns x1) as Ho1.
  { apply (pd_merge_requires _ _ _ _ _ _ Hx2). by_compute. }
  assert ("operator_id" ∈ columns x2) as Ho2.
  { apply (pd_merge_left_column _ _ _ _ _ _ _ Hx2 Ho1). intros _. by_compute. }
  assert ("operator_id" ∉ columns plants_eia) as Hop.
  { intros Hin.
    apply (pd_merge_overlap_renamed _ _ _ _ _ _ "operator_id" Hx3 Ho2 Hin);
      [by_compute|reflexivity|reflexivity|done]. }
  intros r Hr. rewrite Hrows, Hr4, map_map in Hr.
  apply list_elem_of_fmap in Hr as (r3 & -> & Hr3).
  destruct (pd_merge_row_origin _ _ _ _ _ _ _ Hx3 Hr3) as (r2 & Hr2 & Hcell3 & _).
  destruct (pd_merge_row_origin _ _ _ _ _ _ _ Hx2 Hr2) as (r1 & Hr1 & Hcell2 & Hm).
  destruct (Hm eq_refl) as (m & Hmu & Hkey).
  destruct (pd_merge_row_origin _ _ _ _ _ _ _ Hx1 Hr1) as (r0 & Hr0' & Hcell1 & _).
  rewrite Hr0 in Hr0'. apply list_elem_of_fmap in Hr0' as (g & -> & Hgr).
  exists g, m. split; [done|]. split; [done|]. split.
  - rewrite cell_select by (apply elem_of_app; left; by_compute).
    rewrite cell_drop by by_compute.
    rewrite Hcell3; [|done|done|reflexivity].
    rewrite Hcell2; [|done|intros _; by_compute|reflexivity].
    simpl in Hkey. by rewrite andb_true_r in Hkey.
  - intros c (Hcg & Hnd & Hnu & Hnp & Hsx).
    assert (c ∉ ["id"]) as Hid.
    { intros Hin. apply Hnd. label_cases Hin. by_compute. }
    assert (c ∉ ["operator_id"; "operator_name"; "plant_name"]) as Hdrop.
    { intros Hin. apply Hnd. label_cases Hin; by_compute. }
    assert (c ∈ columns x) as Hin0.
    { rewrite Hc0. by apply list_elem_of_filter. }
    assert (c ∈ columns x0 ->
            c ∈ shared_keys ["report_date"; "plant_id"] ["report_date"; "plant_id"]) as Hs1.
    { intros Hin. apply Hpc in Hin. label_cases Hin; try by_compute;
        exfalso; apply Hnd; by_compute. }
    assert (c ∈ columns utils_eia -> c ∈ shared_keys ["operator_id"] ["operator_id"])
      as Hs2 by done.
    assert (c ∈ columns plants_eia -> c ∈ shared_keys ["plant_id"] ["plant_id"]) as Hs3.
    { intros Hin. rewrite (Hnp Hin). by_compute. }
    pose proof (pd_merge_left_column _ _ _ _ _ _ _ Hx1 Hin0 Hs1) as Hin1.
    pose proof (pd_merge_left_column _ _ _ _ _ _ _ Hx2 Hin1 Hs2) as Hin2.
    pose proof (pd_merge_left_column _ _ _ _ _ _ _ Hx3 Hin2 Hs3) as Hin3.
    rewrite cell_select.
    2:{ apply organized_cols_cover. rewrite Hc4. by apply list_elem_of_filter. }
    rewrite cell_drop by done.
    rewrite Hcell3, Hcell2, Hcell1 by done. by apply cell_drop.
Qed.

Lemma generators_eia860_known_operator_witness :
  exists gens utils_eia plants_eia out,
    read_table generators_engine "generators_eia860" = Ok gens /\
    read_table generators_engine "utilities_eia" = Ok utils_eia /\
    read_table generators_engine "plants_eia" = Ok plants_eia /\
    generators_eia860 generators_engine = Ok out /\
    generator_field gens utils_eia plants_eia "generator_id" /\
    forall r, r ∈ rows out ->
      exists g m, g ∈ rows gens /\ m ∈ rows utils_eia /\
        key_eqb (cell r "operator_id") (cell m "operator_id") = true /\
        forall c, generator_field gens utils_eia plants_eia c -> cell r c = cell g c.
Proof.
  destruct (read_table generators_engine "generators_eia860") as [gens|err] eqn:Eg;
    [|vm_compute in Eg; discriminate].
  destruct (read_table generators_engine "utilities_eia") as [utils_eia|err] eqn:Eu;
    [|vm_compute in Eu; discriminate].
  destruct (read_table generators_engine "plants_eia") as [plants_eia|err] eqn:Ep;
    [|vm_compute in Ep; discriminate].
  destruct (generators_eia860 generators_engine) as [out|err] eqn:E;
    [|vm_compute in E; discriminate].
  exists gens, utils_eia, plants_eia, out. do 4 (split; [reflexivity|]). split.
  - vm_compute in Eg, Eu, Ep.
    injection Eg as <-. injection Eu as <-. injection Ep as <-.
    unfold generator_field. cbn [columns].
    split; [by_compute|]. split; [by_compute|]. split; [by_compute|].
    split; [|reflexivity]. intros Hin. absurd_label Hin.
  - exact (generators_eia860_known_operator generators_engine gens utils_eia plants_eia out
             Eg Eu Ep E).
Defined.

(** Of the two generators reported, only the one whose operator the glue
    tables know is returned. *)
Example generators_eia860_sample :
  (fun out => (columns out,
               column_cells "generator_id" out,
               column_cells "operator_id" out,
               column_cells "operator_name" out,
               column_cells "plant_name" out))
    <$> generators_eia860 generators_engine
  = Ok (["report_date"; "plant_id"; "plant_id_pudl"; "plant_name"; "operator_id";
         "util_id_pudl"; "operator_name"; "generator_id"; "latitude"; "longitude";
         "nameplate_capacity_mw"],
        [VStr "1"], [VInt 195], [VStr "Alabama Power Co"], [VStr "Barry"]).
Proof. vm_compute. reflexivity. Qed.

(** ** Cells of joined rows *)

Lemma cell_list_to_map_skip (l1 l2 : list (string * value)) c :
  (forall kv, kv ∈ l1 -> kv.1 <> c) ->
  cell (list_to_map (l1 ++ l2)) c = cell (list_to_map l2) c.
Proof.
  induction l1 as [|[k v] l1 IH]; intros Hk; [done|].
  simpl. unfold cell at 1. rewrite lookup_insert_ne.
  - apply IH. intros kv Hkv. apply Hk. by right.
  - apply (Hk (k, v)). left.
Qed.

Lemma cell_right_part (g : string -> string) (V : string -> value) (cols : list string) c :
  c ∈ cols -> (forall c', c' ∈ cols -> g c' = c -> c' = c) -> g c = c ->
  cell (list_to_map (map (fun c' => (g c', V c')) cols)) c = V c.
Proof.
  intros Hc Hg Hgc. induction cols as [|c' cols IH]; [by apply elem_of_nil in Hc|].
  simpl. unfold cell at 1.
  destruct (decide (g c' = c)) as [Heq|Hne].
  - rewrite Heq, lookup_insert_eq. simpl. f_equal. apply Hg; [left|done].
  - rewrite lookup_insert_ne by done. apply elem_of_cons in Hc as [->|Hc]; [done|].
    apply IH; [done|]. intros c'' Hc''. apply Hg. by right.
Qed.

Lemma merged_right_cell overlap (lcols rcols : list string) (l : row)
    (V : string -> value) c :
  c ∈ rcols -> c ∉ overlap -> c ∉ lcols ->
  ends_with "_x" c = false -> ends_with "_y" c = false ->
  cell (list_to_map (map (fun c' => (suffixed overlap "_x" c', cell l c')) lcols
                     ++ map (fun c' => (suffixed overlap "_y" c', V c')) rcols)) c
  = V c.
Proof.
  intros Hr Hov Hl Hx Hy. rewrite cell_list_to_map_skip.
  - apply (cell_right_part (suffixed overlap "_y") V); [done| |].
    + intros c' _ Heq. by apply suffixed_inv in Heq as [-> _].
    + unfold suffixed. by rewrite bool_decide_eq_false_2.
  - intros kv Hkv Heq. apply list_elem_of_fmap in Hkv as (c' & -> & Hc'). simpl in Heq.
    apply suffixed_inv in Heq as [-> _]; done.
Qed.

(** Every row of a joined frame comes from a row of the left frame, whose
    cells it shows in the columns that keep their name.  In the columns
    that only the right frame has it shows the cells of a matching row of
    the right frame, promoted to floats when the join is a left join in
    which some row finds no match; the row of such a row shows [nan]. *)
Lemma pd_merge_row_parts left right h left_on right_on d r :
  pd_merge left right h left_on right_on = Ok d -> r ∈ rows d ->
  exists l, l ∈ rows left /\
    (forall c, c ∈ columns left ->
               (c ∈ columns right -> c ∈ shared_keys left_on right_on) ->
               ends_with "_x" c = false -> cell r c = cell l c) /\
    ((exists m, m ∈ rows right /\
        keys_eqb (cells l left_on) (cells m right_on) = true /\
        forall c, c ∈ columns right -> c ∉ shared_keys left_on right_on ->
                  c ∉ columns left ->
                  ends_with "_x" c = false -> ends_with "_y" c = false ->
                  cell r c = match h with
                             | Left => if unmatched_rows left right left_on right_on
                                       then promote (cell m c) else cell m c
                             | Inner => cell m c
                             end)
     \/ (h = Left /\
         filter (fun m => keys_eqb (cells l left_on) (cells m right_on)) (rows right) = [] /\
         forall c, c ∈ columns right -> c ∉ shared_keys left_on right_on ->
                   c ∉ columns left ->
                   ends_with "_x" c = false -> ends_with "_y" c = false ->
                   cell r c = VFloat PrimFloat.nan)).
Proof.
  unfold pd_merge. intros H Hr. do 2 bind_inv H. injection H as <-. cbn [rows] in Hr.
  apply list_elem_of_In, in_flat_map in Hr as (l & Hl & Hr).
  apply list_elem_of_In in Hl, Hr. exists l. split; [done|].
  assert (forall c, c ∈ columns right -> c ∉ shared_keys left_on right_on ->
                    c ∉ columns left ->
                    c ∈ filter (fun c => c ∉ shared_keys left_on right_on) (columns right) /\
                    c ∉ filter (fun c => c ∈ filter (fun c => c ∉ shared_keys left_on right_on)
                                                     (columns right)) (columns left))
    as Hright.
  { intros c Hc Hs Hn. split; [by apply list_elem_of_filter|].
    intros Hin. by apply list_elem_of_filter in Hin as [_ Hin]. }
  destruct (filter (fun r => keys_eqb (cells l left_on) (cells r right_on)) (rows right))
    as [|m ms] eqn:Em.
  - destruct h.
    + by apply elem_of_nil in Hr.
    + apply list_elem_of_singleton in Hr as ->. split.
      * intros c Hc Hov Hsx. apply cell_left_unsuffixed; [done| |done]. by apply not_overlap.
      * right. split; [done|]. split; [done|].
        intros c Hc Hs Hn Hsx Hsy. destruct (Hright c Hc Hs Hn) as [Hrc Hov].
        by apply (merged_right_cell _ _ _ _ (fun _ => VFloat PrimFloat.nan)).
  - assert (exists m', m' ∈ m :: ms /\
              r = list_to_map
                    (map (fun c => (suffixed
                                      (filter (fun c => c ∈ filter (fun c => c ∉ shared_keys left_on right_on) (columns right)) (columns left))
                                      "_x" c, cell l c)) (columns left)
                     ++ map (fun c => (suffixed
                                      (filter (fun c => c ∈ filter (fun c => c ∉ shared_keys left_on right_on) (columns right)) (columns left))
                                      "_y" c,
                                       match h with
                                       | Left => if unmatched_rows left right left_on right_on
                                                 then promote (cell m' c) else cell m' c
                                       | Inner => cell m' c
                                       end))
                           (filter (fun c => c ∉ shared_keys left_on right_on) (columns right))))
      as (m' & Hm' & ->).
    { destruct h;
        (apply elem_of_cons in Hr as [->|Hr];
         [exists m; split; [left|reflexivity]
         |apply list_elem_of_fmap in Hr as (m' & -> & Hm');
          exists m'; split; [by right|reflexivity]]). }
    split.
    + intros c Hc Hov Hsx. apply cell_left_unsuffixed; [done| |done]. by apply not_overlap.
    + left. exists m'. rewrite <- Em in Hm'.
      apply list_elem_of_filter in Hm' as [Hk Hm']. split; [done|].
      split; [by apply Is_true_true|].
      intros c Hc Hs Hn Hsx Hsy. destruct (Hright c Hc Hs Hn) as [Hrc Hov].
      by apply (merged_right_cell _ _ _ _
                  (fun c => match h with
                            | Left => if unmatched_rows left right left_on right_on
                                      then promote (cell m' c) else cell m' c
                            | Inner => cell m' c
                            end)).
Qed.

(** In a left join every row of the left frame has a row of its own. *)
Lemma pd_merge_left_row left right left_on right_on d l :
  pd_merge left right Left left_on right_on = Ok d -> l ∈ rows left ->
  exists r, r ∈ rows d /\
    (forall c, c ∈ columns left ->
               (c ∈ columns right -> c ∈ shared_keys left_on right_on) ->
               ends_with "_x" c = false -> cell r c = cell l c) /\
    (filter (fun m => keys_eqb (cells l left_on) (cells m right_on)) (rows right) = [] ->
     forall c, c ∈ columns right -> c ∉ shared_keys left_on right_on ->
               c ∉ columns left ->
               ends_with "_x" c = false -> ends_with "_y" c = false ->
               cell r c = VFloat PrimFloat.nan).
Proof.
  unfold pd_merge. intros H Hl. do 2 bind_inv H. injection H as <-. cbn [rows].
  destruct (filter (fun r => keys_eqb (cells l left_on) (cells r right_on)) (rows right))
    as [|m ms] eqn:Em.
  - eexists. split; [|split].
    + apply list_elem_of_In, in_flat_map. exists l. split; [by apply list_elem_of_In|].
      rewrite Em. left. reflexivity.
    + intros c Hc Hov Hsx. apply cell_left_unsuffixed; [done| |done]. by apply not_overlap.
    + intros _ c Hc Hs Hn Hsx Hsy.
      apply (merged_right_cell _ _ _ _ (fun _ => VFloat PrimFloat.nan)); try done.
      * by apply list_elem_of_filter.
      * intros Hin. by apply list_elem_of_filter in Hin as [_ Hin].
  - eexists. split; [|split].
    + apply list_elem_of_In, in_flat_map. exists l. split; [by apply list_elem_of_In|].
      rewrite Em. left. reflexivity.
    + intros c Hc Hov Hsx. apply cell_left_unsuffixed; [done| |done]. by apply not_overlap.
    + done.
Qed.

(** ** Matches of a record in a table *)

Lemma stores_integral_ids_spec df c :
  stores_integral_ids df = true -> c ∈ ["plant_id_pudl"; "util_id_pudl"] ->
  c ∈ columns df -> Forall (int_at c) (rows df).
Proof.
  unfold stores_integral_ids. intros H Hc Hin.
  rewrite forallb_forall in H. apply list_elem_of_In, H in Hc.
  rewrite bool_decide_eq_true_2 in Hc by done. simpl in Hc.
  rewrite forallb_forall in Hc. apply Forall_forall. intros r Hr.
  apply list_elem_of_In, Hc in Hr. unfold int_at.
  destruct (cell r c); try discriminate. by eexists.
Qed.

Lemma match_count_cells on glue (l l' : row) :
  cells l on = cells l' on -> match_count on glue l = match_count on glue l'.
Proof. unfold match_count. by intros ->. Qed.

Lemma match_count_select on (right glue : DataFrame) (sel : row -> row) l :
  rows right = map sel (rows glue) -> (forall m, cells (sel m) on = cells m on) ->
  match_count on right l = match_count on glue l.
Proof.
  unfold match_count. intros -> Hsel.
  induction (rows glue) as [|m ms IH]; [done|].
  cbn [map]. rewrite !filter_cons, Hsel.
  destruct (decide (keys_eqb (cells l on) (cells m on))); cbn [length]; by rewrite IH.
Qed.

Lemma all_matched_true on glue df :
  all_matched on glue df = true <->
  forall l, l ∈ rows df -> match_count on glue l <> 0.
Proof.
  unfold all_matched. rewrite forallb_forall. split.
  - intros H l Hl Hz. apply list_elem_of_In, H in Hl. rewrite Hz in Hl. discriminate.
  - intros H l Hl. apply list_elem_of_In, H in Hl.
    by destruct (match_count on glue l).
Qed.

Lemma all_matched_false on glue df :
  all_matched on glue df = false <->
  exists l, l ∈ rows df /\ match_count on glue l = 0.
Proof.
  split.
  - intros H. destruct (decide (Exists (fun l => match_count on glue l = 0) (rows df)))
      as [He|He].
    + apply Exists_exists in He as (l & Hl & Hz). by exists l.
    + assert (all_matched on glue df = true) as Ht; [|by rewrite Ht in H].
      apply all_matched_true. intros l Hl Hz. apply He, Exists_exists. by exists l.
  - intros (l & Hl & Hz). destruct (all_matched on glue df) eqn:E; [|done].
    exfalso. by eapply all_matched_true.
Qed.

Lemma unmatched_rows_true left right on :
  unmatched_rows left right on on = true <->
  exists l, l ∈ rows left /\ match_count on right l = 0.
Proof.
  unfold unmatched_rows, match_count. rewrite existsb_exists. split.
  - intros (l & Hl & H). exists l. split; [by apply list_elem_of_In|].
    apply bool_decide_eq_true in H. by rewrite H.
  - intros (l & Hl & H). exists l. split; [by apply list_elem_of_In|].
    apply bool_decide_eq_true. by apply length_zero_iff_nil.
Qed.

Lemma shared_keys_same (on : list string) k : k ∈ on -> k ∈ shared_keys on on.
Proof.
  unfold shared_keys. induction on as [|a on IH]; intros Hk; [by apply elem_of_nil in Hk|].
  cbn [zip zip_with]. rewrite filter_cons. cbn [fst snd].
  rewrite decide_True by (by rewrite String.eqb_refl).
  cbn [map fst]. apply elem_of_cons in Hk as [->|Hk]; [left|right; by apply IH].
Qed.

(** ** Identifiers attached by a left join *)

Lemma left_join_attaches left right glue on d c (sel : row -> row) :
  pd_merge left right Left on on = Ok d ->
  rows right = map sel (rows glue) ->
  (forall m, cells (sel m) on = cells m on) -> (forall m, cell (sel m) c = cell m c) ->
  c ∈ columns right -> c ∉ shared_keys on on -> c ∉ columns left ->
  ends_with "_x" c = false -> ends_with "_y" c = false ->
  (forall k, k ∈ on -> ends_with "_x" k = false) ->
  Forall (int_at c) (rows glue) ->
  left_joined_id c on glue d.
Proof.
  intros Hm Hrows Hselk Hselc Hcr Hcs Hcl Hx Hy Hkx Hint.
  pose proof (pd_merge_requires _ _ _ _ _ _ Hm) as [Hreq _].
  assert (forall (r l : row),
            (forall c, c ∈ columns left ->
                       (c ∈ columns right -> c ∈ shared_keys on on) ->
                       ends_with "_x" c = false -> cell r c = cell l c) ->
            match_count on glue r = match_count on right l) as Hkeys.
  { intros r l Hcells.
    rewrite (match_count_select on right glue sel l Hrows Hselk).
    apply match_count_cells. unfold cells. apply map_ext_in. intros k Hk.
    apply list_elem_of_In in Hk.
    apply Hcells; [by apply Hreq|intros _; by apply shared_keys_same|by apply Hkx]. }
  assert (forall m, m ∈ rows right -> exists z, cell m c = VInt z) as Hright.
  { intros m Hin. rewrite Hrows in Hin. apply list_elem_of_fmap in Hin as (m0 & -> & Hm0).
    rewrite Hselc. rewrite Forall_forall in Hint. by apply Hint. }
  assert (forall (l m : row), m ∈ rows right ->
            keys_eqb (cells l on) (cells m on) = true -> match_count on right l <> 0) as Hpos.
  { intros l m Hin Hk Hz. unfold match_count in Hz. apply length_zero_iff_nil in Hz.
    assert (m ∈ filter (fun m => keys_eqb (cells l on) (cells m on)) (rows right)) as Hf
      by (apply list_elem_of_filter; split; [by apply Is_true_true|done]).
    rewrite Hz in Hf. by apply elem_of_nil in Hf. }
  split.
  - intros Hall. rewrite all_matched_true in Hall.
    assert (unmatched_rows left right on on = false) as Hflag.
    { destruct (unmatched_rows left right on on) eqn:E; [|done]. exfalso.
      apply unmatched_rows_true in E as (l & Hl & Hz).
      destruct (pd_merge_left_row _ _ _ _ _ _ Hm Hl) as (r & Hr & Hcells & _).
      apply (Hall r Hr). by rewrite (Hkeys r l Hcells). }
    apply Forall_forall. intros r Hr.
    destruct (pd_merge_row_parts _ _ _ _ _ _ _ Hm Hr) as (l & Hl & Hcells & [Hmatch|Hnan]).
    + destruct Hmatch as (m & Hin & _ & Hcell).
      unfold int_at. rewrite (Hcell c) by done. rewrite Hflag. by apply Hright.
    + destruct Hnan as (_ & Hnil & _). exfalso. apply (Hall r Hr).
      rewrite (Hkeys r l Hcells). unfold match_count. by rewrite Hnil.
  - intros Hall. apply all_matched_false in Hall as (r0 & Hr0 & Hz0).
    assert (unmatched_rows left right on on = true) as Hflag.
    { apply unmatched_rows_true.
      destruct (pd_merge_row_parts _ _ _ _ _ _ _ Hm Hr0) as (l & Hl & Hcells & _).
      exists l. split; [done|]. by rewrite <- (Hkeys r0 l Hcells). }
    apply Forall_forall. intros r Hr.
    destruct (pd_merge_row_parts _ _ _ _ _ _ _ Hm Hr) as (l & Hl & Hcells & [Hmatch|Hnan]).
    + destruct Hmatch as (m & Hin & Hk & Hcell).
      rewrite (Hcell c) by done. rewrite Hflag.
      destruct (Hright m Hin) as [z Hz]. rewrite Hz. cbn [promote]. split.
      * unfold float_at. rewrite (Hcell c) by done. rewrite Hflag, Hz. by eexists.
      * intros Hzero. exfalso. rewrite (Hkeys r l Hcells) in Hzero.
        by apply (Hpos l m Hin Hk).
    + destruct Hnan as (_ & _ & Hcell). split.
      * unfold float_at. rewrite (Hcell c) by done. by eexists.
      * intros _. by apply Hcell.
Qed.

Lemma left_joined_id_transfer c on glue (A B : DataFrame) :
  (forall b, b ∈ rows B ->
     exists a, a ∈ rows A /\ cells b on = cells a on /\ cell b c = cell a c) ->
  (forall a, a ∈ rows A -> exists b, b ∈ rows B /\ cells b on = cells a on) ->
  left_joined_id c on glue A -> left_joined_id c on glue B.
Proof.
  intros Hba Hab [Hint Hfloat]. split.
  - intros Hall. rewrite all_matched_true in Hall.
    assert (all_matched on glue A = true) as HA.
    { apply all_matched_true. intros a Ha Hz.
      destruct (Hab a Ha) as (b & Hb & Hk). apply (Hall b Hb).
      by rewrite (match_count_cells on glue b a Hk). }
    specialize (Hint HA). rewrite Forall_forall in Hint.
    apply Forall_forall. intros b Hb. destruct (Hba b Hb) as (a & Ha & _ & Hc).
    unfold int_at. rewrite Hc. by apply Hint.
  - intros Hall. apply all_matched_false in Hall as (b0 & Hb0 & Hz0).
    assert (all_matched on glue A = false) as HA.
    { apply all_matched_false. destruct (Hba b0 Hb0) as (a & Ha & Hk & _).
      exists a. split; [done|]. by rewrite <- (match_count_cells on glue b0 a Hk). }
    specialize (Hfloat HA). rewrite Forall_forall in Hfloat.
    apply Forall_forall. intros b Hb. destruct (Hba b Hb) as (a & Ha & Hk & Hc).
    destruct (Hfloat a Ha) as [Hf Hn]. unfold float_at. rewrite Hc. split; [done|].
    intros Hz. apply Hn. by rewrite <- (match_count_cells on glue b a Hk).
Qed.

Lemma left_joined_id_map c on glue (A B : DataFrame) (g : row -> row) :
  rows B = map g (rows A) ->
  (forall r k, k ∈ c :: on -> cell (g r) k = cell r k) ->
  left_joined_id c on glue A -> left_joined_id c on glue B.
Proof.
  intros Hrows Hg. 
  assert (forall r, cells (g r) on = cells r on) as Hk.
  { intros r. unfold cells. apply map_ext_in. intros k Hin.
    apply Hg. right. by apply list_elem_of_In. }
  apply left_joined_id_transfer.
  - intros b Hb. rewrite Hrows in Hb. apply list_elem_of_fmap in Hb as (a & -> & Ha).
    exists a. split; [done|]. split; [done|]. apply Hg. left.
  - intros a Ha. exists (g a). split; [|done].
    rewrite Hrows. apply list_elem_of_fmap. by exists a.
Qed.

(** A later left join carries the identifier along with the rows. *)
Lemma left_joined_id_carried c on glue left right left_on right_on d :
  pd_merge left right Left left_on right_on = Ok d ->
  (forall k, k ∈ c :: on ->
     k ∈ columns left /\ (k ∈ columns right -> k ∈ shared_keys left_on right_on) /\
     ends_with "_x" k = false) ->
  left_joined_id c on glue left -> left_joined_id c on glue d.
Proof.
  intros Hm Hcols.
  assert (forall r l : row,
            (forall c, c ∈ columns left ->
                       (c ∈ columns right -> c ∈ shared_keys left_on right_on) ->
                       ends_with "_x" c = false -> cell r c = cell l c) ->
            cells r on = cells l on /\ cell r c = cell l c) as Hkeep.
  { intros r l Hcells. split.
    - unfold cells. apply map_ext_in. intros k Hk. apply list_elem_of_In in Hk.
      destruct (Hcols k) as (H1 & H2 & H3); [by right|]. by apply Hcells.
    - destruct (Hcols c) as (H1 & H2 & H3); [left|]. by apply Hcells. }
  apply left_joined_id_transfer.
  - intros r Hr.
    destruct (pd_merge_row_parts _ _ _ _ _ _ _ Hm Hr) as (l & Hl & Hcells & _).
    exists l. split; [done|]. by apply Hkeep.
  - intros l Hl.
    destruct (pd_merge_left_row _ _ _ _ _ _ Hm Hl) as (r & Hr & Hcells & _).
    exists r. split; [done|]. by apply Hkeep.
Qed.

Lemma getitem_list_rows df labels d :
  getitem_list df labels = Ok d ->
  rows d = map (fun r : row => filter (fun kv => kv.1 ∈ labels) r) (rows df).
Proof.
  unfold getitem_list. destruct (missing_labels df labels); [|discriminate].
  by intros [= <-].
Qed.

Lemma read_cols_inv eng name labels df d :
  read_table eng name = Ok df -> read_cols eng name labels = Ok d ->
  (forall c, c ∈ labels -> c ∈ columns df) /\
  (forall c, c ∈ columns d <-> c ∈ labels) /\
  rows d = map (fun r : row => filter (fun kv => kv.1 ∈ labels) r) (rows df).
Proof.
  unfold read_cols. intros -> H. simpl in H.
  pose proof (getitem_list_columns _ _ _ H) as [Hc Hl].
  split; [done|]. split; [done|]. by apply getitem_list_rows.
Qed.

Lemma pd_merge_right_column left right h left_on right_on d c :
  pd_merge left right h left_on right_on = Ok d ->
  c ∈ columns right -> c ∉ shared_keys left_on right_on -> c ∉ columns left ->
  c ∈ columns d.
Proof.
  unfold pd_merge. intros H Hr Hs Hl. do 2 bind_inv H. injection H as <-. simpl.
  apply elem_of_app. right. apply list_elem_of_fmap. exists c.
  split; [|by apply list_elem_of_filter].
  unfold suffixed. rewrite bool_decide_eq_false_2; [done|].
  intros Hin. by apply list_elem_of_filter in Hin as [_ Hin].
Qed.

(** The rows after [drop] and [organize_cols], cell by cell. *)
Lemma drop_organize_rows labels d0 d1 cols d2 :
  drop_cols labels d0 = Ok d1 -> organize_cols d1 cols = Ok d2 ->
  exists g : row -> row,
    rows d2 = map g (rows d0) /\
    forall r c, c ∈ cols -> c ∉ labels -> cell (g r) c = cell r c.
Proof.
  intros Hd Ho. apply drop_cols_rows in Hd.
  apply organize_cols_rows in Ho as (_ & _ & Hrows).
  eexists (fun r => filter _ (filter _ r)). split.
  - rewrite Hrows, Hd, map_map. reflexivity.
  - intros r c Hc Hn. simpl. rewrite cell_select by (apply elem_of_app; by left).
    by apply cell_drop.
Qed.

(** ** Identifiers in the EIA 860 outputs *)

Lemma utilities_eia860_ids eng utils_eia out :
  read_table eng "utilities_eia" = Ok utils_eia ->
  stores_integral_ids utils_eia = true ->
  utilities_eia860 eng = Ok out ->
  left_joined_id "util_id_pudl" ["operator_id"] utils_eia out.
Proof.
  unfold utilities_eia860. intros Hu Hs H. do 4 bind_inv H.
  destruct (read_cols_inv _ _ _ _ _ Hu Hx0) as (Hlab & Hcols & Hrows).
  pose proof (organize_cols_rows _ _ _ H) as (Hlead & _ & _).
  assert ("util_id_pudl" ∈ columns x1) as Hin1.
  { assert ("util_id_pudl" ∈ columns x2) as Hin2 by (apply Hlead; by_compute).
    rewrite (drop_cols_columns _ _ _ Hx2) in Hin2.
    by apply list_elem_of_filter in Hin2 as [_ Hin2]. }
  assert ("util_id_pudl" ∉ columns x) as Hno.
  { intros Hin.
    apply (pd_merge_overlap_renamed _ _ _ _ _ _ "util_id_pudl" Hx1 Hin);
      [apply Hcols; by_compute|by_compute|reflexivity|reflexivity|done]. }
  destruct (drop_organize_rows _ _ _ _ _ Hx2 H) as (g & Hg & Hcell).
  apply (left_joined_id_map _ _ _ x1 out g Hg).
  { intros r k Hk. apply Hcell; [revert k Hk; literal_subset|].
    intros Hid. label_cases Hid. absurd_label Hk. }
  eapply (left_join_attaches x x0 utils_eia); try exact Hx1; try exact Hrows.
  - intros m. unfold cells. simpl. by rewrite cell_select by by_compute.
  - intros m. by rewrite cell_select by by_compute.
  - apply Hcols. by_compute.
  - by_compute.
  - done.
  - reflexivity.
  - reflexivity.
  - intros k Hk. label_cases Hk. reflexivity.
  - apply stores_integral_ids_spec; [done|by_compute|apply Hlab; by_compute].
Qed.

Lemma plants_eia860_ids eng plants_eia utils_eia out :
  read_table eng "plants_eia" = Ok plants_eia ->
  read_table eng "utilities_eia" = Ok utils_eia ->
  stores_integral_ids plants_eia = true -> stores_integral_ids utils_eia = true ->
  plants_eia860 eng = Ok out ->
  left_joined_id "plant_id_pudl" ["plant_id"] plants_eia out /\
  left_joined_id "util_id_pudl" ["operator_id"] utils_eia out.
Proof.
  unfold plants_eia860. intros Hp Hu Hsp Hsu H. do 6 bind_inv H.
  destruct (read_cols_inv _ _ _ _ _ Hp Hx0) as (Hlabp & Hcolsp & Hrowsp).
  destruct (read_cols_inv _ _ _ _ _ Hu Hx2) as (Hlabu & Hcolsu & Hrowsu).
  pose proof (organize_cols_rows _ _ _ H) as (Hlead & _ & _).
  assert (forall c, c ∈ ["plant_id_pudl"; "util_id_pudl"] -> c ∈ columns x3) as Hin3.
  { intros c Hc. assert (c ∈ columns x4) as Hin4
      by (apply Hlead; revert c Hc; literal_subset).
    rewrite (drop_cols_columns _ _ _ Hx4) in Hin4.
    by apply list_elem_of_filter in Hin4 as [_ Hin4]. }
  assert ("util_id_pudl" ∉ columns x1) as Hno2.
  { intros Hin.
    apply (pd_merge_overlap_renamed _ _ _ _ _ _ "util_id_pudl" Hx3 Hin);
      [apply Hcolsu; by_compute|by_compute|reflexivity|reflexivity|apply Hin3; by_compute]. }
  assert ("plant_id_pudl" ∉ columns x) as Hno1.
  { intros Hin.
    assert ("plant_id_pudl" ∉ columns x1) as Hn1.
    { apply (pd_merge_overlap_renamed _ _ _ _ _ _ "plant_id_pudl" Hx1 Hin);
        [apply Hcolsp; by_compute|by_compute|reflexivity|reflexivity]. }
    destruct (pd_merge_column_origin _ _ _ _ _ _ "plant_id_pudl" Hx3
                ltac:(apply Hin3; by_compute) eq_refl eq_refl) as [Hl|Hr]; [done|].
    apply Hcolsu in Hr. absurd_label Hr. }
  destruct (drop_organize_rows _ _ _ _ _ Hx4 H) as (g & Hg & Hcell).
  split.
  - apply (left_joined_id_map _ _ _ x3 out g Hg).
    { intros r k Hk. apply Hcell; [revert k Hk; literal_subset|].
      intros Hid. label_cases Hid. absurd_label Hk. }
    apply (left_joined_id_carried _ _ _ x1 x2 _ _ _ Hx3).
    { intros k Hk. split; [|split].
      - label_cases Hk.
        + apply (pd_merge_right_column _ _ _ _ _ _ _ Hx1);
            [apply Hcolsp; by_compute|by_compute|done].
        + apply (pd_merge_left_column _ _ _ _ _ _ _ Hx1).
          * apply (pd_merge_requires _ _ _ _ _ _ Hx1). by_compute.
          * intros _. by_compute.
      - intros Hin. apply Hcolsu in Hin. exfalso. label_cases Hk; absurd_label Hin.
      - label_cases Hk; reflexivity. }
    eapply (left_join_attaches x x0 plants_eia); try exact Hx1; try exact Hrowsp.
    + intros m. unfold cells. simpl. by rewrite cell_select by by_compute.
    + intros m. by rewrite cell_select by by_compute.
    + apply Hcolsp. by_compute.
    + by_compute.
    + done.
    + reflexivity.
    + reflexivity.
    + intros k Hk. label_cases Hk. reflexivity.
    + apply stores_integral_ids_spec; [done|by_compute|apply Hlabp; by_compute].
  - apply (left_joined_id_map _ _ _ x3 out g Hg).
    { intros r k Hk. apply Hcell; [revert k Hk; literal_subset|].
      intros Hid. label_cases Hid. absurd_label Hk. }
    eapply (left_join_attaches x1 x2 utils_eia); try exact Hx3; try exact Hrowsu.
    + intros m. unfold cells. simpl. by rewrite cell_select by by_compute.
    + intros m. by rewrite cell_select by by_compute.
    + apply Hcolsu. by_compute.
    + by_compute.
    + done.
    + reflexivity.
    + reflexivity.
    + intros k Hk. label_cases Hk. reflexivity.
    + apply stores_integral_ids_spec; [done|by_compute|apply Hlabu; by_compute].
Qed.

(** ** Identifiers through joins that keep the stored cells *)

Lemma shared_keys_left (left_on right_on : list string) c :
  c ∈ shared_keys left_on right_on -> c ∈ left_on.
Proof.
  unfold shared_keys. intros H. apply list_elem_of_fmap in H as ([a b] & -> & H).
  apply list_elem_of_filter in H as [_ H]. by apply elem_of_zip_l in H.
Qed.

(** A column of the left frame that reaches the joined frame under its
    name shows the cells of the left frame. *)
Lemma pd_merge_kept_int left right h left_on right_on d c :
  pd_merge left right h left_on right_on = Ok d ->
  c ∈ columns left -> c ∈ columns d ->
  ends_with "_x" c = false -> ends_with "_y" c = false ->
  Forall (int_at c) (rows left) -> Forall (int_at c) (rows d).
Proof.
  intros Hm Hl Hd Hx Hy Hint.
  assert (c ∈ columns right -> c ∈ shared_keys left_on right_on) as Hs.
  { intros Hr. destruct (decide (c ∈ shared_keys left_on right_on)) as [|Hn]; [done|].
    by destruct (pd_merge_overlap_renamed _ _ _ _ _ _ c Hm Hl Hr Hn Hx Hy). }
  rewrite Forall_forall in Hint. apply Forall_forall. intros r Hr.
  destruct (pd_merge_row_parts _ _ _ _ _ _ _ Hm Hr) as (l & Hin & Hcells & _).
  unfold int_at. rewrite (Hcells c) by done. by apply Hint.
Qed.

(** An inner join returns the cells the two frames hold. *)
Lemma pd_merge_inner_int left right left_on right_on d c :
  pd_merge left right Inner left_on right_on = Ok d ->
  c ∈ columns d -> ends_with "_x" c = false -> ends_with "_y" c = false ->
  (c ∈ columns left -> Forall (int_at c) (rows left)) ->
  (c ∈ columns right -> Forall (int_at c) (rows right)) ->
  Forall (int_at c) (rows d).
Proof.
  intros Hm Hd Hx Hy Hleft Hright.
  destruct (decide (c ∈ columns left)) as [Hl|Hl].
  - eapply pd_merge_kept_int; eauto.
  - destruct (pd_merge_column_origin _ _ _ _ _ _ c Hm Hd Hx Hy) as [|Hr]; [done|].
    assert (c ∉ shared_keys left_on right_on) as Hs.
    { intros Hs. apply Hl. apply (pd_merge_requires _ _ _ _ _ _ Hm).
      by eapply shared_keys_left. }
    specialize (Hright Hr). rewrite Forall_forall in Hright.
    apply Forall_forall. intros r Hin.
    destruct (pd_merge_row_parts _ _ _ _ _ _ _ Hm Hin) as (l & _ & _ & [Hmatch|Hnan]).
    + destruct Hmatch as (m & Hmr & _ & Hcell). unfold int_at.
      rewrite (Hcell c) by done. by apply Hright.
    + by destruct Hnan as [? _].
Qed.

Lemma integral_tables_spec eng names n df c :
  integral_tables eng names = true -> n ∈ names -> read_table eng n = Ok df ->
  c ∈ ["plant_id_pudl"; "util_id_pudl"] -> c ∈ columns df -> Forall (int_at c) (rows df).
Proof.
  unfold integral_tables, read_table. intros H Hn Hr. rewrite forallb_forall in H.
  apply list_elem_of_In, H in Hn. destruct (eng !! n); [|discriminate].
  injection Hr as ->. by apply stores_integral_ids_spec.
Qed.

Lemma integral_tables_read eng names n df :
  integral_tables eng names = true -> n ∈ names -> read_table eng n = Ok df ->
  stores_integral_ids df = true.
Proof.
  unfold integral_tables, read_table. intros H Hn Hr. rewrite forallb_forall in H.
  apply list_elem_of_In, H in Hn. destruct (eng !! n); [|discriminate].
  by injection Hr as ->.
Qed.

Lemma plants_utils_ferc1_ids eng pu_ferc c :
  integral_tables eng ["plants_ferc"; "utilities_ferc"] = true ->
  plants_utils_ferc1 eng = Ok pu_ferc ->
  c ∈ ["plant_id_pudl"; "util_id_pudl"] -> c ∈ columns pu_ferc ->
  Forall (int_at c) (rows pu_ferc).
Proof.
  unfold plants_utils_ferc1. intros Hs H Hc Hin. do 2 bind_inv H.
  apply (pd_merge_inner_int _ _ _ _ _ _ H Hin).
  - label_cases Hc; reflexivity.
  - label_cases Hc; reflexivity.
  - intros Hl. apply (integral_tables_spec _ _ "plants_ferc" _ _ Hs); [by_compute|done..].
  - intros Hr. apply (integral_tables_spec _ _ "utilities_ferc" _ _ Hs); [by_compute|done..].
Qed.

Lemma integral_tables_weaken eng names names' :
  integral_tables eng names = true -> (forall n, n ∈ names' -> n ∈ names) ->
  integral_tables eng names' = true.
Proof.
  unfold integral_tables. rewrite !forallb_forall. intros H Hsub n Hn.
  apply H, list_elem_of_In, Hsub. by apply list_elem_of_In.
Qed.

Lemma plants_steam_ferc1_ids eng out c :
  integral_tables eng ["plants_steam_ferc1"; "plants_ferc"; "utilities_ferc"] = true ->
  plants_steam_ferc1 eng = Ok out ->
  c ∈ ["plant_id_pudl"; "util_id_pudl"] -> Forall (int_at c) (rows out).
Proof.
  unfold plants_steam_ferc1. intros Hs H Hc. do 3 bind_inv H.
  pose proof (organize_cols_rows _ _ _ H) as (Hlead & _ & _).
  apply (organize_cols_keeps (fun v => exists z, v = VInt z) _ _ _ _ H);
    [revert c Hc; literal_subset|].
  apply (pd_merge_inner_int _ _ _ _ _ _ Hx1).
  - apply Hlead. revert c Hc. literal_subset.
  - label_cases Hc; reflexivity.
  - label_cases Hc; reflexivity.
  - intros Hl. apply (integral_tables_spec _ _ "plants_steam_ferc1" _ _ Hs);
      [by_compute|done..].
  - intros Hr. apply (plants_utils_ferc1_ids eng); [|done..].
    apply (integral_tables_weaken _ _ _ Hs). literal_subset.
Qed.

Lemma drop_cols_keeps_int labels df df' c :
  drop_cols labels df = Ok df' -> c ∉ labels ->
  Forall (int_at c) (rows df) -> Forall (int_at c) (rows df').
Proof.
  intros H Hc Hint. apply drop_cols_rows in H. rewrite H.
  apply Forall_fmap. eapply Forall_impl; [exact Hint|].
  intros r Hr. unfold int_at, compose. by rewrite cell_drop.
Qed.

Lemma assign_binop_keeps_int op c' a b df df' c :
  assign_binop op c' a b df = Ok df' -> c <> c' ->
  (c ∈ columns df' -> c ∈ columns df) /\
  (Forall (int_at c) (rows df) -> Forall (int_at c) (rows df')).
Proof.
  intros H Hne. split.
  - rewrite (assign_binop_columns _ _ _ _ _ _ H).
    destruct (bool_decide (c' ∈ columns df)); [done|].
    intros Hin. apply elem_of_app in Hin as [|Hin]; [done|].
    by apply list_elem_of_singleton in Hin.
  - intros Hint. apply assign_binop_rows in H. rewrite H.
    apply Forall_fmap. eapply Forall_impl; [exact Hint|].
    intros r Hr. unfold int_at, compose. by rewrite cell_insert_ne.
Qed.

Lemma fuel_ferc1_ids eng out c :
  integral_tables eng ["fuel_ferc1"; "plants_ferc"; "utilities_ferc"] = true ->
  fuel_ferc1 eng = Ok out ->
  c ∈ ["plant_id_pudl"; "util_id_pudl"] -> Forall (int_at c) (rows out).
Proof.
  unfold fuel_ferc1. intros Hs H Hc. do 7 bind_inv H.
  pose proof (organize_cols_rows _ _ _ H) as (Hlead & _ & _).
  assert (c ∈ columns x4) as Hin4.
  { assert (c ∈ columns x5) as Hin5 by (apply Hlead; clear -Hc; revert c Hc; literal_subset).
    rewrite (drop_cols_columns _ _ _ Hx5) in Hin5.
    by apply list_elem_of_filter in Hin5 as [_ Hin5]. }
  apply (organize_cols_keeps (fun v => exists z, v = VInt z) _ _ _ _ H);
    [clear -Hc; revert c Hc; literal_subset|].
  apply (drop_cols_keeps_int _ _ _ _ Hx5); [intros Hid; label_cases Hid; absurd_label Hc|].
  apply (pd_merge_inner_int _ _ _ _ _ _ Hx4 Hin4).
  - label_cases Hc; reflexivity.
  - label_cases Hc; reflexivity.
  - intros Hl.
    destruct (assign_binop_keeps_int _ _ _ _ _ _ c Hx2) as [Hc2 Hr2];
      [intros Heq; rewrite Heq in Hc; absurd_label Hc|].
    destruct (assign_binop_keeps_int _ _ _ _ _ _ c Hx1) as [Hc1 Hr1];
      [intros Heq; rewrite Heq in Hc; absurd_label Hc|].
    destruct (assign_binop_keeps_int _ _ _ _ _ _ c Hx0) as [Hc0 Hr0];
      [intros Heq; rewrite Heq in Hc; absurd_label Hc|].
    apply Hr2, Hr1, Hr0.
    apply (integral_tables_spec _ _ "fuel_ferc1" _ _ Hs); [by_compute|done|done|auto].
  - intros Hr. apply (plants_utils_ferc1_ids eng); [|done..].
    apply (integral_tables_weaken _ _ _ Hs). literal_subset.
Qed.

Lemma generators_eia860_ids eng plants_eia out c :
  integral_tables eng ["generators_eia860"; "utilities_eia"; "plants_eia"] = true ->
  read_table eng "plants_eia" = Ok plants_eia ->
  generators_eia860 eng = Ok out ->
  c ∈ ["plant_id_pudl"; "util_id_pudl"] ->
  (c ∈ columns plants_eia -> left_joined_id c ["plant_id"] plants_eia out) /\
  (c ∉ columns plants_eia -> Forall (int_at c) (rows out)).
Proof.
  unfold generators_eia860. intros Hs Hp H Hc. do 8 bind_inv H.
  rewrite Hp in Hx5. injection Hx5 as <-. bind_inv H.
  pose proof (organize_cols_rows _ _ _ H) as (Hlead & _ & _).
  pose proof (read_cols_columns _ _ _ _ Hx1) as Hcols1.
  assert (ends_with "_x" c = false /\ ends_with "_y" c = false) as [Hux Huy]
    by (label_cases Hc; split; reflexivity).
  assert (c ∈ columns x6) as Hin6.
  { assert (c ∈ columns x5) as Hin5 by (apply Hlead; clear -Hc; revert c Hc; literal_subset).
    rewrite (drop_cols_columns _ _ _ Hx5) in Hin5.
    by apply list_elem_of_filter in Hin5 as [_ Hin5]. }
  assert (c ∉ shared_keys ["plant_id"] ["plant_id"]) as Hns.
  { intros Hin. label_cases Hc; absurd_label Hin. }
  destruct (drop_organize_rows _ _ _ _ _ Hx5 H) as (g & Hg & Hcell).
  split.
  - intros Hin.
    assert (c ∉ columns x4) as Hno.
    { intros Hl. by apply (pd_merge_overlap_renamed _ _ _ _ _ _ c Hx6 Hl Hin Hns Hux Huy). }
    apply (left_joined_id_map _ _ _ x6 out g Hg).
    { intros r k Hk. apply Hcell.
      - apply elem_of_cons in Hk as [->|Hk]; [clear -Hc; revert c Hc; literal_subset|].
        revert k Hk. literal_subset.
      - intros Hid. label_cases Hid.
        apply elem_of_cons in Hk as [<-|Hk]; [absurd_label Hc|absurd_label Hk]. }
    eapply (left_join_attaches x4 plants_eia plants_eia _ _ _ id); try exact Hx6.
    + symmetry. apply map_id.
    + done.
    + done.
    + done.
    + done.
    + done.
    + done.
    + done.
    + intros k Hk. label_cases Hk. reflexivity.
    + apply (integral_tables_spec _ _ "plants_eia" _ _ Hs); [by_compute|done..].
  - intros Hout.
    assert (c ∈ columns x4) as Hin4.
    { by destruct (pd_merge_column_origin _ _ _ _ _ _ c Hx6 Hin6 Hux Huy). }
    apply (organize_cols_keeps (fun v => exists z, v = VInt z) _ _ _ _ H);
      [clear -Hc; revert c Hc; literal_subset|].
    apply (drop_cols_keeps_int _ _ _ _ Hx5); [intros Hid; label_cases Hid; absurd_label Hc|].
    apply (pd_merge_kept_int _ _ _ _ _ _ _ Hx6 Hin4 Hin6 Hux Huy).
    apply (pd_merge_inner_int _ _ _ _ _ _ Hx4 Hin4 Hux Huy).
    + intros Hin2.
      assert (c ∈ columns x0) as Hin0.
      { destruct (pd_merge_column_origin _ _ _ _ _ _ c Hx2 Hin2 Hux Huy) as [|Hr]; [done|].
        apply Hcols1 in Hr. exfalso. label_cases Hc; absurd_label Hr. }
      apply (pd_merge_kept_int _ _ _ _ _ _ _ Hx2 Hin0 Hin2 Hux Huy).
      pose proof Hin0 as Hin. rewrite (drop_cols_columns _ _ _ Hx0) in Hin.
      apply list_elem_of_filter in Hin as [Hnd Hin].
      apply (drop_cols_keeps_int _ _ _ _ Hx0 Hnd).
      apply (integral_tables_spec _ _ "generators_eia860" _ _ Hs); [by_compute|done..].
    + intros Hin3.
      apply (integral_tables_spec _ _ "utilities_eia" _ _ Hs); [by_compute|done..].
Qed.

(** ** Identifier types in the outputs (C9) *)

(** C9 (as amended): the surrogate identifiers [plant_id_pudl] and
    [util_id_pudl] are integers in every row returned by the four EIA 923
    functions and by [plants_utils_eia], which drop the rows without an
    identifier and cast the columns.  They are integers in every row
    returned by [plants_steam_ferc1] and [fuel_ferc1] when the tables read
    store them as integers: these attach them with inner joins, which
    return the stored cells.  [utilities_eia860], [plants_eia860] and
    [generators_eia860] attach them with left joins and neither drop nor
    cast: an identifier attached by a left join is an integer in every row
    only when every row has its key in the glue table; otherwise it is a
    float in every row, and [nan] in the rows whose key the glue table does
    not have.  ([generators_eia860] attaches with a left join what it takes
    from [plants_eia]; what it takes from the other tables keeps the stored
    integers.) *)
Theorem surrogate_ids_integral
    (m : DataFrame -> DataFrame -> list string -> result DataFrame)
    (eng : gmap string DataFrame) (fr : option freq) (s e : option date) :
  (forall out, generation_fuel_eia923 m eng fr s e = Ok out ->
     Forall (fun r => int_at "plant_id_pudl" r /\ int_at "util_id_pudl" r) (rows out)) /\
  (forall out, fuel_receipts_costs_eia923 m eng fr s e = Ok out ->
     Forall (fun r => int_at "plant_id_pudl" r /\ int_at "util_id_pudl" r) (rows out)) /\
  (forall out, boiler_fuel_eia923 m eng fr s e = Ok out ->
     Forall (fun r => int_at "plant_id_pudl" r /\ int_at "util_id_pudl" r) (rows out)) /\
  (forall out, generation_eia923 m eng fr s e = Ok out ->
     Forall (fun r => int_at "plant_id_pudl" r /\ int_at "util_id_pudl" r) (rows out)) /\
  (forall out, plants_utils_eia eng = Ok out ->
     Forall (fun r => int_at "plant_id_pudl" r /\ int_at "util_id_pudl" r) (rows out)) /\
  (forall out,
     integral_tables eng ["plants_steam_ferc1"; "plants_ferc"; "utilities_ferc"] = true ->
     plants_steam_ferc1 eng = Ok out ->
     Forall (fun r => int_at "plant_id_pudl" r /\ int_at "util_id_pudl" r) (rows out)) /\
  (forall out,
     integral_tables eng ["fuel_ferc1"; "plants_ferc"; "utilities_ferc"] = true ->
     fuel_ferc1 eng = Ok out ->
     Forall (fun r => int_at "plant_id_pudl" r /\ int_at "util_id_pudl" r) (rows out)) /\
  (forall utils_eia out,
     read_table eng "utilities_eia" = Ok utils_eia ->
     stores_integral_ids utils_eia = true ->
     utilities_eia860 eng = Ok out ->
     left_joined_id "util_id_pudl" ["operator_id"] utils_eia out) /\
  (forall plants_eia utils_eia out,
     read_table eng "plants_eia" = Ok plants_eia ->
     read_table eng "utilities_eia" = Ok utils_eia ->
     stores_integral_ids plants_eia = true -> stores_integral_ids utils_eia = true ->
     plants_eia860 eng = Ok out ->
     left_joined_id "plant_id_pudl" ["plant_id"] plants_eia out /\
     left_joined_id "util_id_pudl" ["operator_id"] utils_eia out) /\
  (forall plants_eia out c,
     integral_tables eng ["generators_eia860"; "utilities_eia"; "plants_eia"] = true ->
     read_table eng "plants_eia" = Ok plants_eia ->
     generators_eia860 eng = Ok out ->
     c ∈ ["plant_id_pudl"; "util_id_pudl"] ->
     (c ∈ columns plants_eia -> left_joined_id c ["plant_id"] plants_eia out) /\
     (c ∉ columns plants_eia -> Forall (int_at c) (rows out))).
Proof.
  split; [|split; [|split; [|split; [|split; [|split; [|split; [|split; [|split]]]]]]]].
  - intros out H. apply Forall_and. by apply generation_fuel_eia923_keys in H as [_ H].
  - intros out H. apply Forall_and. by apply fuel_receipts_costs_eia923_keys in H as [_ H].
  - intros out H. apply Forall_and. by apply boiler_fuel_eia923_keys in H as [_ H].
  - intros out H. apply Forall_and. by apply generation_eia923_keys in H as [_ H].
  - intros out H. apply Forall_and. by apply plants_utils_eia_rows in H as [_ H].
  - intros out Hs H. apply Forall_and.
    split; apply (plants_steam_ferc1_ids eng out _ Hs H); by_compute.
  - intros out Hs H. apply Forall_and.
    split; apply (fuel_ferc1_ids eng out _ Hs H); by_compute.
  - intros utils_eia out Hu Hs H. by apply (utilities_eia860_ids eng).
  - intros plants_eia utils_eia out Hp Hu Hsp Hsu H. by apply (plants_eia860_ids eng).
  - intros plants_eia out c Hs Hp H Hc. by apply (generators_eia860_ids eng).
Qed.

Lemma surrogate_ids_integral_witness :
  (exists out,
     generation_fuel_eia923 merge_on_date_year_spec sample_engine (Some MS) None None
       = Ok out /\
     Forall (fun r => int_at "plant_id_pudl" r /\ int_at "util_id_pudl" r) (rows out)) /\
  (exists out,
     integral_tables ferc_engine ["plants_steam_ferc1"; "plants_ferc"; "utilities_ferc"]
       = true /\
     plants_steam_ferc1 ferc_engine = Ok out /\
     Forall (fun r => int_at "plant_id_pudl" r /\ int_at "util_id_pudl" r) (rows out)) /\
  (exists utils_eia out,
     read_table sample_engine "utilities_eia" = Ok utils_eia /\
     stores_integral_ids utils_eia = true /\
     utilities_eia860 sample_engine = Ok out /\
     left_joined_id "util_id_pudl" ["operator_id"] utils_eia out).
Proof.
  split; [|split].
  - destruct (generation_fuel_eia923 merge_on_date_year_spec sample_engine (Some MS) None None)
      as [out|err] eqn:E; [|vm_compute in E; discriminate].
    exists out. split; [reflexivity|].
    exact (proj1 (surrogate_ids_integral merge_on_date_year_spec sample_engine
                    (Some MS) None None) out E).
  - destruct (plants_steam_ferc1 ferc_engine) as [out|err] eqn:E;
      [|vm_compute in E; discriminate].
    assert (integral_tables ferc_engine
              ["plants_steam_ferc1"; "plants_ferc"; "utilities_ferc"] = true) as Hs
      by (vm_compute; reflexivity).
    exists out. split; [exact Hs|]. split; [reflexivity|].
    exact (proj1 (proj2 (proj2 (proj2 (proj2 (proj2
             (surrogate_ids_integral merge_on_date_year_spec ferc_engine
                None None None)))))) out Hs E).
  - destruct (read_table sample_engine "utilities_eia") as [utils_eia|err] eqn:Eu;
      [|vm_compute in Eu; discriminate].
    destruct (utilities_eia860 sample_engine) as [out|err] eqn:E;
      [|vm_compute in E; discriminate].
    assert (stores_integral_ids utils_eia = true) as Hs.
    { assert (stores_integral_ids <$> read_table sample_engine "utilities_eia" = Ok true)
        as Hc by (vm_compute; reflexivity).
      rewrite Eu in Hc. by injection Hc. }
    exists utils_eia, out. split; [reflexivity|]. split; [exact Hs|]. split; [reflexivity|].
    exact (proj1 (proj2 (proj2 (proj2 (proj2 (proj2 (proj2 (proj2
             (surrogate_ids_integral merge_on_date_year_spec sample_engine
                None None None)))))))) utils_eia out Eu Hs E).
Defined.

(** C9, the claim as stated fails: [utilities_eia860] attaches
    [util_id_pudl] with a left join and returns it as it is, a float for the
    utility that has a PUDL identifier and a missing value for the one that
    has none. *)
Lemma utilities_eia860_unmatched_id_missing :
  column_cells "util_id_pudl" <$> utilities_eia860 sample_engine
  = Ok [VFloat 18%float; VFloat PrimFloat.nan].
Proof. vm_compute. reflexivity. Qed.

(** When every utility is known the identifiers stay integers. *)
Example utilities_eia860_all_matched :
  column_cells "util_id_pudl" <$> utilities_eia860 matched_engine = Ok [VInt 18].
Proof. vm_compute. reflexivity. Qed.

(** The inner joins of [plants_steam_ferc1] return the stored integers. *)
Example plants_steam_ferc1_ids_sample :
  (fun out => (column_cells "util_id_pudl" out, column_cells "plant_id_pudl" out))
    <$> plants_steam_ferc1 ferc_engine
  = Ok ([VInt 18], [VInt 32]).
Proof. vm_compute. reflexivity. Qed.
